(** * PIE-G agent: a shallow embedding of [src/pie_g/agent.py]

    The development follows the Python module class by class:
    [RandomShiftsAug], [Encoder], [ResEncoder], [Actor], [Critic] and
    [PIEGAgent] with its methods [get_action], [train], [update],
    [update_critic] and [update_actor].

    Conventions of the embedding.
    - Tensor elements are exact rationals ([Q]): the arithmetic of the
      float32 code read over the numbers it approximates.  Rounding and
      overflow are outside the embedding; the one NaN that exact
      arithmetic also has, the mean of no elements, is kept ([pyfloat]).
    - A Python method is a function of the world (the agent object, the
      global random generator, the disk) that returns an outcome, a value
      or a raised exception, together with the world it leaves behind: a
      raise keeps every mutation made before it, as in Python.
    - What agent.py imports is an interface, the class [Imports]: from
      torch and torchvision the network layers, autograd, Adam, the
      generator, [F.pad] and [F.grid_sample]; from [pie_g.utils] and
      [segdac] the schedule, the bounds of the distribution, the overlay
      blend and the initial sampling strategy.  Every definition and
      theorem is stated for an arbitrary implementation of the interface.
      [TruncatedNormal], [soft_update_params] and [random_overlay] of
      [pie_g.utils], whose source is not at hand, are modelled from the
      specification of the repository.
    - Image batches are tensors with their size, in torch's default
      (contiguous) layout, which is the one [F.pad], [F.grid_sample], the
      convolutions and [torch.randn] return.  Encodings and actions are
      matrices, kept row by row together with their width; rewards, done
      flags and values are columns, tensors of size (n, 1) as the replay
      buffer stores them.  The layers of the actor and of the critic raise
      on a batch of another width or length as [nn.Linear] and [torch.cat]
      do, and element-wise operations broadcast as torch does; autograd
      and Adam are total functions: device and memory failures are outside
      the embedding. *)

From Stdlib Require Import String ZArith QArith Qminmax Qround List Bool Lia Lqa.
Import ListNotations.
Open Scope Q_scope.

(* ------------------------------------------------------------------ *)
(** * Python effects *)

Module Py.

(** The exceptions agent.py can meet. *)
Inductive exn : Type :=
| ZeroDivisionError
| AssertionError
| ValueError
| IndexError
| RuntimeError
| FileNotFoundError.

Inductive outcome (A : Type) : Type :=
| Returned (a : A)
| Raised (e : exn).
Arguments Returned {A} a.
Arguments Raised {A} e.

(** A computation over a mutable world [W]. *)
Definition M (W A : Type) : Type := W -> outcome A * W.

Definition ret {W A} (a : A) : M W A := fun w => (Returned a, w).

Definition raise {W A} (e : exn) : M W A := fun w => (Raised e, w).

Definition bind {W A B} (c : M W A) (k : A -> M W B) : M W B :=
  fun w =>
    match c w with
    | (Returned a, w') => k a w'
    | (Raised e, w') => (Raised e, w')
    end.

Definition get {W} : M W W := fun w => (Returned w, w).

Definition modify {W} (f : W -> W) : M W unit := fun w => (Returned tt, f w).

(** [assert b]. *)
Definition assert {W} (b : bool) : M W unit :=
  if b then ret tt else raise AssertionError.

(** Lifting a pure fallible value. *)
Definition lift {W A} (o : outcome A) : M W A := fun w => (o, w).

Definition returned {A} (o : outcome A) : bool :=
  match o with Returned _ => true | Raised _ => false end.

(** Python's [a % b] on ints: the result has the sign of the divisor,
    as [Z.modulo] has; a zero divisor raises. *)
Definition mod_ (a b : Z) : outcome Z :=
  if (b =? 0)%Z then Raised ZeroDivisionError else Returned (a mod b)%Z.

(** Python's [a // b] on non-negative ints. *)
Definition floordiv (a b : nat) : outcome nat :=
  match b with
  | O => Raised ZeroDivisionError
  | _ => Returned (Nat.div a b)
  end.

(** Sequence indexing [s[i]], negative indices counting from the end. *)
Definition index {A} (s : list A) (i : Z) : outcome A :=
  let n := Z.of_nat (length s) in
  let j := if (i <? 0)%Z then (n + i)%Z else i in
  if (j <? 0)%Z then Raised IndexError
  else match nth_error s (Z.to_nat j) with
       | Some a => Returned a
       | None => Raised IndexError
       end.

(** Sequencing of pure fallible values. *)
Definition and_then {A B} (o : outcome A) (k : A -> outcome B) : outcome B :=
  match o with
  | Returned a => k a
  | Raised e => Raised e
  end.

(** A Python [float] as [.item()] hands it to the logs: a number, or NaN,
    which torch gives for the mean of no elements.  NaN is contagious. *)
Inductive pyfloat : Type :=
| Num (q : Q)
| NaN.

Definition fadd (x y : pyfloat) : pyfloat :=
  match x, y with
  | Num a, Num b => Num (a + b)
  | _, _ => NaN
  end.

Definition fmul (c : Q) (x : pyfloat) : pyfloat :=
  match x with
  | Num a => Num (c * a)
  | NaN => NaN
  end.

Definition fneg (x : pyfloat) : pyfloat :=
  match x with
  | Num a => Num (- a)
  | NaN => NaN
  end.

(** [dict]: the logs are a dictionary from names to floats, kept in
    insertion order. *)
Definition dict : Type := list (string * pyfloat).

Fixpoint setitem (d : dict) (k : string) (v : pyfloat) : dict :=
  match d with
  | [] => [(k, v)]
  | (k', v') :: d' =>
      if String.eqb k k' then (k, v) :: d' else (k', v') :: setitem d' k v
  end.

(** [d.update(e)]. *)
Definition update (d e : dict) : dict :=
  fold_left (fun acc kv => setitem acc (fst kv) (snd kv)) e d.


End Py.

Import Py.

Declare Scope py_scope.
Delimit Scope py_scope with py.
Notation "x <- c ;; k" := (bind c (fun x => k))
  (at level 61, c at next level, right associativity) : py_scope.
Notation "c ;;; k" := (bind c (fun _ => k))
  (at level 61, right associativity) : py_scope.

(* ------------------------------------------------------------------ *)
(** * Tensors *)

(** A dense tensor in torch's default layout: its [size] and its elements
    in row-major order.  Tensors with other strides (a permuted or sliced
    view handed in by the caller) are not values of this type. *)
Record Tensor : Type := mkTensor { size : list nat; data : list Q }.

Definition numel (s : list nat) : nat := fold_right Nat.mul 1%nat s.

(** Element-wise map, as in [obs / 255.0 - 0.5]. *)
Definition tmap (f : Q -> Q) (t : Tensor) : Tensor :=
  mkTensor (size t) (map f (data t)).

(** [t.view(s)]: same storage, new size; the element counts must agree.
    (Every tensor of the embedding is contiguous, so the strides never
    stand in the way.) *)
Definition view (t : Tensor) (s : list nat) : outcome Tensor :=
  if Nat.eqb (numel (size t)) (numel s)
  then Returned (mkTensor s (data t))
  else Raised RuntimeError.

(** Rows of a matrix stored row-major: [chunks k l] cuts [l] in pieces of
    length [k] ([length l / k] of them, the fuel of the recursion). *)
Fixpoint chunks_fuel {A} (fuel k : nat) (l : list A) : list (list A) :=
  match fuel with
  | O => []
  | S fuel' => firstn k l :: chunks_fuel fuel' k (skipn k l)
  end.

Definition chunks {A} (k : nat) (l : list A) : list (list A) :=
  chunks_fuel (Nat.div (length l) k) k l.

(** Element-wise combination of two equally long vectors. *)
Fixpoint map2 {A B C} (f : A -> B -> C) (l : list A) (m : list B) : list C :=
  match l, m with
  | a :: l', b :: m' => f a b :: map2 f l' m'
  | _, _ => []
  end.

(** Element-wise combination of two columns, tensors of size (n, 1) and
    (m, 1), under torch's broadcasting: the sizes agree, or one of them is
    1 and its element is repeated; anything else raises. *)
Definition broadcast2 (f : Q -> Q -> Q) (l m : list Q) : outcome (list Q) :=
  if Nat.eqb (length l) (length m) then Returned (map2 f l m)
  else
    match l, m with
    | [x], _ => Returned (map (f x) m)
    | _, [y] => Returned (map (fun x => f x y) l)
    | _, _ => Raised RuntimeError
    end.

Definition Qsum (l : list Q) : Q := fold_right Qplus 0 l.

(** [t.mean()]: NaN on a tensor without elements. *)
Definition mean (l : list Q) : pyfloat :=
  match l with
  | [] => NaN
  | _ => Num (Qsum l / inject_Z (Z.of_nat (length l)))
  end.

(** [torch.clamp(x, lo, hi)]. *)
Definition clamp (x lo hi : Q) : Q := Qmin (Qmax x lo) hi.

(** [F.mse_loss(input, target)] with the default mean reduction: the two
    columns are broadcast against each other first. *)
Definition mse_loss (input target : list Q) : outcome pyfloat :=
  and_then (broadcast2 (fun x y => (x - y) * (x - y)) input target)
    (fun d => Returned (mean d)).

(** [torch.linspace(a, b, steps)]. *)
Definition linspace (a b : Q) (steps : nat) : list Q :=
  match steps with
  | O => []
  | 1%nat => [a]
  | _ =>
      let d := (b - a) / inject_Z (Z.of_nat (steps - 1)) in
      map (fun i => a + inject_Z (Z.of_nat i) * d) (seq 0 steps)
  end.

(** A matrix, the tensor of size [(length rows, width)], row by row: what
    the encoder returns and what the actor and the critic take.  A batch
    without rows still has its width. *)
Record Matrix : Type := mkMatrix { width : nat; rows : list (list Q) }.

(** The output of a network together with what autograd recorded about it:
    [graph] holds the input from which the trainable layers of the encoder
    computed [value], and is [None] for a tensor made under
    [torch.no_grad()] or detached. *)
Record Features : Type :=
  mkFeatures { value : Matrix; graph : option (list (list Q)) }.

(** [t.detach()]. *)
Definition detach (t : Features) : Features := mkFeatures (value t) None.

(** [backward()] adds the new gradient to [.grad], or sets it when [.grad]
    is [None]. *)
Definition accumulate (old : option (list Q)) (g : list Q) : option (list Q) :=
  match old with
  | None => Some g
  | Some g0 => Some (map2 Qplus g0 g)
  end.

(* ------------------------------------------------------------------ *)
(** * The imports of agent.py *)

(** [SamplingStrategy] of [segdac]: agent.py only tells [RANDOM] from
    everything else. *)
Inductive SamplingStrategy : Type := RANDOM | DETERMINISTIC.

Definition SamplingStrategy_eqb (a b : SamplingStrategy) : bool :=
  match a, b with
  | RANDOM, RANDOM | DETERMINISTIC, DETERMINISTIC => true
  | _, _ => false
  end.

(** The state of the global random generator is an integer. *)
Definition Generator : Type := Z.

Class Imports : Type := {
  (** [torch.manual_seed(seed)]: the state the generator is set to *)
  manual_seed : Z -> Generator;
  (** one element of [torch.randint(low, high, ...)]: the value drawn and
      the state after the draw *)
  randint_next : Z -> Z -> Generator -> Z * Generator;
  (** one element of [torch.randn] (a standard normal draw) *)
  randn_next : Generator -> Q * Generator;
  (** [F.pad(x, (p, p, p, p), "replicate")] *)
  F_pad_replicate : Tensor -> nat -> outcome Tensor;
  (** [F.grid_sample(x, grid, padding_mode="zeros", align_corners=False)] *)
  F_grid_sample : Tensor -> Tensor -> outcome Tensor;
  (** [resnet18(weights=ResNet18_Weights.IMAGENET1K_V1)]: weights, buffers *)
  resnet18 : list Q * list Q;
  (** the modules of the resnet up to and including [layer2], applied to a
      batch: weights, buffers and training flag in; output and the buffers
      after the call out *)
  resnet_to_layer2 : list Q -> list Q -> bool -> Tensor -> outcome Tensor * list Q;
  (** [nn.Linear(in, out)] followed by [nn.LayerNorm(out)], on one row *)
  fc_ln_forward : list Q -> list Q -> list Q;
  (** fresh parameters of [fc] (orthogonal weight, zero bias) and [ln] *)
  fc_ln_init : nat -> nat -> M Generator (list Q);
  (** the four-layer [convnet] of [Encoder], with [utils.weight_init] *)
  convnet_init : nat -> M Generator (list Q);
  convnet_forward : list Q -> Tensor -> outcome Tensor;
  (** [trunk] then [policy] of [Actor], on one row of the width the
      trunk was built for *)
  actor_trunk_policy : list Q -> list Q -> list Q;
  actor_init : nat -> nat -> nat -> nat -> M Generator (list Q);
  (** [trunk], concatenation with the action, [Q1] and [Q2] of [Critic],
      on one row and one action of the widths they were built for *)
  critic_trunk_Q1_Q2 : list Q -> list Q -> list Q -> Q * Q;
  critic_init : nat -> nat -> nat -> nat -> M Generator (list Q);
  (** [torch.tanh], a saturating nonlinearity with values in [-1, 1] *)
  tanh : Q -> Q;
  tanh_range : forall x, -1 <= tanh x <= 1;
  (** what [loss.backward()] stores for a group of parameters: the
      gradient of the loss, as a function of the group, at its value *)
  autograd : (list Q -> outcome pyfloat) -> list Q -> list Q;
  (** [torch.optim.Adam]: learning rate, optimizer state, parameters and
      gradient in; parameters and optimizer state out *)
  Adam_step : Q -> list Q -> list Q -> list Q -> list Q * list Q;
  (** [utils.schedule(schedule_string, step)] *)
  schedule : string -> Z -> Q;
  (** bounds of [utils.TruncatedNormal] *)
  action_low : Q;
  action_high : Q;
  (** the blend of a batch with textures of the overlay corpus *)
  overlay_blend : Tensor -> list Tensor -> M Generator Tensor;
  (** the strategy [StochasticAgent.__init__] starts with *)
  initial_sampling_strategy : SamplingStrategy
}.

Section Model.

Context {I : Imports}.

Open Scope py_scope.

Definition randint (low high : Z) : M Generator Z :=
  fun g => let (v, g') := randint_next low high g in (Returned v, g').

Definition randn : M Generator Q :=
  fun g => let (v, g') := randn_next g in (Returned v, g').

(** [k] draws in a row from the generator. *)
Fixpoint draws {A} (draw : M Generator A) (k : nat) : M Generator (list A) :=
  match k with
  | O => ret []
  | S k' => a <- draw ;; l <- draws draw k' ;; ret (a :: l)
  end.

(* ------------------------------------------------------------------ *)
(** * RandomShiftsAug *)

Record RandomShiftsAug : Type := mkRandomShiftsAug { pad : nat }.

Definition RandomShiftsAug_init (pad : nat) : RandomShiftsAug :=
  mkRandomShiftsAug pad.

(** [h + 2 * self.pad] as a number. *)
Definition padded (self : RandomShiftsAug) (h : nat) : Q :=
  inject_Z (Z.of_nat (h + 2 * pad self)).

(** [arange.unsqueeze(0).repeat(h, 1).unsqueeze(2)] concatenated with its
    transpose along the last dimension: entry [(i, j)] is
    [(arange[j], arange[i])]. *)
Definition base_grid_of (arange : list Q) : list (list (Q * Q)) :=
  map (fun yi => map (fun xj => (xj, yi)) arange) arange.

(** [torch.randint(0, 2 * pad + 1, size=(n, 1, 1, 2))], then
    [shift *= 2.0 / (h + 2 * pad)]: one pair per image of the batch. *)
Definition random_shift (self : RandomShiftsAug) (n h : nat)
  : M Generator (list (Q * Q)) :=
  ds <- draws (randint 0 (2 * Z.of_nat (pad self) + 1)) (2 * n) ;;
  ret (map (fun p =>
              match p with
              | [sx; sy] => (inject_Z sx * (2 / padded self h),
                             inject_Z sy * (2 / padded self h))
              | _ => (0, 0)
              end) (chunks 2 ds)).

(** [base_grid + shift] as a tensor of size [n, h, h, 2]. *)
Definition grid_of (n h : nat) (base_grid : list (list (Q * Q)))
  (shift : list (Q * Q)) : Tensor :=
  mkTensor [n; h; h; 2%nat]
    (flat_map (fun s =>
       flat_map (fun row =>
         flat_map (fun g => [fst g + fst s; snd g + snd s]) row) base_grid)
       shift).

Definition RandomShiftsAug_forward (self : RandomShiftsAug) (x : Tensor)
  : M Generator Tensor :=
  match size x with
  | [n; c; h; w] =>
      assert (Nat.eqb h w) ;;;
      x <- lift (F_pad_replicate x (pad self)) ;;
      eps <- (if Nat.eqb (h + 2 * pad self) 0
              then raise ZeroDivisionError
              else ret (1 / padded self h)) ;;
      let arange :=
        firstn h (linspace (-1 + eps) (1 - eps) (h + 2 * pad self)) in
      let base_grid := base_grid_of arange in
      shift <- random_shift self n h ;;
      let grid := grid_of n h base_grid shift in
      lift (F_grid_sample x grid)
  | _ => raise ValueError
  end.

(* ------------------------------------------------------------------ *)
(** * Encoder *)

Record Encoder : Type :=
  mkEncoder { Encoder_repr_dim : nat; convnet : list Q }.

Definition Encoder_init (obs_shape : list nat) : M Generator Encoder :=
  assert (Nat.eqb (length obs_shape) 3) ;;;
  c <- lift (index obs_shape 0) ;;
  w <- convnet_init c ;;
  ret (mkEncoder (32 * 35 * 35) w).

Definition Encoder_forward (self : Encoder) (obs : Tensor) : outcome Tensor :=
  let obs := tmap (fun v => v / 255 - (1 # 2)) obs in
  match convnet_forward (convnet self) obs with
  | Returned h =>
      match index (size h) 0 with
      | Returned b =>
          match b with
          | O => Raised RuntimeError
          | _ => view h [b; Nat.div (numel (size h)) b]
          end
      | Raised e => Raised e
      end
  | Raised e => Raised e
  end.

(* ------------------------------------------------------------------ *)
(** * ResEncoder *)

Record ResEncoder : Type := mkResEncoder {
  model : list Q;               (** resnet18 weights, [requires_grad = False] *)
  model_buffers : list Q;       (** batch-norm running statistics *)
  num_ftrs : nat;
  repr_dim : nat;
  image_channel : nat;
  out_dim : nat;
  fc_ln : list Q;               (** parameters of [fc] and [ln] *)
  fc_ln_grad : option (list Q); (** their [.grad] *)
  encoder_training : bool
}.

Definition set_buffers (self : ResEncoder) (b : list Q) : ResEncoder :=
  mkResEncoder (model self) b (num_ftrs self) (repr_dim self)
    (image_channel self) (out_dim self) (fc_ln self) (fc_ln_grad self)
    (encoder_training self).

Definition set_fc_ln (self : ResEncoder) (p : list Q) (g : option (list Q))
  : ResEncoder :=
  mkResEncoder (model self) (model_buffers self) (num_ftrs self)
    (repr_dim self) (image_channel self) (out_dim self) p g
    (encoder_training self).

Definition set_encoder_training (self : ResEncoder) (t : bool) : ResEncoder :=
  mkResEncoder (model self) (model_buffers self) (num_ftrs self)
    (repr_dim self) (image_channel self) (out_dim self) (fc_ln self)
    (fc_ln_grad self) t.

(** The loop over [self.model._modules] up to [layer2]; in training mode
    the batch-norm layers update their buffers. *)
Definition run_model (obs : Tensor) : M ResEncoder Tensor :=
  fun self =>
    let (o, b) := resnet_to_layer2 (model self) (model_buffers self)
                    (encoder_training self) obs in
    (o, set_buffers self b).

(** The frame-difference block of [forward_conv], on the storage of one
    batch element: [time_step] frames of [f] numbers each. *)
Definition frame_difference (time_step f : nat) (frames : list Q) : list Q :=
  let conv_current := skipn f frames in
  let conv_prev :=
    map2 Qminus conv_current (firstn ((time_step - 1) * f) frames) in
  conv_current ++ conv_prev.

Definition forward_conv (obs : Tensor) (flatten : bool) : M ResEncoder Tensor :=
  let obs := tmap (fun v => v / 255 - (1 # 2)) obs in
  self <- get ;;
  c <- lift (index (size obs) 1) ;;
  time_step <- lift (floordiv c (image_channel self)) ;;
  b <- lift (index (size obs) 0) ;;
  h <- lift (index (size obs) (-2)) ;;
  w <- lift (index (size obs) (-1)) ;;
  obs <- lift (view obs [b; time_step; image_channel self; h; w]) ;;
  obs <- lift (view obs [(b * time_step)%nat; image_channel self; h; w]) ;;
  obs <- run_model obs ;;
  s0 <- lift (index (size obs) 0) ;;
  q <- lift (floordiv s0 time_step) ;;
  s1 <- lift (index (size obs) 1) ;;
  s2 <- lift (index (size obs) 2) ;;
  s3 <- lift (index (size obs) 3) ;;
  conv <- lift (view obs [q; time_step; s1; s2; s3]) ;;
  let conv :=
    if Nat.ltb 1 time_step then
      let f := (s1 * s2 * s3)%nat in
      mkTensor [q; (2 * (time_step - 1) * s1)%nat; s2; s3]
        (flat_map (frame_difference time_step f)
           (chunks (time_step * f) (data conv)))
    else conv in
  if flatten then
    d0 <- lift (index (size conv) 0) ;;
    match d0 with
    | O => raise RuntimeError
    | _ => lift (view conv [d0; Nat.div (numel (size conv)) d0])
    end
  else ret conv.

(** [forward]: [fc] accepts rows of [out_dim] numbers only, and [fc] and
    [ln] return rows of [repr_dim] numbers.  [no_grad] tells whether the
    call is made under [torch.no_grad()]. *)
Definition ResEncoder_forward (no_grad : bool) (obs : Tensor)
  : M ResEncoder Features :=
  conv <- forward_conv obs true ;;
  self <- get ;;
  d1 <- lift (index (size conv) 1) ;;
  if Nat.eqb d1 (out_dim self) then
    let rows := chunks d1 (data conv) in
    ret (mkFeatures
           (mkMatrix (repr_dim self) (map (fc_ln_forward (fc_ln self)) rows))
           (if no_grad then None else Some rows))
  else raise RuntimeError.

(** The value of an encoded batch as a function of the parameters of [fc]
    and [ln]: constant when nothing was recorded. *)
Definition reencode (t : Features) (theta : list Q) : Matrix :=
  match graph t with
  | Some rows => mkMatrix (width (value t)) (map (fc_ln_forward theta) rows)
  | None => value t
  end.

(** The encoder while it is built: the resnet loaded, in training mode as
    every new module, [fc] and [ln] not yet made. *)
Definition ResEncoder_blank : ResEncoder :=
  mkResEncoder (fst resnet18) (snd resnet18) 512 1024 3 0 [] None true.

Definition ResEncoder_init (obs_shape : list nat) (device : string)
  : M Generator ResEncoder :=
  let self := ResEncoder_blank in
  x <- draws randn (numel (32%nat :: obs_shape)) ;;
  fun g =>
    match forward_conv (mkTensor (32%nat :: obs_shape) x) true self with
    | (Raised e, _) => (Raised e, g)
    | (Returned out, self) =>
        match index (size out) 1 with
        | Raised e => (Raised e, g)
        | Returned d =>
            (p <- fc_ln_init d 1024 ;;
             ret (mkResEncoder (model self) (model_buffers self) 512 1024 3
                    d p None true)) g
        end
    end.

(* ------------------------------------------------------------------ *)
(** * TruncatedNormal *)

(** Modelled from the spec: the class [TruncatedNormal] of [pie_g.utils],
    which is not among the sources.  The spec describes it as "a
    truncated-normal distribution over actions, parameterized per-step by a
    learned mean and a schedule-determined standard deviation", "a Gaussian
    distribution restricted to sampling within a bounded interval", that
    "exposes sampling (optionally clipped to a maximum deviation from the
    mean) and mean-action retrieval". *)
Record TruncatedNormal : Type := mkTruncatedNormal {
  loc : list (list Q);
  scale : list (list Q);
  low : Q;
  high : Q
}.

(** Modelled from the spec: the sample for a given standard normal
    [noise]; the deviation from the mean is clipped to [clip] when a clip
    is given, and the result is kept within the bounds. *)
Definition rsample_row (low high : Q) (clip : option Q)
  (loc scale noise : list Q) : list Q :=
  let eps := map2 Qmult noise scale in
  let eps :=
    match clip with
    | Some c => map (fun e => clamp e (- c) c) eps
    | None => eps
    end in
  map (fun x => clamp x low high) (map2 Qplus loc eps).

Definition rsample (self : TruncatedNormal) (clip : option Q)
  (noise : list (list Q)) : list (list Q) :=
  map2 (fun ls n => rsample_row (low self) (high self) clip (fst ls) (snd ls) n)
    (combine (loc self) (scale self)) noise.

(** Standard normal noise of the shape of [rows]. *)
Fixpoint randn_like (rows : list (list Q)) : M Generator (list (list Q)) :=
  match rows with
  | [] => ret []
  | r :: rows' =>
      n <- draws randn (length r) ;;
      ns <- randn_like rows' ;;
      ret (n :: ns)
  end.

(** Modelled from the spec: [dist.sample(clip=...)]. *)
Definition TruncatedNormal_sample (self : TruncatedNormal) (clip : option Q)
  : M Generator (list (list Q)) :=
  noise <- randn_like (loc self) ;;
  ret (rsample self clip noise).

(** [dist.mean]. *)
Definition TruncatedNormal_mean (self : TruncatedNormal) : list (list Q) :=
  loc self.

(* ------------------------------------------------------------------ *)
(** * Actor and Critic *)

(** [repr_dim] and [action_shape] are the [in_features] of the first
    layer of the trunk and the [out_features] of the last layer of the
    policy, as [__init__] was given them. *)
Record Actor : Type := mkActor {
  actor_repr_dim : nat;
  actor_action_shape : nat;
  actor_params : list Q;
  actor_grad : option (list Q);
  actor_training : bool
}.

Definition Actor_init (repr_dim action_shape feature_dim hidden_dim : nat)
  : M Generator Actor :=
  p <- actor_init repr_dim action_shape feature_dim hidden_dim ;;
  ret (mkActor repr_dim action_shape p None true).

(** [mu = torch.tanh(self.policy(self.trunk(obs)))]. *)
Definition Actor_mu (theta : list Q) (obs : list (list Q)) : list (list Q) :=
  map (fun h => map tanh (actor_trunk_policy theta h)) obs.

Definition Actor_forward_with (theta : list Q) (obs : list (list Q)) (std : Q)
  : TruncatedNormal :=
  let mu := Actor_mu theta obs in
  let std := map (map (fun _ => 1 * std)) mu in
  mkTruncatedNormal mu std action_low action_high.

(** [forward] on the rows of a batch that the trunk accepts. *)
Definition Actor_forward (self : Actor) (obs : list (list Q)) (std : Q)
  : TruncatedNormal :=
  Actor_forward_with (actor_params self) obs std.

(** [self.actor(obs, std)] with the parameters [theta]: the first layer of
    the trunk, [nn.Linear(repr_dim, feature_dim)], raises unless the rows
    hold [repr_dim] numbers. *)
Definition Actor_call_with (self : Actor) (theta : list Q) (obs : Matrix)
  (std : Q) : outcome TruncatedNormal :=
  if Nat.eqb (width obs) (actor_repr_dim self)
  then Returned (Actor_forward_with theta (rows obs) std)
  else Raised RuntimeError.

Definition Actor_call (self : Actor) (obs : Matrix) (std : Q)
  : outcome TruncatedNormal :=
  Actor_call_with self (actor_params self) obs std.

(** An action drawn from the distribution the actor returned, as the
    matrix it is. *)
Definition action_of (self : Actor) (sample : list (list Q)) : Matrix :=
  mkMatrix (actor_action_shape self) sample.

Record Critic : Type := mkCritic {
  critic_repr_dim : nat;
  critic_action_shape : nat;
  critic_params : list Q;
  critic_grad : option (list Q);
  critic_training : bool
}.

Definition Critic_init (repr_dim action_shape feature_dim hidden_dim : nat)
  : M Generator Critic :=
  p <- critic_init repr_dim action_shape feature_dim hidden_dim ;;
  ret (mkCritic repr_dim action_shape p None true).

Definition Critic_forward_with (theta : list Q) (obs action : list (list Q))
  : list Q * list Q :=
  let q := map2 (critic_trunk_Q1_Q2 theta) obs action in
  (map fst q, map snd q).


(** [self.critic(obs, action)] with the parameters [theta]: the trunk
    raises unless the rows of [obs] hold [repr_dim] numbers, [torch.cat]
    unless there are as many actions as rows, and the first layers of [Q1]
    and [Q2], [nn.Linear(feature_dim + action_shape, hidden_dim)], unless
    the actions hold [action_shape] numbers. *)
Definition Critic_call_with (self : Critic) (theta : list Q)
  (obs action : Matrix) : outcome (list Q * list Q) :=
  if Nat.eqb (width obs) (critic_repr_dim self)
     && Nat.eqb (length (rows obs)) (length (rows action))
     && Nat.eqb (width action) (critic_action_shape self)
  then Returned (Critic_forward_with theta (rows obs) (rows action))
  else Raised RuntimeError.

Definition Critic_call (self : Critic) (obs action : Matrix)
  : outcome (list Q * list Q) :=
  Critic_call_with self (critic_params self) obs action.

(** Modelled from the spec: [soft_update_params] of [pie_g.utils], which is
    not among the sources.  The spec: "blend target critic parameters
    toward the live critic parameters via exponential moving average with a
    fixed blending coefficient", so that they "equal
    tau * critic + (1 - tau) * old_target elementwise". *)
Definition soft_update_params (net target_net : Critic) (tau : Q) : Critic :=
  mkCritic (critic_repr_dim target_net) (critic_action_shape target_net)
    (map2 (fun param target_param => tau * param + (1 - tau) * target_param)
       (critic_params net) (critic_params target_net))
    (critic_grad target_net) (critic_training target_net).

(* ------------------------------------------------------------------ *)
(** * Optimizers *)

Record Adam : Type := mkAdam { lr : Q; adam_state : list Q }.

(** [opt.step()] on one group: parameters whose [.grad] is [None] are
    skipped. *)
Definition step (opt : Adam) (p : list Q) (g : option (list Q))
  : list Q * Adam :=
  match g with
  | None => (p, opt)
  | Some g =>
      let (p', s') := Adam_step (lr opt) (adam_state opt) p g in
      (p', mkAdam (lr opt) s')
  end.

(* ------------------------------------------------------------------ *)
(** * PIEGAgent *)

Record PIEGAgent : Type := mkPIEGAgent {
  sampling_strategy : SamplingStrategy;
  device : string;
  critic_target_tau : Q;
  update_every_steps : Z;
  stddev_schedule : string;
  stddev_clip : Q;
  discount : Q;
  env_step : Z;
  places365_data_dir_path : string;
  encoder : ResEncoder;
  actor : Actor;
  critic : Critic;
  critic_target : Critic;
  encoder_opt : Adam;
  actor_opt : Adam;
  critic_opt : Adam;
  aug : RandomShiftsAug;
  training : bool
}.

(** The world a method runs in: the agent object, torch's global
    generator, and the image corpora on disk (a directory that is missing
    or unreadable holds none). *)
Record World : Type := mkWorld {
  self : PIEGAgent;
  generator : Generator;
  disk : string -> option (list Tensor)
}.

Definition with_env_step (a : PIEGAgent) (n : Z) : PIEGAgent :=
  mkPIEGAgent (sampling_strategy a) (device a) (critic_target_tau a)
    (update_every_steps a) (stddev_schedule a) (stddev_clip a) (discount a)
    n (places365_data_dir_path a) (encoder a) (actor a) (critic a)
    (critic_target a) (encoder_opt a) (actor_opt a) (critic_opt a) (aug a)
    (training a).

Definition with_training (a : PIEGAgent) (t : bool) : PIEGAgent :=
  mkPIEGAgent (sampling_strategy a) (device a) (critic_target_tau a)
    (update_every_steps a) (stddev_schedule a) (stddev_clip a) (discount a)
    (env_step a) (places365_data_dir_path a) (encoder a) (actor a) (critic a)
    (critic_target a) (encoder_opt a) (actor_opt a) (critic_opt a) (aug a) t.

Definition with_encoder (a : PIEGAgent) (e : ResEncoder) (o : Adam)
  : PIEGAgent :=
  mkPIEGAgent (sampling_strategy a) (device a) (critic_target_tau a)
    (update_every_steps a) (stddev_schedule a) (stddev_clip a) (discount a)
    (env_step a) (places365_data_dir_path a) e (actor a) (critic a)
    (critic_target a) o (actor_opt a) (critic_opt a) (aug a) (training a).

Definition with_actor (a : PIEGAgent) (m : Actor) (o : Adam) : PIEGAgent :=
  mkPIEGAgent (sampling_strategy a) (device a) (critic_target_tau a)
    (update_every_steps a) (stddev_schedule a) (stddev_clip a) (discount a)
    (env_step a) (places365_data_dir_path a) (encoder a) m (critic a)
    (critic_target a) (encoder_opt a) o (critic_opt a) (aug a) (training a).

Definition with_critic (a : PIEGAgent) (m : Critic) (o : Adam) : PIEGAgent :=
  mkPIEGAgent (sampling_strategy a) (device a) (critic_target_tau a)
    (update_every_steps a) (stddev_schedule a) (stddev_clip a) (discount a)
    (env_step a) (places365_data_dir_path a) (encoder a) (actor a) m
    (critic_target a) (encoder_opt a) (actor_opt a) o (aug a) (training a).

Definition with_critic_target (a : PIEGAgent) (m : Critic) : PIEGAgent :=
  mkPIEGAgent (sampling_strategy a) (device a) (critic_target_tau a)
    (update_every_steps a) (stddev_schedule a) (stddev_clip a) (discount a)
    (env_step a) (places365_data_dir_path a) (encoder a) (actor a) (critic a)
    m (encoder_opt a) (actor_opt a) (critic_opt a) (aug a) (training a).

(** Running a computation on a part of the world. *)
Definition on_self (f : PIEGAgent -> PIEGAgent) : M World unit :=
  modify (fun w => mkWorld (f (self w)) (generator w) (disk w)).

Definition on_generator {A} (c : M Generator A) : M World A :=
  fun w =>
    let (o, g) := c (generator w) in
    (o, mkWorld (self w) g (disk w)).

Definition on_encoder {A} (c : M ResEncoder A) : M World A :=
  fun w =>
    let (o, e) := c (encoder (self w)) in
    (o, mkWorld (with_encoder (self w) e (encoder_opt (self w)))
          (generator w) (disk w)).

(** [module.train(mode)] and [module.eval()] on the actor and the critics. *)
Definition Actor_train (m : Actor) (t : bool) : Actor :=
  mkActor (actor_repr_dim m) (actor_action_shape m) (actor_params m)
    (actor_grad m) t.

Definition Critic_train (m : Critic) (t : bool) : Critic :=
  mkCritic (critic_repr_dim m) (critic_action_shape m) (critic_params m)
    (critic_grad m) t.

(** [opt.zero_grad(set_to_none=True)]. *)
Definition Actor_zero_grad (m : Actor) : Actor :=
  mkActor (actor_repr_dim m) (actor_action_shape m) (actor_params m) None
    (actor_training m).

Definition Critic_zero_grad (m : Critic) : Critic :=
  mkCritic (critic_repr_dim m) (critic_action_shape m) (critic_params m) None
    (critic_training m).

(** A module with other parameter values and another [.grad]. *)
Definition Actor_set (m : Actor) (p : list Q) (g : option (list Q)) : Actor :=
  mkActor (actor_repr_dim m) (actor_action_shape m) p g (actor_training m).

Definition Critic_set (m : Critic) (p : list Q) (g : option (list Q))
  : Critic :=
  mkCritic (critic_repr_dim m) (critic_action_shape m) p g
    (critic_training m).

Definition ResEncoder_zero_grad (e : ResEncoder) : ResEncoder :=
  set_fc_ln e (fc_ln e) None.

Definition PIEGAgent_init (obs_shape : list nat) (action_dim : nat)
  (device : string) (gamma lr : Q) (feature_dim hidden_dim : nat)
  (critic_target_tau : Q) (update_every_steps : Z) (stddev_schedule : string)
  (stddev_clip : Q) (places365_data_dir_path : string)
  : M Generator PIEGAgent :=
  (* models *)
  encoder <- ResEncoder_init obs_shape device ;;
  actor <- Actor_init (repr_dim encoder) action_dim feature_dim hidden_dim ;;
  critic <- Critic_init (repr_dim encoder) action_dim feature_dim hidden_dim ;;
  critic_target <-
    Critic_init (repr_dim encoder) action_dim feature_dim hidden_dim ;;
  (* critic_target.load_state_dict(critic.state_dict()) *)
  let critic_target :=
    Critic_set critic_target (critic_params critic)
      (critic_grad critic_target) in
  (* optimizers, data augmentation, self.train(), critic_target.train() *)
  ret (mkPIEGAgent initial_sampling_strategy device critic_target_tau
         update_every_steps stddev_schedule stddev_clip gamma 0%Z
         places365_data_dir_path
         (set_encoder_training encoder true)
         (Actor_train actor true) (Critic_train critic true)
         (Critic_train critic_target true)
         (mkAdam lr []) (mkAdam lr []) (mkAdam lr [])
         (RandomShiftsAug_init 4) true).

Definition train (training : bool) : M World unit :=
  on_self (fun a =>
    let a := with_training a training in
    let a := with_encoder a (set_encoder_training (encoder a) training)
               (encoder_opt a) in
    let a := with_actor a (Actor_train (actor a) training) (actor_opt a) in
    with_critic a (Critic_train (critic a) training) (critic_opt a)).

Definition get_action (observation : Tensor) : M World (list (list Q)) :=
  obs <- on_encoder (ResEncoder_forward false observation) ;;
  w <- get ;;
  let stddev := schedule (stddev_schedule (self w)) (env_step (self w)) in
  dist <- lift (Actor_call (actor (self w)) (value obs) stddev) ;;
  if SamplingStrategy_eqb (sampling_strategy (self w)) RANDOM then
    action <- on_generator (TruncatedNormal_sample dist None) ;;
    on_self (fun a => with_env_step a (env_step a + 1)%Z) ;;;
    ret action
  else
    ret (TruncatedNormal_mean dist).

(** A batch of transitions, [train_data]: the fields [update] reads.  The
    actions are a matrix; the rewards and the done flags are columns, of
    size (n, 1). *)
Record TensorDict : Type := mkTensorDict {
  pixels_transformed : Tensor;
  action : Matrix;
  next_reward : list Q;
  next_pixels_transformed : Tensor;
  next_done : list bool
}.

(** [done.float()]. *)
Definition float_of_bool (b : bool) : Q := if b then 1 else 0.

(** Modelled from the spec: [random_overlay] of [pie_g.utils], which is not
    among the sources.  The spec: "blending an observation image with an
    unrelated background texture"; "an external image corpus supplies
    overlay textures for the strong-augmentation path; failure to locate
    this corpus is a configuration error [...] not handled internally". *)
Definition random_overlay (x : Tensor) (data_dir : string) (device : string)
  : M World Tensor :=
  w <- get ;;
  match disk w data_dir with
  | None => raise FileNotFoundError
  | Some corpus => on_generator (overlay_blend x corpus)
  end.

(** [reward + not_done * (discount * torch.min(target_Q1, target_Q2))]:
    the two outputs of the critic are equally long; the product and the
    sum broadcast. *)
Definition target_Q_of (reward not_done : list Q) (discount : Q)
  (target_Q1 target_Q2 : list Q) : outcome (list Q) :=
  let target_V := map2 Qmin target_Q1 target_Q2 in
  and_then (broadcast2 Qmult not_done (map (Qmult discount) target_V))
    (broadcast2 Qplus reward).

(** The [torch.no_grad()] block of [update_critic]. *)
Definition bootstrapped_target (reward : list Q) (discount : Q)
  (not_done : list Q) (next_obs : Features) (step : Z) : M World (list Q) :=
  w <- get ;;
  let stddev := schedule (stddev_schedule (self w)) step in
  dist <- lift (Actor_call (actor (self w)) (value next_obs) stddev) ;;
  next_action <-
    on_generator (TruncatedNormal_sample dist (Some (stddev_clip (self w)))) ;;
  target <- lift (Critic_call (critic_target (self w)) (value next_obs)
                    (action_of (actor (self w)) next_action)) ;;
  lift (target_Q_of reward not_done discount (fst target) (snd target)).

(** The critic loss for given encodings and critic parameters. *)
Definition critic_loss_of (self : Critic) (obs aug_obs action : Matrix)
  (target_Q : list Q) (theta : list Q) : outcome pyfloat :=
  and_then (Critic_call_with self theta obs action) (fun Q =>
  and_then (mse_loss (fst Q) target_Q) (fun l1 =>
  and_then (mse_loss (snd Q) target_Q) (fun l2 =>
  let critic_loss := fadd l1 l2 in
  and_then (Critic_call_with self theta aug_obs action) (fun aug_Q =>
  and_then (mse_loss (fst aug_Q) target_Q) (fun l3 =>
  and_then (mse_loss (snd aug_Q) target_Q) (fun l4 =>
  let aug_loss := fadd l3 l4 in
  Returned (fmul (1 # 2) (fadd critic_loss aug_loss)))))))).

(** [critic_loss.backward()]: the critic always receives a gradient; the
    encoder receives one when an encoding carries a graph; the actor and
    the target critic were used under [torch.no_grad()] and receive none. *)
Definition critic_backward (obs aug_obs : Features) (action : Matrix)
  (target_Q : list Q) (a : PIEGAgent) : PIEGAgent :=
  let theta_c := critic_params (critic a) in
  let theta_e := fc_ln (encoder a) in
  let g_c :=
    autograd
      (critic_loss_of (critic a) (value obs) (value aug_obs) action target_Q)
      theta_c in
  let g_e :=
    autograd (fun theta =>
                critic_loss_of (critic a) (reencode obs theta)
                  (reencode aug_obs theta) action target_Q theta_c)
      theta_e in
  let a :=
    with_critic a
      (Critic_set (critic a) theta_c (accumulate (critic_grad (critic a)) g_c))
      (critic_opt a) in
  match graph obs, graph aug_obs with
  | None, None => a
  | _, _ =>
      with_encoder a
        (set_fc_ln (encoder a) theta_e
           (accumulate (fc_ln_grad (encoder a)) g_e)) (encoder_opt a)
  end.

Definition critic_opt_step (a : PIEGAgent) : PIEGAgent :=
  let (p, o) :=
    step (critic_opt a) (critic_params (critic a)) (critic_grad (critic a)) in
  with_critic a (Critic_set (critic a) p (critic_grad (critic a))) o.

Definition encoder_opt_step (a : PIEGAgent) : PIEGAgent :=
  let (p, o) :=
    step (encoder_opt a) (fc_ln (encoder a)) (fc_ln_grad (encoder a)) in
  with_encoder a (set_fc_ln (encoder a) p (fc_ln_grad (encoder a))) o.

Definition actor_opt_step (a : PIEGAgent) : PIEGAgent :=
  let (p, o) :=
    step (actor_opt a) (actor_params (actor a)) (actor_grad (actor a)) in
  with_actor a (Actor_set (actor a) p (actor_grad (actor a))) o.

Definition update_critic (obs : Features) (action : Matrix)
  (reward : list Q) (discount : Q) (not_done : list Q) (next_obs : Features)
  (step : Z) (aug_obs : Features) : M World dict :=
  let logs : dict := [] in
  on_self (fun a => with_actor a (Actor_train (actor a) false) (actor_opt a)) ;;;
  on_self (fun a => with_critic_target a (Critic_train (critic_target a) false)) ;;;
  on_self (fun a => with_critic a (Critic_train (critic a) true) (critic_opt a)) ;;;
  target_Q <- bootstrapped_target reward discount not_done next_obs step ;;
  w <- get ;;
  Q <- lift (Critic_call (critic (self w)) (value obs) action) ;;
  critic_loss <-
    lift (critic_loss_of (critic (self w)) (value obs) (value aug_obs) action
            target_Q (critic_params (critic (self w)))) ;;
  let logs := setitem logs "critic_target_q" (mean target_Q) in
  let logs := setitem logs "critic_q1" (mean (fst Q)) in
  let logs := setitem logs "critic_q2" (mean (snd Q)) in
  let logs := setitem logs "critic_loss" critic_loss in
  (* optimize encoder and critic *)
  on_self (fun a =>
    with_encoder a (ResEncoder_zero_grad (encoder a)) (encoder_opt a)) ;;;
  on_self (fun a => with_critic a (Critic_zero_grad (critic a)) (critic_opt a)) ;;;
  on_self (critic_backward obs aug_obs action target_Q) ;;;
  on_self critic_opt_step ;;;
  on_self encoder_opt_step ;;;
  ret logs.

(** The actor loss for given actor parameters and noise: [-Q.mean()]. *)
Definition actor_loss_of (actor : Actor) (critic : Critic) (obs : Matrix)
  (stddev : Q) (clip : Q) (noise : list (list Q)) (theta_c theta_a : list Q)
  : outcome pyfloat :=
  and_then (Actor_call_with actor theta_a obs stddev) (fun dist =>
  let action := action_of actor (rsample dist (Some clip) noise) in
  and_then (Critic_call_with critic theta_c obs action) (fun Q =>
  let Q := map2 Qmin (fst Q) (snd Q) in
  Returned (fneg (mean Q)))).

(** [actor_loss.backward()]: the actor and the critic, through which the
    loss is computed, receive gradients; the encoder receives one only when
    [obs] carries a graph. *)
Definition actor_backward (obs : Features) (stddev : Q)
  (noise : list (list Q)) (a : PIEGAgent) : PIEGAgent :=
  let theta_a := actor_params (actor a) in
  let theta_c := critic_params (critic a) in
  let clip := stddev_clip a in
  let loss := actor_loss_of (actor a) (critic a) in
  let g_a :=
    autograd (loss (value obs) stddev clip noise theta_c) theta_a in
  let g_c :=
    autograd (fun theta => loss (value obs) stddev clip noise theta theta_a)
      theta_c in
  let g_e :=
    autograd (fun theta =>
                loss (reencode obs theta) stddev clip noise theta_c theta_a)
      (fc_ln (encoder a)) in
  let a :=
    with_actor a
      (Actor_set (actor a) theta_a (accumulate (actor_grad (actor a)) g_a))
      (actor_opt a) in
  let a :=
    with_critic a
      (Critic_set (critic a) theta_c (accumulate (critic_grad (critic a)) g_c))
      (critic_opt a) in
  match graph obs with
  | None => a
  | Some _ =>
      with_encoder a
        (set_fc_ln (encoder a) (fc_ln (encoder a))
           (accumulate (fc_ln_grad (encoder a)) g_e)) (encoder_opt a)
  end.

Definition update_actor (obs : Features) (step : Z) : M World dict :=
  let logs : dict := [] in
  on_self (fun a => with_critic a (Critic_train (critic a) false) (critic_opt a)) ;;;
  on_self (fun a => with_actor a (Actor_train (actor a) true) (actor_opt a)) ;;;
  w <- get ;;
  let stddev := schedule (stddev_schedule (self w)) step in
  dist <- lift (Actor_call (actor (self w)) (value obs) stddev) ;;
  (* action = dist.sample(clip=self.stddev_clip), keeping the noise that
     the backward pass differentiates through *)
  noise <- on_generator (randn_like (loc dist)) ;;
  let action :=
    action_of (actor (self w))
      (rsample dist (Some (stddev_clip (self w))) noise) in
  Q <- lift (Critic_call (critic (self w)) (value obs) action) ;;
  let Q := map2 Qmin (fst Q) (snd Q) in
  let actor_loss := fneg (mean Q) in
  (* optimize actor *)
  on_self (fun a => with_actor a (Actor_zero_grad (actor a)) (actor_opt a)) ;;;
  on_self (actor_backward obs stddev noise) ;;;
  on_self actor_opt_step ;;;
  let logs := setitem logs "actor_loss" actor_loss in
  ret logs.

(** [utils.soft_update_params(self.critic, self.critic_target,
    self.critic_target_tau)]. *)
Definition update_critic_target : M World unit :=
  on_self (fun a =>
    with_critic_target a
      (soft_update_params (critic a) (critic_target a)
         (critic_target_tau a))).

Definition update (train_data : TensorDict) (env_step : Z) : M World dict :=
  train true ;;;
  let obs := pixels_transformed train_data in
  let action := action train_data in
  let reward := next_reward train_data in
  w <- get ;;
  let discount := discount (self w) in
  let next_obs := next_pixels_transformed train_data in
  let done := next_done train_data in
  let not_done := map (fun d => 1 - float_of_bool d) done in
  let logs : dict := [] in
  r <- lift (mod_ env_step (update_every_steps (self w))) ;;
  if negb (r =? 0)%Z then ret logs
  else
    (* augment *)
    obs <- on_generator (RandomShiftsAug_forward (aug (self w)) obs) ;;
    let original_obs := obs in
    next_obs <- on_generator (RandomShiftsAug_forward (aug (self w)) next_obs) ;;
    (* encode *)
    obs <- on_encoder (ResEncoder_forward false obs) ;;
    (* strong augmentation *)
    overlay <- random_overlay original_obs
                 (places365_data_dir_path (self w)) (device (self w)) ;;
    aug_obs <- on_encoder (ResEncoder_forward false overlay) ;;
    next_obs <- on_encoder (ResEncoder_forward true next_obs) ;;
    (* update critic *)
    l <- update_critic obs action reward discount not_done next_obs env_step
           aug_obs ;;
    let logs := Py.update logs l in
    (* update actor *)
    l <- update_actor (detach obs) env_step ;;
    let logs := Py.update logs l in
    (* update critic target *)
    update_critic_target ;;;
    ret logs.

(* ------------------------------------------------------------------ *)
(** * What the properties speak about *)

(** The values of all model parameters of an agent: the frozen resnet
    weights and the trainable [fc] and [ln] of the encoder, the actor, the
    critic and the target critic. *)
Definition encoder_parameters (a : PIEGAgent) : list Q * list Q :=
  (model (encoder a), fc_ln (encoder a)).

Definition parameters (a : PIEGAgent)
  : list Q * list Q * list Q * list Q * list Q :=
  (model (encoder a), fc_ln (encoder a), actor_params (actor a),
   critic_params (critic a), critic_params (critic_target a)).

(** What an optimizer step reads and writes besides the parameters: the
    gradients and the optimizer states. *)
Definition optimization_state (a : PIEGAgent)
  : option (list Q) * option (list Q) * option (list Q) * option (list Q)
    * Adam * Adam * Adam :=
  (fc_ln_grad (encoder a), actor_grad (actor a), critic_grad (critic a),
   critic_grad (critic_target a), encoder_opt a, actor_opt a, critic_opt a).

(** A computation keeps an observation [f] of the world when the world it
    leaves behind, whether it returns or raises, shows the same [f]. *)
Definition keeps {W X A} (f : W -> X) (c : M W A) : Prop :=
  forall w, f (snd (c w)) = f w.

(** What [update_critic] has no optimizer for: the actor, the target
    critic and the frozen resnet. *)
Definition outside_critic_update (a : PIEGAgent) : list Q * list Q * list Q :=
  (actor_params (actor a), critic_params (critic_target a),
   model (encoder a)).

(** What [update_actor] has no optimizer for: the critic, the encoder and
    the target critic. *)
Definition outside_actor_update (a : PIEGAgent)
  : list Q * list Q * list Q * list Q :=
  (critic_params (critic a), fc_ln (encoder a), model (encoder a),
   critic_params (critic_target a)).

(** The fields no method of the agent but [get_action] writes: the
    configuration and the step counter. *)
Definition configuration (a : PIEGAgent)
  : SamplingStrategy * string * Q * Z * string * Q * Q * Z * string
    * RandomShiftsAug :=
  (sampling_strategy a, device a, critic_target_tau a, update_every_steps a,
   stddev_schedule a, stddev_clip a, discount a, env_step a,
   places365_data_dir_path a, aug a).

(** Everything of the agent that training writes or is configured with:
    only the training flags and the batch-norm buffers are left out. *)
Definition learned (a : PIEGAgent) :=
  (parameters a, optimization_state a, configuration a).


(** The width of the encodings the encoder returns and the width the actor
    was built for. *)
Definition encoding_width (a : PIEGAgent) : nat * nat :=
  (repr_dim (encoder a), actor_repr_dim (actor a)).

(** The actor and the critic are built for the same encodings and the same
    actions, as [__init__] builds them. *)
Definition matched (a : PIEGAgent) : Prop :=
  actor_repr_dim (actor a) = critic_repr_dim (critic a)
  /\ actor_action_shape (actor a) = critic_action_shape (critic a).


(** A float that is a number and not below zero. *)
Definition finite_and_not_negative (x : pyfloat) : Prop :=
  exists q, x = Num q /\ 0 <= q.

(** A float that is not below zero: NaN is not. *)
Definition not_negative (x : pyfloat) : Prop :=
  match x with
  | Num q => 0 <= q
  | NaN => True
  end.

(** A computation is total when it returns from every world. *)
Definition total {W A} (c : M W A) : Prop :=
  forall w, returned (fst (c w)) = true.

(** A computation is safe for [f] when a raise leaves [f] as it was. *)
Definition safe {W X A} (f : W -> X) (c : M W A) : Prop :=
  forall w e w', c w = (Raised e, w') -> f w' = f w.

(** A computation ensures [R] when every return relates the worlds before
    and after by [R]. *)
Definition ensures {W A} (R : W -> W -> Prop) (c : M W A) : Prop :=
  forall w a w', c w = (Returned a, w') -> R w w'.

(** [w'] ends a whole update cycle at [step] begun by an agent that had
    learned what [a] has: the critic update and the actor update on the
    detached encoding, which both returned, and the update of the target
    critic, in a row. *)
Definition full_cycle (step : Z) (a : PIEGAgent) (w' : World) : Prop :=
  exists obs aug_obs next_obs action reward discount not_done w0 l w1 l' w2,
    learned (self w0) = learned a
    /\ update_critic obs action reward discount not_done next_obs step
         aug_obs w0 = (Returned l, w1)
    /\ update_actor (detach obs) step w1 = (Returned l', w2)
    /\ w' = snd (update_critic_target w2).

(** The grid [base_grid + shift] of [RandomShiftsAug.forward] on [n]
    images of [h] pixels across, for given draws. *)
Definition grid_for (self : RandomShiftsAug) (n h : nat) (ds : list Z)
  : Tensor :=
  let eps := 1 / padded self h in
  let arange :=
    firstn h (linspace (-1 + eps) (1 - eps) (h + 2 * pad self)) in
  grid_of n h (base_grid_of arange)
    (map (fun p =>
            match p with
            | [sx; sy] => (inject_Z sx * (2 / padded self h),
                           inject_Z sy * (2 / padded self h))
            | _ => (0, 0)
            end) (chunks 2 ds)).

(** The Polyak blend of the target critic towards the critic. *)
Definition blend (tau : Q) (critic target : list Q) : list Q :=
  map2 (fun p t => tau * p + (1 - tau) * t) critic target.


(** The interval of the claim on clipped samples: within [clip] of the mean
    and within the bounds of the distribution. *)
Definition within (clip low high mean a : Q) : Prop :=
  mean - clip <= a <= mean + clip /\ low <= a <= high.

(* ------------------------------------------------------------------ *)
(** * What the further properties speak about *)

(** The training-mode flags: of the agent, the encoder, the actor, the
    critic and the target critic. *)
Definition modes (a : PIEGAgent) : bool * bool * bool * bool * bool :=
  (training a, encoder_training (encoder a), actor_training (actor a),
   critic_training (critic a), critic_training (critic_target a)).

(** The agent with other gradients left on [fc] and [ln] of the encoder, on
    the actor and on the critic. *)
Definition with_gradients (a : PIEGAgent) (g_e g_a g_c : option (list Q))
  : PIEGAgent :=
  let a :=
    with_encoder a (set_fc_ln (encoder a) (fc_ln (encoder a)) g_e)
      (encoder_opt a) in
  let a :=
    with_actor a (Actor_set (actor a) (actor_params (actor a)) g_a)
      (actor_opt a) in
  with_critic a (Critic_set (critic a) (critic_params (critic a)) g_c)
    (critic_opt a).

Definition leaving_gradients (w : World) (g_e g_a g_c : option (list Q))
  : World :=
  mkWorld (with_gradients (self w) g_e g_a g_c) (generator w) (disk w).

(** Every value a computation returns satisfies [P]. *)
Definition yields {W A} (P : A -> Prop) (c : M W A) : Prop :=
  forall w a w', c w = (Returned a, w') -> P a.

(** The place in an image of [size] pixels across that a normalized
    coordinate of [F.grid_sample] denotes with [align_corners=False]: pixel
    [k] has its centre at [k]. *)
Definition unnormalize (size : nat) (coordinate : Q) : Q :=
  ((coordinate + 1) * inject_Z (Z.of_nat size) - 1) / 2.

(** The entry of a grid of size [n, h, h, 2] for image [b], row [i] and
    column [j]: its [x] and [y]. *)
Definition grid_at (grid : Tensor) (h b i j : nat) : option (Q * Q) :=
  let k := (((b * h + i) * h + j) * 2)%nat in
  match nth_error (data grid) k, nth_error (data grid) (S k) with
  | Some x, Some y => Some (x, y)
  | _, _ => None
  end.


(** A tensor holds as many numbers as its size says. *)
Definition well_formed (t : Tensor) : Prop :=
  length (data t) = numel (size t).

End Model.

(* ------------------------------------------------------------------ *)
(** * A small implementation of the imports

    Enough of torch to run the agent on small examples: a linear
    congruential generator, replicate padding and bilinear grid sampling
    written out, one-layer networks, gradients by finite differences and
    plain gradient descent in place of Adam. *)

Module Tiny.

Definition lcg (g : Generator) : Generator :=
  ((g * 1103515245 + 12345) mod 2147483648)%Z.

Definition lcg_randint (low high : Z) (g : Generator) : Z * Generator :=
  let g' := lcg g in
  ((low + (g' / 65536) mod (Z.max 1 (high - low)))%Z, g').

Definition lcg_randn (g : Generator) : Q * Generator :=
  let g' := lcg g in
  (Qred (inject_Z (((g' / 65536) mod 2001) - 1000) / 1000), g').

Definition at4 (t : Tensor) (C H W : nat) (n c : nat) (y x : Z) : Q :=
  if ((0 <=? y) && (y <? Z.of_nat H) && (0 <=? x) && (x <? Z.of_nat W))%Z
  then nth ((((n * C + c) * H + Z.to_nat y) * W) + Z.to_nat x) (data t) 0
  else 0.

Definition clampZ (v lo hi : Z) : Z := Z.min (Z.max v lo) hi.

Definition pad_replicate (x : Tensor) (p : nat) : outcome Tensor :=
  match size x with
  | [N; C; H; W] =>
      if Nat.eqb H 0 || Nat.eqb W 0 then Raised RuntimeError
      else
        Returned
          (mkTensor [N; C; (H + 2 * p)%nat; (W + 2 * p)%nat]
             (flat_map (fun n =>
                flat_map (fun c =>
                  flat_map (fun i =>
                    map (fun j =>
                           at4 x C H W n c
                             (clampZ (Z.of_nat i - Z.of_nat p) 0
                                (Z.of_nat H - 1))
                             (clampZ (Z.of_nat j - Z.of_nat p) 0
                                (Z.of_nat W - 1)))
                      (seq 0 (W + 2 * p)))
                    (seq 0 (H + 2 * p)))
                  (seq 0 C))
                (seq 0 N)))
  | _ => Raised RuntimeError
  end.

(** One output pixel of bilinear sampling with zero padding and
    [align_corners=False], at the normalized coordinates [(gx, gy)]. *)
Definition bilinear (x : Tensor) (C H W n c : nat) (gx gy : Q) : Q :=
  let ix := ((gx + 1) * inject_Z (Z.of_nat W) - 1) / 2 in
  let iy := ((gy + 1) * inject_Z (Z.of_nat H) - 1) / 2 in
  let x0 := Qfloor ix in
  let y0 := Qfloor iy in
  let wx1 := ix - inject_Z x0 in
  let wy1 := iy - inject_Z y0 in
  let wx0 := 1 - wx1 in
  let wy0 := 1 - wy1 in
  Qred (at4 x C H W n c y0 x0 * (wx0 * wy0)
        + at4 x C H W n c y0 (x0 + 1) * (wx1 * wy0)
        + at4 x C H W n c (y0 + 1) x0 * (wx0 * wy1)
        + at4 x C H W n c (y0 + 1) (x0 + 1) * (wx1 * wy1)).

Definition grid_sample (x grid : Tensor) : outcome Tensor :=
  match size x, size grid with
  | [N; C; H; W], [N'; Ho; Wo; 2%nat] =>
      if Nat.eqb N N' then
        Returned
          (mkTensor [N; C; Ho; Wo]
             (flat_map (fun n =>
                flat_map (fun c =>
                  flat_map (fun i =>
                    map (fun j =>
                           let k := (2 * ((n * Ho + i) * Wo + j))%nat in
                           bilinear x C H W n c
                             (nth k (data grid) 0)
                             (nth (S k) (data grid) 0))
                      (seq 0 Wo))
                    (seq 0 Ho))
                  (seq 0 C))
                (seq 0 N)))
      else Raised RuntimeError
  | _, _ => Raised RuntimeError
  end.

(** The stand-in for the resnet: one number per image, the sum of its
    pixels; in training mode the single buffer counts the calls. *)
Definition pixel_sums (weights buffers : list Q) (training : bool)
  (x : Tensor) : outcome Tensor * list Q :=
  match size x with
  | [B; C; H; W] =>
      (Returned
         (mkTensor [B; 1%nat; 1%nat; 1%nat]
            (map (fun img => Qred (Qsum img * Qsum weights))
               (chunks (C * H * W) (data x)))),
       if training then map (fun b => b + 1) buffers else buffers)
  | _ => (Raised RuntimeError, buffers)
  end.

Definition dot (u v : list Q) : Q := Qred (Qsum (map2 Qmult u v)).

(** The stand-in for [fc] and [ln]: rows of 1024 numbers, all but the
    first ones zero. *)
Definition scale_rows (theta row : list Q) : list Q :=
  map (fun t => Qred (t * Qsum row)) theta
  ++ repeat 0 (1024 - length theta).

Definition dot_policy (theta h : list Q) : list Q := [dot theta h].

Definition dot_critic (theta h a : list Q) : Q * Q :=
  (Qred (dot theta h + Qsum a), Qred (dot theta h - Qsum a)).

(** A saturating nonlinearity with values in [-1, 1]. *)
Definition hard_tanh (x : Q) : Q := clamp x (-1) 1.

Fixpoint bump (i : nat) (h : Q) (theta : list Q) : list Q :=
  match theta, i with
  | [], _ => []
  | t :: theta', O => (t + h) :: theta'
  | t :: theta', S i' => t :: bump i' h theta'
  end.

Definition number (o : outcome pyfloat) : Q :=
  match o with
  | Returned (Num q) => q
  | _ => 0
  end.

Definition finite_differences (f : list Q -> outcome pyfloat)
  (theta : list Q) : list Q :=
  map (fun i =>
         Qred ((number (f (bump i (1 # 1000) theta)) - number (f theta))
               * 1000))
    (seq 0 (length theta)).

Definition gradient_descent (lr : Q) (state p g : list Q) : list Q * list Q :=
  (map2 (fun x d => Qred (x - lr * d)) p g, map (fun n => n + 1) state).

Definition blend_first (x : Tensor) (corpus : list Tensor)
  : M Generator Tensor :=
  match corpus with
  | [] => raise FileNotFoundError
  | img :: _ =>
      ret (mkTensor (size x)
             (map2 (fun a b => Qred ((1 # 2) * a + (1 # 2) * b))
                (data x) (data img)))
  end.

#[local] Instance imports : Imports := {|
  manual_seed := fun s => s;
  randint_next := lcg_randint;
  randn_next := lcg_randn;
  F_pad_replicate := pad_replicate;
  F_grid_sample := grid_sample;
  resnet18 := ([1], [0]);
  resnet_to_layer2 := pixel_sums;
  fc_ln_forward := scale_rows;
  fc_ln_init := fun _ _ => ret [1 # 2; 1 # 3];
  convnet_init := fun _ => ret [1];
  convnet_forward := fun _ x => Returned x;
  actor_trunk_policy := dot_policy;
  actor_init := fun _ _ _ _ => ret [1 # 4; 1 # 5];
  critic_trunk_Q1_Q2 := dot_critic;
  critic_init := fun _ _ _ _ => ret [1 # 6; 1 # 7];
  tanh := hard_tanh;
  tanh_range :=
    ltac:(intro x; unfold hard_tanh, clamp; split;
          [ apply Q.min_glb; [ apply Q.le_max_r | discriminate ]
          | apply Q.le_min_r ]);
  autograd := finite_differences;
  Adam_step := gradient_descent;
  schedule := fun _ _ => 1 # 5;
  action_low := -1;
  action_high := 1;
  overlay_blend := blend_first;
  initial_sampling_strategy := RANDOM
|}.

(** A world to run examples in: an agent for 3-channel images, one corpus
    on disk under [places365]. *)
Definition texture : Tensor :=
  mkTensor [1; 3; 2; 2]%nat (map (fun i => inject_Z (Z.of_nat i)) (seq 0 12)).

Definition disk (path : string) : option (list Tensor) :=
  if String.eqb path "places365" then Some [texture] else None.

Definition new_agent (path : string) : outcome PIEGAgent * Generator :=
  PIEGAgent_init [3; 2; 2]%nat 1 "cpu" (99 # 100) (1 # 100) 50 1024
    (1 # 100) 2 "linear(1.0,0.1,100000)" (3 # 10) path 42%Z.

(** The agent [new_agent] builds (see [new_agent_is_agent]). *)
Definition agent (path : string) : PIEGAgent :=
  mkPIEGAgent RANDOM "cpu" (1 # 100) 2 "linear(1.0,0.1,100000)" (3 # 10)
    (99 # 100) 0 path
    (mkResEncoder [1] [1] 512 1024 3 1 [1 # 2; 1 # 3] None true)
    (mkActor 1024 1 [1 # 4; 1 # 5] None true)
    (mkCritic 1024 1 [1 # 6; 1 # 7] None true)
    (mkCritic 1024 1 [1 # 6; 1 # 7] None true)
    (mkAdam (1 # 100) []) (mkAdam (1 # 100) []) (mkAdam (1 # 100) [])
    (mkRandomShiftsAug 4) true.

Definition world (path : string) : World := mkWorld (agent path) 7%Z disk.

Definition image (v : Z) (h w : nat) : Tensor :=
  mkTensor [1; 3; h; w]%nat
    (map (fun i => inject_Z (v + Z.of_nat i)) (seq 0 (3 * h * w))).

(** Two stacks of two 3-channel frames of 1 x 2 pixels. *)
Definition two_frames : Tensor :=
  mkTensor [2; 6; 1; 2]%nat
    (map (fun i => inject_Z (Z.of_nat (i * i)) * 255) (seq 0 24)).

Definition batch (h w : nat) : TensorDict :=
  mkTensorDict (image 0 h w) (mkMatrix 1 [[0]]) [1] (image 0 h w) [false].

(** An encoding of one observation, as the encoder returns it. *)
Definition encoding : Features :=
  mkFeatures (mkMatrix 1024 [scale_rows [1 # 2; 1 # 3] [3]]) (Some [[3]]).

(** The agent of [world] with a critic for actions of two numbers, and a
    batch with such an action. *)
Definition unmatched_world : World :=
  mkWorld
    (mkPIEGAgent RANDOM "cpu" (1 # 100) 2 "linear(1.0,0.1,100000)"
       (3 # 10) (99 # 100) 0 "places365"
       (mkResEncoder [1] [1] 512 1024 3 1 [1 # 2; 1 # 3] None true)
       (mkActor 1024 1 [1 # 4; 1 # 5] None true)
       (mkCritic 1024 2 [1 # 6; 1 # 7] None true)
       (mkCritic 1024 1 [1 # 6; 1 # 7] None true)
       (mkAdam (1 # 100) []) (mkAdam (1 # 100) []) (mkAdam (1 # 100) [])
       (mkRandomShiftsAug 4) true)
    7%Z disk.

Definition wide_batch : TensorDict :=
  mkTensorDict (image 0 2 2) (mkMatrix 2 [[0; 0]]) [1] (image 0 2 2) [false].

(** The same agent under the deterministic strategy. *)
Definition deterministic_world : World :=
  mkWorld
    (mkPIEGAgent DETERMINISTIC "cpu" (1 # 100) 2 "linear(1.0,0.1,100000)"
       (3 # 10) (99 # 100) 0 "places365"
       (mkResEncoder [1] [1] 512 1024 3 1 [1 # 2; 1 # 3] None true)
       (mkActor 1024 1 [1 # 4; 1 # 5] None true)
       (mkCritic 1024 1 [1 # 6; 1 # 7] None true)
       (mkCritic 1024 1 [1 # 6; 1 # 7] None true)
       (mkAdam (1 # 100) []) (mkAdam (1 # 100) []) (mkAdam (1 # 100) [])
       (mkRandomShiftsAug 4) true)
    7%Z disk.

(** An encoder built for stacks of two frames of the small resnet. *)
Definition stack_encoder : ResEncoder :=
  mkResEncoder [1] [1] 512 1024 3 2 [1 # 2; 1 # 3] None true.

(** One image of four channels. *)
Definition four_channels : Tensor :=
  mkTensor [1; 4; 1; 1]%nat [0; 255; 510; 765].

(** The agent of [world] configured with [update_every_steps=0]. *)
Definition never_updating : World :=
  mkWorld
    (mkPIEGAgent RANDOM "cpu" (1 # 100) 0 "linear(1.0,0.1,100000)"
       (3 # 10) (99 # 100) 0 "places365"
       (mkResEncoder [1] [1] 512 1024 3 1 [1 # 2; 1 # 3] None false)
       (mkActor 1024 1 [1 # 4; 1 # 5] None false)
       (mkCritic 1024 1 [1 # 6; 1 # 7] None false)
       (mkCritic 1024 1 [1 # 6; 1 # 7] None false)
       (mkAdam (1 # 100) []) (mkAdam (1 # 100) []) (mkAdam (1 # 100) [])
       (mkRandomShiftsAug 4) false)
    7%Z disk.

End Tiny.

(* ------------------------------------------------------------------ *)
(** * Frame reasoning *)

Section Frames.

Context {I : Imports}.

Lemma keeps_ret {W X A} (f : W -> X) (a : A) : keeps f (ret a).
Proof. intro w. reflexivity. Qed.

Lemma keeps_raise {W X A} (f : W -> X) (e : exn) : keeps f (@raise W A e).
Proof. intro w. reflexivity. Qed.

Lemma keeps_lift {W X A} (f : W -> X) (o : outcome A) : keeps f (lift o).
Proof. intro w. reflexivity. Qed.

Lemma keeps_get {W X} (f : W -> X) : keeps f get.
Proof. intro w. reflexivity. Qed.

Lemma keeps_assert {W X} (f : W -> X) (b : bool) : keeps f (assert b).
Proof. intro w. destruct b; reflexivity. Qed.

Lemma keeps_bind {W X A B} (f : W -> X) (c : M W A) (k : A -> M W B) :
  keeps f c -> (forall a, keeps f (k a)) -> keeps f (bind c k).
Proof.
  intros Hc Hk w. unfold bind.
  specialize (Hc w). destruct (c w) as [[a | e] w1]; simpl in *.
  - rewrite Hk. exact Hc.
  - exact Hc.
Qed.

Lemma keeps_on_self {X} (f : PIEGAgent -> X) (g : PIEGAgent -> PIEGAgent) :
  (forall a, f (g a) = f a) -> keeps (fun w => f (self w)) (on_self g).
Proof. intros H w. simpl. apply H. Qed.

Lemma keeps_on_generator {X A} (f : PIEGAgent -> X) (c : M Generator A) :
  keeps (fun w => f (self w)) (on_generator c).
Proof.
  intro w. unfold on_generator. destruct (c (generator w)). reflexivity.
Qed.


(** The encoder's own observations survive [on_encoder] when the
    computation keeps them. *)
Lemma keeps_in_encoder {X A} (f : ResEncoder -> X) (c : M ResEncoder A) :
  keeps f c -> keeps (fun w => f (encoder (self w))) (on_encoder c).
Proof.
  intros H w. unfold on_encoder. specialize (H (encoder (self w))).
  destruct (c (encoder (self w))). simpl in *. exact H.
Qed.

Lemma keeps_compose {W X Y A} (f : W -> X) (g : X -> Y) (c : M W A) :
  keeps f c -> keeps (fun w => g (f w)) c.
Proof. intros H w. now rewrite H. Qed.

Lemma keeps_pair {W X Y A} (f : W -> X) (g : W -> Y) (c : M W A) :
  keeps f c -> keeps g c -> keeps (fun w => (f w, g w)) c.
Proof. intros Hf Hg w. rewrite Hf, Hg. reflexivity. Qed.

End Frames.

(** One step of a frame proof: follow the structure of the computation. *)
Ltac keeps_step :=
  lazymatch goal with
  | |- keeps _ (bind _ _) => apply keeps_bind; [ | intro ]
  | |- keeps _ (ret _) => apply keeps_ret
  | |- keeps _ (raise _) => apply keeps_raise
  | |- keeps _ (lift _) => apply keeps_lift
  | |- keeps _ get => apply keeps_get
  | |- keeps _ (assert _) => apply keeps_assert
  | |- keeps _ (on_generator _) => apply keeps_on_generator
  | |- keeps _ (if ?b then _ else _) => destruct b
  | |- keeps _ (match ?x with _ => _ end) => destruct x
  end.

Section FrameLemmas.

Context {I : Imports}.

Open Scope py_scope.

(** Calling the encoder changes its buffers only. *)
Lemma run_model_keeps (x : Tensor) :
  keeps (fun e => (model e, fc_ln e, fc_ln_grad e, out_dim e)) (run_model x).
Proof.
  intro e. unfold run_model.
  destruct (resnet_to_layer2 _ _ _ _). reflexivity.
Qed.

Lemma forward_conv_keeps (x : Tensor) (flatten : bool) :
  keeps (fun e => (model e, fc_ln e, fc_ln_grad e, out_dim e))
    (forward_conv x flatten).
Proof.
  unfold forward_conv.
  repeat first [ apply run_model_keeps | keeps_step ].
Qed.

Lemma ResEncoder_forward_keeps (no_grad : bool) (x : Tensor) :
  keeps (fun e => (model e, fc_ln e, fc_ln_grad e, out_dim e))
    (ResEncoder_forward no_grad x).
Proof.
  unfold ResEncoder_forward.
  repeat first [ apply forward_conv_keeps | keeps_step ].
Qed.

Lemma forward_conv_keeps_repr_dim (x : Tensor) (flatten : bool) :
  keeps repr_dim (forward_conv x flatten).
Proof.
  unfold forward_conv.
  repeat first [ keeps_step
               | intro e; unfold run_model;
                 destruct (resnet_to_layer2 _ _ _ _); reflexivity ].
Qed.

(** The encoder returns rows of [repr_dim] numbers, and keeps its
    [repr_dim]. *)
Lemma ResEncoder_forward_width (no_grad : bool) (x : Tensor)
  (e : ResEncoder) (obs : Features) (e' : ResEncoder) :
  ResEncoder_forward no_grad x e = (Returned obs, e') ->
  width (value obs) = repr_dim e /\ repr_dim e' = repr_dim e.
Proof.
  unfold ResEncoder_forward. unfold bind at 1.
  pose proof (forward_conv_keeps_repr_dim x true e) as K.
  destruct (forward_conv x true e) as [[conv | ex] e1]; [ | discriminate ].
  simpl in K. unfold bind, get, lift.
  destruct (index (size conv) 1) as [d | ex]; [ | discriminate ].
  destruct (Nat.eqb d (out_dim e1)); [ | discriminate ].
  unfold ret. intro E. injection E as <- <-. simpl. split; exact K.
Qed.

End FrameLemmas.

Section CriticAndActorUpdates.

Context {I : Imports}.

Open Scope py_scope.

(** Closing a goal about one in-place change of the agent. *)
Ltac agent_step :=
  apply keeps_on_self; intro;
  unfold critic_backward, actor_backward, critic_opt_step, encoder_opt_step,
    actor_opt_step;
  repeat match goal with
         | |- context [let (_, _) := ?x in _] => destruct x
         | |- context [match graph ?x with _ => _ end] => destruct (graph x)
         end;
  reflexivity.

Lemma bootstrapped_target_keeps {X} (f : PIEGAgent -> X) reward discount
  not_done next_obs step :
  keeps (fun w => f (self w))
    (bootstrapped_target reward discount not_done next_obs step).
Proof.
  unfold bootstrapped_target.
  repeat first [ keeps_step
               | match goal with
                 | |- context [let (_, _) := ?x in _] => destruct x
                 end ].
Qed.

Lemma update_critic_keeps obs action reward discount not_done next_obs step
  aug_obs :
  keeps (fun w => outside_critic_update (self w))
    (update_critic obs action reward discount not_done next_obs step aug_obs).
Proof.
  unfold update_critic.
  repeat first [ apply bootstrapped_target_keeps
               | agent_step
               | keeps_step
               | match goal with
                 | |- context [let (_, _) := ?x in _] => destruct x
                 end ].
Qed.

Lemma update_actor_keeps obs step :
  keeps (fun w => outside_actor_update (self w)) (update_actor obs step).
Proof.
  unfold update_actor.
  repeat first [ agent_step
               | keeps_step
               | match goal with
                 | |- context [let (_, _) := ?x in _] => destruct x
                 end ].
Qed.

(** C2. For every input, [update_critic] leaves the value of every actor
    parameter as it was (and, having optimizers for the encoder and the
    critic only, also the target critic and the frozen resnet weights), and
    [update_actor] leaves the value of every critic parameter and of every
    encoder parameter as it was (and the target critic). *)
Theorem updates_touch_only_their_parameters :
  (forall obs action reward discount not_done next_obs step aug_obs w,
      let a' :=
        self (snd (update_critic obs action reward discount not_done
                     next_obs step aug_obs w)) in
      actor_params (actor a') = actor_params (actor (self w))
      /\ critic_params (critic_target a')
         = critic_params (critic_target (self w))
      /\ model (encoder a') = model (encoder (self w)))
  /\ (forall obs step w,
         let a' := self (snd (update_actor obs step w)) in
         critic_params (critic a') = critic_params (critic (self w))
         /\ encoder_parameters a' = encoder_parameters (self w)
         /\ critic_params (critic_target a')
            = critic_params (critic_target (self w))).
Proof.
  split.
  - intros obs action reward discount not_done next_obs step aug_obs w a'.
    pose proof (update_critic_keeps obs action reward discount not_done
                  next_obs step aug_obs w) as H.
    unfold outside_critic_update in H. fold a' in H.
    injection H as H1 H2 H3. auto.
  - intros obs step w a'.
    pose proof (update_actor_keeps obs step w) as H.
    unfold outside_actor_update in H. fold a' in H.
    injection H as H1 H2 H3 H4.
    unfold encoder_parameters. rewrite H2, H3. auto.
Qed.

End CriticAndActorUpdates.

Section Sampling.

Context {I : Imports}.

Open Scope py_scope.

(** Drawing from the generator never raises, and gives as many numbers as
    asked for. *)
Lemma draws_randn_returns (k : nat) (g : Generator) :
  exists l g', draws randn k g = (Returned l, g') /\ length l = k.
Proof.
  revert g. induction k as [| k IH]; intro g; simpl.
  - exists [], g. split; reflexivity.
  - unfold bind, randn at 1. destruct (randn_next g) as [v g1].
    destruct (IH g1) as (l & g2 & -> & Hl).
    exists (v :: l), g2. simpl. split; [ reflexivity | now rewrite Hl ].
Qed.

Lemma draws_randint_returns (low high : Z) (k : nat) (g : Generator) :
  exists l g', draws (randint low high) k g = (Returned l, g') /\ length l = k.
Proof.
  revert g. induction k as [| k IH]; intro g; simpl.
  - exists [], g. split; reflexivity.
  - unfold bind, randint at 1. destruct (randint_next low high g) as [v g1].
    destruct (IH g1) as (l & g2 & -> & Hl).
    exists (v :: l), g2. simpl. split; [ reflexivity | now rewrite Hl ].
Qed.

Lemma randn_like_returns (rows : list (list Q)) (g : Generator) :
  exists noise g',
    randn_like rows g = (Returned noise, g')
    /\ Forall2 (fun r n => length n = length r) rows noise.
Proof.
  revert g. induction rows as [| r rows IH]; intro g; simpl.
  - exists [], g. split; [ reflexivity | constructor ].
  - unfold bind.
    destruct (draws_randn_returns (length r) g) as (n & g1 & -> & Hn).
    destruct (IH g1) as (ns & g2 & -> & Hns).
    exists (n :: ns), g2. split; [ reflexivity | now constructor ].
Qed.

Lemma TruncatedNormal_sample_returns (d : TruncatedNormal) (clip : option Q)
  (g : Generator) :
  exists noise g',
    TruncatedNormal_sample d clip g = (Returned (rsample d clip noise), g')
    /\ Forall2 (fun r n => length n = length r) (loc d) noise.
Proof.
  unfold TruncatedNormal_sample, bind.
  destruct (randn_like_returns (loc d) g) as (noise & g' & -> & H).
  exists noise, g'. split; [ reflexivity | exact H ].
Qed.

End Sampling.


Section Control.

Context {I : Imports}.

Open Scope py_scope.




Lemma total_on_self (g : PIEGAgent -> PIEGAgent) : total (on_self g).
Proof. intro w. reflexivity. Qed.






Lemma safe_ret {W X A} (f : W -> X) (a : A) : safe f (ret a).
Proof. intros w e w' E. discriminate. Qed.

(** When [R] looks at the world before only through [f], a prefix that
    keeps [f] can be put in front. *)
Lemma ensures_bind {W X A B} (f : W -> X) (R : W -> W -> Prop) (c : M W A)
  (k : A -> M W B) :
  (forall w1 w2 w', f w1 = f w2 -> R w1 w' -> R w2 w') ->
  keeps f c ->
  (forall a, ensures R (k a)) ->
  ensures R (bind c k).
Proof.
  intros HR Hc Hk w b w' E. unfold bind in E.
  specialize (Hc w). destruct (c w) as [[a | e1] w1]; simpl in Hc.
  - apply (HR w1 w w' Hc). eapply Hk. exact E.
  - discriminate.
Qed.

End Control.


Section Lists.

Lemma nth_error_map2 {A B C} (f : A -> B -> C) (l : list A) (m : list B)
  (i : nat) (a : A) (b : B) :
  nth_error l i = Some a -> nth_error m i = Some b ->
  nth_error (map2 f l m) i = Some (f a b).
Proof.
  revert m i. induction l as [| x l IH]; intros [| y m] [| i] Ha Hb;
    simpl in *; try discriminate.
  - congruence.
  - now apply IH.
Qed.

Lemma length_map2 {A B C} (f : A -> B -> C) (l : list A) (m : list B) :
  length (map2 f l m) = Nat.min (length l) (length m).
Proof.
  revert m. induction l as [| x l IH]; intros [| y m]; simpl; auto.
Qed.

End Lists.

Section Cycle.

Context {I : Imports}.

Open Scope py_scope.

Lemma update_critic_target_total : total update_critic_target.
Proof. apply total_on_self. Qed.







End Cycle.

Section UpdateFrames.

Context {I : Imports}.

Open Scope py_scope.

(** Closing a goal about one in-place change of the agent. *)
Ltac agent_change :=
  apply keeps_on_self; intro;
  unfold critic_backward, actor_backward, critic_opt_step, encoder_opt_step,
    actor_opt_step;
  repeat match goal with
         | |- context [let (_, _) := ?x in _] => destruct x
         | |- context [match graph ?x with _ => _ end] => destruct (graph x)
         end;
  reflexivity.

Lemma train_keeps_learned (t : bool) :
  keeps (fun w => learned (self w)) (train t).
Proof. unfold train. apply keeps_on_self. intro a. reflexivity. Qed.

Lemma encoder_call_keeps_learned (no_grad : bool) (x : Tensor) :
  keeps (fun w => learned (self w)) (on_encoder (ResEncoder_forward no_grad x)).
Proof.
  intro w. unfold on_encoder.
  pose proof (ResEncoder_forward_keeps no_grad x (encoder (self w))) as K.
  destruct (ResEncoder_forward no_grad x (encoder (self w))) as [o e].
  simpl in K. injection K as K1 K2 K3 K4.
  unfold learned, parameters, optimization_state, configuration. simpl.
  rewrite K1, K2, K3. reflexivity.
Qed.

Lemma random_overlay_keeps {X} (f : PIEGAgent -> X) (x : Tensor)
  (data_dir device : string) :
  keeps (fun w => f (self w)) (random_overlay x data_dir device).
Proof.
  unfold random_overlay. apply keeps_bind; [ apply keeps_get | intro w ].
  destruct (disk w data_dir);
    [ apply keeps_on_generator | apply keeps_raise ].
Qed.

Lemma random_overlay_keeps_learned (x : Tensor) (data_dir device : string) :
  keeps (fun w => learned (self w)) (random_overlay x data_dir device).
Proof. apply random_overlay_keeps. Qed.

Lemma update_critic_keeps_configuration obs action reward discount not_done
  next_obs step aug_obs :
  keeps (fun w => configuration (self w))
    (update_critic obs action reward discount not_done next_obs step aug_obs).
Proof.
  unfold update_critic.
  repeat first [ apply bootstrapped_target_keeps | agent_change | keeps_step ].
Qed.

Lemma update_actor_keeps_configuration obs step :
  keeps (fun w => configuration (self w)) (update_actor obs step).
Proof.
  unfold update_actor. repeat first [ agent_change | keeps_step ].
Qed.






Lemma ResEncoder_forward_keeps_repr_dim (no_grad : bool) (x : Tensor) :
  keeps repr_dim (ResEncoder_forward no_grad x).
Proof.
  unfold ResEncoder_forward.
  repeat first [ apply forward_conv_keeps_repr_dim | keeps_step ].
Qed.

Lemma encoder_call_keeps_encoding_width (no_grad : bool) (x : Tensor) :
  keeps (fun w => encoding_width (self w))
    (on_encoder (ResEncoder_forward no_grad x)).
Proof.
  intro w. unfold on_encoder.
  pose proof (ResEncoder_forward_keeps_repr_dim no_grad x (encoder (self w)))
    as K.
  destruct (ResEncoder_forward no_grad x (encoder (self w))) as [o e].
  simpl in K. unfold encoding_width. simpl. rewrite K. reflexivity.
Qed.

Lemma update_critic_keeps_encoding_width obs action reward discount not_done
  next_obs step aug_obs :
  keeps (fun w => encoding_width (self w))
    (update_critic obs action reward discount not_done next_obs step aug_obs).
Proof.
  unfold update_critic.
  repeat first [ apply bootstrapped_target_keeps | agent_change | keeps_step ].
Qed.

Lemma update_actor_keeps_encoding_width obs step :
  keeps (fun w => encoding_width (self w)) (update_actor obs step).
Proof.
  unfold update_actor. repeat first [ agent_change | keeps_step ].
Qed.

(** Neither [update] nor [get_action] changes the width of the encodings
    or the width the actor was built for. *)
Lemma update_keeps_encoding_width (train_data : TensorDict) (env_step : Z) :
  keeps (fun w => encoding_width (self w)) (update train_data env_step).
Proof.
  unfold update, train, update_critic_target.
  repeat first [ apply update_critic_keeps_encoding_width
               | apply update_actor_keeps_encoding_width
               | apply encoder_call_keeps_encoding_width
               | apply random_overlay_keeps
               | apply keeps_on_self; intro; reflexivity
               | keeps_step ].
Qed.

Lemma get_action_keeps_encoding_width (observation : Tensor) :
  keeps (fun w => encoding_width (self w)) (get_action observation).
Proof.
  unfold get_action.
  repeat first [ apply encoder_call_keeps_encoding_width
               | apply keeps_on_self; intro; reflexivity
               | keeps_step ].
Qed.

Lemma encoding_width_inv (a b : PIEGAgent) :
  encoding_width b = encoding_width a ->
  actor_repr_dim (actor a) = repr_dim (encoder a) ->
  actor_repr_dim (actor b) = repr_dim (encoder b).
Proof.
  unfold encoding_width. intros H Ha. injection H as -> ->. exact Ha.
Qed.






(** [update] never writes the configuration or the step counter. *)
Lemma update_keeps_configuration (train_data : TensorDict) (env_step : Z) :
  keeps (fun w => configuration (self w)) (update train_data env_step).
Proof.
  unfold update.
  repeat first
    [ exact (keeps_compose (fun w => learned (self w)) snd _
               (train_keeps_learned _))
    | exact (keeps_compose (fun w => learned (self w)) snd _
               (encoder_call_keeps_learned _ _))
    | exact (keeps_compose (fun w => learned (self w)) snd _
               (random_overlay_keeps_learned _ _ _))
    | apply update_critic_keeps_configuration
    | apply update_actor_keeps_configuration
    | apply keeps_on_self; intro; reflexivity
    | keeps_step ].
Qed.

End UpdateFrames.

Section UpdateCycle.

Context {I : Imports}.

Open Scope py_scope.

Lemma full_cycle_respects (step : Z) (w1 w2 w' : World) :
  learned (self w1) = learned (self w2) ->
  full_cycle step (self w1) w' -> full_cycle step (self w2) w'.
Proof.
  intros E (obs & aug_obs & next_obs & action & reward & discount & not_done
            & w0 & l & w3 & l' & w4 & H0 & H).
  exists obs, aug_obs, next_obs, action, reward, discount, not_done, w0, l,
    w3, l', w4.
  split; [ congruence | exact H ].
Qed.

(** The three updates at the end of [update], once reached, run to the
    end of the cycle. *)
Lemma updates_run_in_a_row obs action reward discount not_done next_obs step
  aug_obs (logs : dict -> dict -> dict) :
  ensures (fun w w' => full_cycle step (self w) w')
    (l <- update_critic obs action reward discount not_done next_obs step
            aug_obs ;;
     l' <- update_actor (detach obs) step ;;
     update_critic_target ;;;
     ret (logs l l')).
Proof.
  intros w a w' E.
  unfold bind in E.
  destruct (update_critic _ _ _ _ _ _ _ _ w) as [[l | e] w1] eqn:Ec;
    [ | discriminate ].
  destruct (update_actor _ _ w1) as [[l' | e] w2] eqn:Ea; [ | discriminate ].
  exists obs, aug_obs, next_obs, action, reward, discount, not_done, w, l,
    w1, l', w2.
  split; [ reflexivity | ]. split; [ exact Ec | ]. split; [ exact Ea | ].
  simpl in E. injection E as _ <-. reflexivity.
Qed.

(** A call of [update] that returns on a step of the update frequency has
    run the whole cycle. *)
Lemma update_runs_the_cycle (train_data : TensorDict) (env_step : Z)
  (w : World) (logs : dict) (w' : World) :
  update train_data env_step w = (Returned logs, w') ->
  mod_ env_step (update_every_steps (self w)) = Returned 0%Z ->
  full_cycle env_step (self w) w'.
Proof.
  intros E Hmod.
  unfold update in E. unfold bind at 1 2 3 in E. simpl in E.
  rewrite Hmod in E. simpl in E.
  apply (full_cycle_respects env_step
           (snd (train true w)) w w' eq_refl).
  revert E.
  match goal with
  | |- ?c _ = _ -> _ =>
      cut (ensures (fun w w' => full_cycle env_step (self w) w') c)
  end.
  { intros H E. exact (H _ _ _ E). }
  repeat lazymatch goal with
         | |- ensures _ (bind (update_critic _ _ _ _ _ _ _ _) _) =>
             apply updates_run_in_a_row
                 with (logs := fun l l' => Py.update (Py.update [] l) l')
         | |- ensures _ (bind _ _) =>
             apply (ensures_bind (fun w => learned (self w)));
             [ apply full_cycle_respects
             | first [ apply encoder_call_keeps_learned
                     | apply random_overlay_keeps_learned
                     | keeps_step ]
             | intro ]
         end.
Qed.

End UpdateCycle.

Section TargetCritic.

Context {I : Imports}.

Open Scope py_scope.

Lemma learned_inv (a b : PIEGAgent) :
  learned a = learned b ->
  parameters a = parameters b
  /\ optimization_state a = optimization_state b
  /\ configuration a = configuration b.
Proof.
  intro H. repeat split.
  - exact (f_equal (fun x => fst (fst x)) H).
  - exact (f_equal (fun x => snd (fst x)) H).
  - exact (f_equal snd H).
Qed.

Lemma configuration_tau (a b : PIEGAgent) :
  configuration a = configuration b ->
  critic_target_tau a = critic_target_tau b.
Proof.
  intro H.
  exact (f_equal (fun c => let '(_, _, t, _, _, _, _, _, _, _) := c in t) H).
Qed.

Lemma configuration_frequency (a b : PIEGAgent) :
  configuration a = configuration b ->
  update_every_steps a = update_every_steps b.
Proof.
  intro H.
  exact (f_equal (fun c => let '(_, _, _, n, _, _, _, _, _, _) := c in n) H).
Qed.

Lemma parameters_target (a b : PIEGAgent) :
  parameters a = parameters b ->
  critic_params (critic_target a) = critic_params (critic_target b).
Proof. intro H. exact (f_equal snd H). Qed.

Lemma cycle_blends_target (step : Z) (a : PIEGAgent) (w' : World) :
  full_cycle step a w' ->
  critic_params (critic_target (self w'))
  = blend (critic_target_tau a) (critic_params (critic (self w')))
      (critic_params (critic_target a)).
Proof.
  intros (obs & aug_obs & next_obs & action & reward & discount & not_done
          & w0 & l & w1 & l' & w2 & H0 & Ec & Ea & ->).
  pose proof (update_critic_keeps obs action reward discount not_done
                next_obs step aug_obs w0) as Kc.
  pose proof (update_critic_keeps_configuration obs action reward discount
                not_done next_obs step aug_obs w0) as Cc.
  rewrite Ec in Kc, Cc. cbn [snd] in Kc, Cc.
  pose proof (update_actor_keeps (detach obs) step w1) as Ka.
  pose proof (update_actor_keeps_configuration (detach obs) step w1) as Ca.
  rewrite Ea in Ka, Ca. cbn [snd] in Ka, Ca.
  unfold outside_critic_update in Kc. unfold outside_actor_update in Ka.
  injection Kc as _ Kc _. injection Ka as _ _ _ Ka.
  apply configuration_tau in Cc, Ca.
  destruct (learned_inv _ _ H0) as (HP & _ & HC).
  apply configuration_tau in HC. apply parameters_target in HP.
  simpl. unfold blend. rewrite Ca, Cc, HC, Ka, Kc, HP. reflexivity.
Qed.

(** C3. Every call of [update] that returns on a step of the update
    frequency has run the critic update, the actor update and then the
    update of the target critic, after which each parameter of the target
    critic is
    [tau * p + (1 - tau) * t], for [p] the parameter of the critic at the
    same place after the critic and actor updates of that call, [t] its own
    value before the call and [tau] the configured [critic_target_tau];
    [update_critic] and [update_actor], where the gradient steps are taken,
    leave the target critic as it is. *)
Theorem target_critic_tracks_critic :
  (forall train_data env_step w logs w',
      update_every_steps (self w) <> 0%Z ->
      (env_step mod update_every_steps (self w))%Z = 0%Z ->
      update train_data env_step w = (Returned logs, w') ->
      let tau := critic_target_tau (self w) in
      full_cycle env_step (self w) w'
      /\ critic_params (critic_target (self w'))
         = blend tau (critic_params (critic (self w')))
             (critic_params (critic_target (self w)))
      /\ forall i p t,
          nth_error (critic_params (critic (self w'))) i = Some p ->
          nth_error (critic_params (critic_target (self w))) i = Some t ->
          nth_error (critic_params (critic_target (self w'))) i
          = Some (tau * p + (1 - tau) * t))
  /\ (forall obs action reward discount not_done next_obs step aug_obs w,
         critic_params
           (critic_target
              (self (snd (update_critic obs action reward discount not_done
                            next_obs step aug_obs w))))
         = critic_params (critic_target (self w)))
  /\ (forall obs step w,
         critic_params (critic_target (self (snd (update_actor obs step w))))
         = critic_params (critic_target (self w))).
Proof.
  split; [ | split ].
  - intros train_data env_step w logs w' Hne Hmod E tau.
    assert (Hm : mod_ env_step (update_every_steps (self w)) = Returned 0%Z).
    { unfold mod_. apply Z.eqb_neq in Hne. rewrite Hne, Hmod. reflexivity. }
    pose proof (update_runs_the_cycle train_data env_step w logs w' E Hm)
      as Hc.
    pose proof (cycle_blends_target env_step (self w) w' Hc) as H.
    split; [ exact Hc | ]. split; [ exact H | ].
    intros i p t Hp Ht. rewrite H. unfold blend.
    apply (nth_error_map2 (fun p t => tau * p + (1 - tau) * t)); assumption.
  - intros obs action reward discount not_done next_obs step aug_obs w.
    pose proof (update_critic_keeps obs action reward discount not_done
                  next_obs step aug_obs w) as K.
    unfold outside_critic_update in K. injection K as _ K _. exact K.
  - intros obs step w.
    pose proof (update_actor_keeps obs step w) as K.
    unfold outside_actor_update in K. injection K as _ _ _ K. exact K.
Qed.

End TargetCritic.

Section Gate.

Context {I : Imports}.

Open Scope py_scope.

(** Off the update frequency, [update] does [self.train()] and returns. *)
Lemma update_off_frequency (train_data : TensorDict) (env_step : Z)
  (w : World) :
  update_every_steps (self w) <> 0%Z ->
  (env_step mod update_every_steps (self w))%Z <> 0%Z ->
  update train_data env_step w = (Returned [], snd (train true w)).
Proof.
  intros Hne Hmod.
  unfold update. unfold bind at 1 2 3. simpl. unfold mod_.
  apply Z.eqb_neq in Hne. rewrite Hne.
  apply Z.eqb_neq in Hmod. simpl. rewrite Hmod. reflexivity.
Qed.


(** C4. For every batch and every step count that the configured (nonzero)
    update frequency does not divide, [update] returns the empty log
    dictionary, and no parameter of the encoder, the actor, the critic or
    the target critic has changed; nor has a gradient, an optimizer state
    or the generator. *)
Theorem update_skips_off_frequency (train_data : TensorDict) (env_step : Z)
  (w : World) :
  update_every_steps (self w) <> 0%Z ->
  (env_step mod update_every_steps (self w))%Z <> 0%Z ->
  exists w',
    update train_data env_step w = (Returned [], w')
    /\ parameters (self w') = parameters (self w)
    /\ optimization_state (self w') = optimization_state (self w)
    /\ generator w' = generator w.
Proof.
  intros Hne Hmod. exists (snd (train true w)). split.
  - apply update_off_frequency; assumption.
  - destruct (learned_inv _ _ (train_keeps_learned true w)) as (HP & HO & _).
    split; [ exact HP | ]. split; [ exact HO | reflexivity ].
Qed.



End Gate.

Section Rollout.

Context {I : Imports}.

Open Scope py_scope.

(** C10. For every observation, [get_action] leaves every model parameter
    as it was.  When the encoder accepts the observation, and the actor
    the encoding, it returns: under the [RANDOM] strategy an unclipped
    sample of the actor's distribution at the standard deviation scheduled
    for the current [env_step], with [env_step] incremented by exactly one;
    under any other strategy the mean of that distribution, with
    [env_step] unchanged.  When the encoder rejects the observation, or
    the actor the encoding, the call raises and [env_step] is unchanged.
    The actor that [__init__] builds accepts what the encoder returns,
    and stays so through [update] and [get_action].
    [update] never writes [env_step], so the schedule of the rollout
    advances in stochastic calls of [get_action] only. *)
Theorem get_action_counts_random_steps :
  (forall observation w,
      let r := get_action observation w in
      let a := self w in
      parameters (self (snd r)) = parameters a
      /\ match ResEncoder_forward false observation (encoder a) with
         | (Returned obs, _) =>
             (actor_repr_dim (actor a) = repr_dim (encoder a) ->
              Actor_call (actor a) (value obs)
                (schedule (stddev_schedule a) (env_step a))
              = Returned
                  (Actor_forward (actor a) (rows (value obs))
                     (schedule (stddev_schedule a) (env_step a))))
             /\ match
                  Actor_call (actor a) (value obs)
                    (schedule (stddev_schedule a) (env_step a))
                with
                | Returned dist =>
                    dist = Actor_forward (actor a) (rows (value obs))
                             (schedule (stddev_schedule a) (env_step a))
                    /\ if SamplingStrategy_eqb (sampling_strategy a) RANDOM
                       then (exists noise,
                                fst r = Returned (rsample dist None noise))
                            /\ env_step (self (snd r)) = (env_step a + 1)%Z
                       else fst r = Returned (TruncatedNormal_mean dist)
                            /\ env_step (self (snd r)) = env_step a
                | Raised e =>
                    fst r = Raised e /\ env_step (self (snd r)) = env_step a
                end
         | (Raised e, _) =>
             fst r = Raised e /\ env_step (self (snd r)) = env_step a
         end)
  /\ (forall obs_shape action_dim dev gamma rate feature_dim hidden_dim tau
             every schedule_string clip path g a g',
         PIEGAgent_init obs_shape action_dim dev gamma rate feature_dim
           hidden_dim tau every schedule_string clip path g
         = (Returned a, g') ->
         actor_repr_dim (actor a) = repr_dim (encoder a))
  /\ (forall train_data step observation w,
         actor_repr_dim (actor (self w)) = repr_dim (encoder (self w)) ->
         (let a' := self (snd (update train_data step w)) in
          actor_repr_dim (actor a') = repr_dim (encoder a'))
         /\ (let a' := self (snd (get_action observation w)) in
             actor_repr_dim (actor a') = repr_dim (encoder a')))
  /\ (forall train_data step w,
         env_step (self (snd (update train_data step w)))
         = env_step (self w)).
Proof.
  split; [ | split; [ | split ] ].
  - intros observation w. cbv zeta.
    unfold get_action, bind, on_encoder, get.
    pose proof (ResEncoder_forward_keeps false observation
                  (encoder (self w))) as K.
    pose proof (ResEncoder_forward_width false observation
                  (encoder (self w))) as Hw.
    destruct (ResEncoder_forward false observation (encoder (self w)))
      as [[obs | e] enc'] eqn:E; simpl in K; injection K as K1 K2 K3 K4;
      simpl.
    + destruct (Hw obs enc' eq_refl) as [Hw1 _]. clear Hw.
      unfold lift, Actor_call, Actor_call_with, Actor_forward.
      destruct (Nat.eqb (width (value obs)) (actor_repr_dim (actor (self w))))
        eqn:Ew.
      * destruct (SamplingStrategy_eqb (sampling_strategy (self w)) RANDOM).
        -- unfold on_generator. simpl.
           match goal with
           | |- context [TruncatedNormal_sample ?d ?c ?g] =>
               destruct (TruncatedNormal_sample_returns d c g)
                 as (noise & g' & -> & _)
           end.
           simpl. unfold parameters. simpl. rewrite K1, K2.
           split; [ reflexivity | ]. split; [ reflexivity | ].
           split; [ reflexivity | ]. split; [ | reflexivity ].
           exists noise. reflexivity.
        -- simpl. unfold parameters. simpl. rewrite K1, K2. auto.
      * simpl. unfold parameters. simpl. rewrite K1, K2.
        split; [ reflexivity | ]. split; [ | auto ].
        intro Hr. apply Nat.eqb_neq in Ew. congruence.
    + unfold parameters. simpl. rewrite K1, K2. auto.
  - intros obs_shape action_dim dev gamma rate feature_dim hidden_dim tau
      every schedule_string clip path g a g'.
    unfold PIEGAgent_init, bind. intro E.
    destruct (ResEncoder_init obs_shape dev g) as [[enc | e] g1];
      [ | discriminate ].
    unfold Actor_init, bind in E.
    destruct (actor_init _ _ _ _ g1) as [[pa | e] g2]; [ | discriminate ].
    unfold ret at 1 in E. unfold Critic_init, bind in E.
    destruct (critic_init _ _ _ _ g2) as [[pc | e] g3]; [ | discriminate ].
    unfold ret at 1 in E.
    destruct (critic_init _ _ _ _ g3) as [[pt | e] g4]; [ | discriminate ].
    unfold ret in E. injection E as <- _. reflexivity.
  - intros train_data step observation w Ha. cbv zeta. split.
    + exact (encoding_width_inv _ _
               (update_keeps_encoding_width train_data step w) Ha).
    + exact (encoding_width_inv _ _
               (get_action_keeps_encoding_width observation w) Ha).
  - intros train_data step w.
    pose proof (update_keeps_configuration train_data step w) as K.
    exact (f_equal
             (fun c => let '(_, _, _, _, _, _, _, n, _, _) := c in n) K).
Qed.

End Rollout.

Section Target.

Context {I : Imports}.

Open Scope py_scope.

Lemma Qsum_nonneg (l : list Q) : Forall (fun x => 0 <= x) l -> 0 <= Qsum l.
Proof.
  induction 1 as [| x l Hx _ IH]; simpl.
  - apply Qle_refl.
  - replace 0 with (0 + 0) by reflexivity. now apply Qplus_le_compat.
Qed.

Lemma mean_not_negative (l : list Q) :
  Forall (fun x => 0 <= x) l -> not_negative (mean l).
Proof.
  intro H. destruct l as [| x l]; [ exact Logic.I | ].
  unfold mean, not_negative, Qdiv.
  apply Qmult_le_0_compat; [ now apply Qsum_nonneg | ].
  apply Qinv_le_0_compat. unfold Qle. simpl. lia.
Qed.


Lemma Forall_map2 {A B C} (P : C -> Prop) (f : A -> B -> C) (l : list A)
  (m : list B) :
  (forall a b, P (f a b)) -> Forall P (map2 f l m).
Proof.
  intro Hf. revert m. induction l as [| a l IH]; intros [| b m]; simpl;
    constructor; auto.
Qed.

Lemma Forall_map_all {A B} (P : B -> Prop) (g : A -> B) (l : list A) :
  (forall a, P (g a)) -> Forall P (map g l).
Proof. intro H. induction l; simpl; constructor; auto. Qed.



Lemma broadcast2_Forall (P : Q -> Prop) (f : Q -> Q -> Q) (l m d : list Q) :
  (forall a b, P (f a b)) -> broadcast2 f l m = Returned d -> Forall P d.
Proof.
  intro Hf. unfold broadcast2.
  destruct (Nat.eqb (length l) (length m)).
  - intro E. injection E as <-. now apply Forall_map2.
  - destruct l as [| x [| x' l]]; destruct m as [| y [| y' m]]; intro E;
      try discriminate; injection E as <-;
      repeat (constructor; [ apply Hf | ]);
      first [ constructor | apply Forall_map_all; intro; apply Hf ].
Qed.

Lemma mse_loss_not_negative (x y : list Q) (l : pyfloat) :
  mse_loss x y = Returned l -> not_negative l.
Proof.
  unfold mse_loss, and_then.
  destruct (broadcast2 _ x y) as [d | e] eqn:E; [ | discriminate ].
  intro H. injection H as <-. apply mean_not_negative.
  eapply broadcast2_Forall; [ | exact E ].
  intros a b. simpl. generalize (a - b). intro c.
  destruct (Qlt_le_dec c 0); nra.
Qed.


(** The loss on a tensor without elements is NaN. *)
Lemma mse_loss_empty (y : list Q) :
  (length y <= 1)%nat -> mse_loss [] y = Returned NaN.
Proof.
  intro H. destruct y as [| b [| b' y]]; simpl in H; try lia; reflexivity.
Qed.

Lemma fadd_not_negative (x y : pyfloat) :
  not_negative x -> not_negative y -> not_negative (fadd x y).
Proof.
  destruct x as [a |], y as [b |]; simpl; auto.
  intros Ha Hb. replace 0 with (0 + 0) by reflexivity.
  now apply Qplus_le_compat.
Qed.

Lemma fmul_not_negative (c : Q) (x : pyfloat) :
  0 <= c -> not_negative x -> not_negative (fmul c x).
Proof.
  destruct x as [a |]; simpl; auto. intros. now apply Qmult_le_0_compat.
Qed.

Lemma critic_loss_not_negative (self : Critic) (obs aug_obs action : Matrix)
  (target_Q theta : list Q) (loss : pyfloat) :
  critic_loss_of self obs aug_obs action target_Q theta = Returned loss ->
  not_negative loss.
Proof.
  unfold critic_loss_of, and_then.
  destruct (Critic_call_with self theta obs action) as [Q | e];
    [ | discriminate ].
  destruct (mse_loss (fst Q) target_Q) as [l1 | e] eqn:E1; [ | discriminate ].
  destruct (mse_loss (snd Q) target_Q) as [l2 | e] eqn:E2; [ | discriminate ].
  destruct (Critic_call_with self theta aug_obs action) as [aug_Q | e];
    [ | discriminate ].
  destruct (mse_loss (fst aug_Q) target_Q) as [l3 | e] eqn:E3;
    [ | discriminate ].
  destruct (mse_loss (snd aug_Q) target_Q) as [l4 | e] eqn:E4;
    [ | discriminate ].
  intro H. injection H as <-.
  apply mse_loss_not_negative in E1, E2, E3, E4.
  apply fmul_not_negative; [ discriminate | ].
  repeat apply fadd_not_negative; assumption.
Qed.





End Target.

Section CriticTarget.

Context {I : Imports}.

Open Scope py_scope.





End CriticTarget.

Section ClippedSamples.

Context {I : Imports}.

Open Scope py_scope.

Lemma clamp_bounds (x lo hi : Q) : lo <= hi -> lo <= clamp x lo hi <= hi.
Proof.
  intro H. unfold clamp. split.
  - apply Q.min_glb; [ apply Q.le_max_r | exact H ].
  - apply Q.le_min_r.
Qed.

(** Clamping a point of [a, b] to [lo, hi] keeps it in [a, b] when the
    two intervals meet. *)
Lemma clamp_stays (x a b lo hi : Q) :
  a <= x <= b -> a <= hi -> lo <= b -> a <= clamp x lo hi <= b.
Proof.
  intros [Hax Hxb] Ha Hb. unfold clamp. split.
  - apply Q.min_glb; [ | exact Ha ].
    apply Qle_trans with x; [ exact Hax | apply Q.le_max_l ].
  - apply Qle_trans with (Qmax x lo); [ apply Q.le_min_l | ].
    apply Q.max_lub; assumption.
Qed.

Lemma rsample_row_within (low high clip : Q) (loc scale noise : list Q) :
  0 <= clip -> low <= high ->
  Forall (fun m => m - clip <= high /\ low <= m + clip) loc ->
  length scale = length loc -> length noise = length loc ->
  Forall2 (within clip low high) loc
    (rsample_row low high (Some clip) loc scale noise).
Proof.
  intros Hc Hlh Hloc. revert scale noise.
  induction Hloc as [| m loc [Hm1 Hm2] _ IH];
    intros [| s scale] [| n noise] Hs Hn; simpl in *; try discriminate.
  - constructor.
  - constructor.
    + assert (Hb : - clip <= clamp (n * s) (- clip) clip <= clip)
        by (apply clamp_bounds; lra).
      unfold within. split.
      * apply clamp_stays; lra.
      * apply clamp_bounds. exact Hlh.
    + apply (IH scale noise); congruence.
Qed.

Lemma Actor_mu_range (theta : list Q) (obs : list (list Q)) :
  Forall (Forall (fun m => -1 <= m <= 1)) (Actor_mu theta obs).
Proof.
  unfold Actor_mu. apply Forall_forall. intros row Hrow.
  apply in_map_iff in Hrow. destruct Hrow as (h & <- & _).
  apply Forall_forall. intros m Hm.
  apply in_map_iff in Hm. destruct Hm as (x & <- & _).
  apply tanh_range.
Qed.

Lemma rsample_within (theta : list Q) (obs : list (list Q)) (std clip : Q)
  (noise : list (list Q)) :
  0 <= clip -> action_low <= action_high ->
  action_low <= -1 + clip -> 1 - clip <= action_high ->
  let dist := Actor_forward_with theta obs std in
  Forall2 (fun r n => length n = length r) (loc dist) noise ->
  Forall2 (Forall2 (within clip action_low action_high))
    (TruncatedNormal_mean dist) (rsample dist (Some clip) noise).
Proof.
  intros Hc Hlh Hlo Hhi dist. subst dist.
  unfold TruncatedNormal_mean, rsample, Actor_forward_with. simpl.
  pose proof (Actor_mu_range theta obs) as Hmu.
  generalize dependent (Actor_mu theta obs). intros mu Hmu Hshape.
  induction Hshape as [| r n mu noise Hn _ IH]; simpl.
  - constructor.
  - inversion Hmu as [| ? ? Hr Hmu']; subst.
    constructor.
    + simpl. apply rsample_row_within; auto.
      * eapply Forall_impl; [ | exact Hr ]. simpl. intros m Hm. lra.
      * apply length_map.
    + apply IH. exact Hmu'.
Qed.

(** C5. For every mean the actor produces and every noise, the action
    sampled from the actor's truncated normal with a clip lies, component
    by component, within [clip] of the mean and within the bounds of the
    distribution, the clip being non-negative and the bounds leaving room
    for the means, which [tanh] puts in [-1, 1]; and sampling with a clip
    returns such an action from every state of the generator. *)
Theorem clipped_sample_within_bounds (self : Actor) (obs : list (list Q))
  (std clip : Q) :
  0 <= clip -> action_low <= action_high ->
  action_low <= -1 + clip -> 1 - clip <= action_high ->
  let dist := Actor_forward self obs std in
  (forall noise,
      Forall2 (fun r n => length n = length r) (loc dist) noise ->
      Forall2 (Forall2 (within clip action_low action_high))
        (TruncatedNormal_mean dist) (rsample dist (Some clip) noise))
  /\ (forall g,
         exists action g',
           TruncatedNormal_sample dist (Some clip) g = (Returned action, g')
           /\ Forall2 (Forall2 (within clip action_low action_high))
                (TruncatedNormal_mean dist) action).
Proof.
  intros Hc Hlh Hlo Hhi dist. split.
  - intros noise Hshape. apply rsample_within; assumption.
  - intro g.
    destruct (TruncatedNormal_sample_returns dist (Some clip) g)
      as (noise & g' & E & Hshape).
    exists (rsample dist (Some clip) noise), g'.
    split; [ exact E | apply rsample_within; assumption ].
Qed.

End ClippedSamples.

Section Augmentation.

Context {I : Imports}.

Open Scope py_scope.

Lemma length_flat_map_uniform {A B} (f : A -> list B) (m : nat) (l : list A) :
  Forall (fun x => length (f x) = m) l ->
  length (flat_map f l) = (length l * m)%nat.
Proof.
  induction 1 as [| x l Hx _ IH]; simpl.
  - reflexivity.
  - rewrite length_app, Hx, IH. reflexivity.
Qed.

Lemma chunks_two (n : nat) (ds : list Z) :
  length ds = (2 * n)%nat -> chunks 2 ds = chunks_fuel n 2 ds.
Proof.
  intro H. unfold chunks. rewrite H.
  replace (2 * n)%nat with (n * 2)%nat by lia.
  rewrite Nat.div_mul by discriminate. reflexivity.
Qed.

Lemma nth_error_flat_map_uniform {A B} (f : A -> list B) (m : nat)
  (l : list A) (i r : nat) (x : A) :
  Forall (fun x => length (f x) = m) l ->
  nth_error l i = Some x -> (r < m)%nat ->
  nth_error (flat_map f l) (i * m + r) = nth_error (f x) r.
Proof.
  intros Hl. revert i. induction Hl as [| y l Hy _ IH]; intros i Hi Hr.
  - destruct i; discriminate.
  - destruct i as [| i]; simpl in *.
    + injection Hi as ->. rewrite nth_error_app1 by lia. reflexivity.
    + rewrite nth_error_app2 by lia.
      replace (m + i * m + r - length (f y))%nat with (i * m + r)%nat by lia.
      apply IH; assumption.
Qed.

Lemma length_linspace (a b : Q) (steps : nat) :
  length (linspace a b steps) = steps.
Proof.
  unfold linspace. destruct steps as [| [| k]]; try reflexivity.
  rewrite length_map, length_seq. reflexivity.
Qed.

Lemma linspace_nth (a b : Q) (steps i : nat) :
  (1 < steps)%nat -> (i < steps)%nat ->
  nth_error (linspace a b steps) i
  = Some (a + inject_Z (Z.of_nat i)
              * ((b - a) / inject_Z (Z.of_nat (steps - 1)))).
Proof.
  intros Hs Hi. unfold linspace.
  destruct steps as [| [| k]]; try lia.
  rewrite nth_error_map, nth_error_seq.
  destruct (Nat.ltb_spec i (S (S k))); [ reflexivity | lia ].
Qed.

(** The [j]-th value of [arange], moved by [s] steps of [2 / N], is the
    centre of pixel [j + s] of an image [N] pixels across. *)
Lemma arange_is_on_pixels (N j : nat) (s : Z) (v : Q) :
  (0 < N)%nat -> (j < N)%nat ->
  nth_error
    (linspace (-1 + 1 / inject_Z (Z.of_nat N))
       (1 - 1 / inject_Z (Z.of_nat N)) N) j = Some v ->
  unnormalize N (v + inject_Z s * (2 / inject_Z (Z.of_nat N)))
  == inject_Z (Z.of_nat j + s).
Proof.
  intros HN Hj Hv.
  assert (HX : ~ inject_Z (Z.of_nat N) == 0).
  { unfold Qeq. simpl. lia. }
  destruct (Nat.eq_dec N 1) as [-> | HN1].
  - assert (j = 0)%nat by lia. subst j.
    simpl in Hv. injection Hv as <-.
    unfold unnormalize. rewrite inject_Z_plus. simpl. field.
  - rewrite linspace_nth in Hv by lia. injection Hv as <-.
    assert (HX1 : inject_Z (Z.of_nat (N - 1)) == inject_Z (Z.of_nat N) - 1).
    { rewrite Nat2Z.inj_sub by lia. unfold Zminus.
      rewrite inject_Z_plus, inject_Z_opp. reflexivity. }
    assert (HX2 : ~ inject_Z (Z.of_nat N) - 1 == 0).
    { unfold Qeq. simpl. lia. }
    unfold unnormalize. rewrite HX1, inject_Z_plus.
    generalize dependent (inject_Z (Z.of_nat N)). intros X HX _ HX2.
    field. split; assumption.
Qed.

Lemma chunks_fuel_two_nth (n : nat) (ds : list Z) (b : nat) (a c : Z) :
  (b < n)%nat ->
  nth_error ds (2 * b) = Some a -> nth_error ds (2 * b + 1) = Some c ->
  nth_error (chunks_fuel n 2 ds) b = Some [a; c].
Proof.
  revert ds b. induction n as [| n IH]; intros ds b Hb Ha Hc; [ lia | ].
  destruct b as [| b].
  - destruct ds as [| x [| y ds]]; simpl in *; try discriminate.
    congruence.
  - destruct ds as [| x [| y ds]]; simpl in Ha, Hc; try discriminate.
    + destruct (b + S (b + 0))%nat; discriminate.
    + simpl. apply IH; [ lia | | ].
      * replace (2 * b)%nat with (b + S (b + 0) - 1)%nat by lia.
        replace (b + S (b + 0))%nat with (S (b + S (b + 0) - 1))%nat in Ha
          by lia.
        exact Ha.
      * replace (2 * b + 1)%nat with (b + S (b + 0) + 1 - 1)%nat by lia.
        replace (b + S (b + 0) + 1)%nat
          with (S (b + S (b + 0) + 1 - 1))%nat in Hc by lia.
        exact Hc.
Qed.

Lemma grid_of_at (n h : nat) (arange : list Q) (shift : list (Q * Q))
  (b i j : nat) (xj yi : Q) (s : Q * Q) :
  length arange = h ->
  nth_error shift b = Some s ->
  nth_error arange i = Some yi -> nth_error arange j = Some xj ->
  grid_at (grid_of n h (base_grid_of arange) shift) h b i j
  = Some (xj + fst s, yi + snd s).
Proof.
  intros Hl Hs Hi Hj.
  assert (Hih : (i < h)%nat).
  { rewrite <- Hl. apply nth_error_Some. congruence. }
  assert (Hjh : (j < h)%nat).
  { rewrite <- Hl. apply nth_error_Some. congruence. }
  assert (Hrow : forall y,
             length (flat_map (fun g : Q * Q => [fst g + fst s; snd g + snd s])
                       (map (fun x => (x, y)) arange)) = (h * 2)%nat).
  { intro y.
    rewrite (length_flat_map_uniform _ 2).
    - rewrite length_map, Hl. reflexivity.
    - apply Forall_forall. intros g _. reflexivity. }
  assert (Hblock : forall s' : Q * Q,
             length
               (flat_map
                  (fun row =>
                     flat_map
                       (fun g : Q * Q => [fst g + fst s'; snd g + snd s']) row)
                  (base_grid_of arange)) = (h * (h * 2))%nat).
  { intro s'. unfold base_grid_of.
    rewrite (length_flat_map_uniform _ (h * 2)).
    - rewrite length_map, Hl. reflexivity.
    - apply Forall_forall. intros row Hrow'.
      apply in_map_iff in Hrow'. destruct Hrow' as (y & <- & _).
      rewrite (length_flat_map_uniform _ 2).
      + rewrite length_map, Hl. reflexivity.
      + apply Forall_forall. intros g _. reflexivity. }
  assert (Hat : forall r e,
             (r < 2)%nat ->
             nth_error [xj + fst s; yi + snd s] r = Some e ->
             nth_error (data (grid_of n h (base_grid_of arange) shift))
               (((b * h + i) * h + j) * 2 + r) = Some e).
  { intros r e Hr He. unfold grid_of. cbn [data].
    replace (((b * h + i) * h + j) * 2 + r)%nat
      with (b * (h * (h * 2)) + (i * (h * 2) + (j * 2 + r)))%nat by lia.
    rewrite (nth_error_flat_map_uniform _ (h * (h * 2)) _ _ _ s);
      [ | apply Forall_forall; intros s' _; apply Hblock
        | exact Hs | nia ].
    unfold base_grid_of.
    rewrite (nth_error_flat_map_uniform _ (h * 2) _ _ _
               (map (fun x => (x, yi)) arange));
      [ | apply Forall_forall; intros row Hrow';
          apply in_map_iff in Hrow'; destruct Hrow' as (y & <- & _);
          apply Hrow
        | rewrite nth_error_map, Hi; reflexivity | lia ].
    rewrite (nth_error_flat_map_uniform _ 2 _ _ _ (xj, yi));
      [ exact He
      | apply Forall_forall; intros g _; reflexivity
      | rewrite nth_error_map, Hj; reflexivity | exact Hr ]. }
  unfold grid_at.
  rewrite <- (Nat.add_0_r (((b * h + i) * h + j) * 2)) at 1.
  rewrite (Hat 0%nat (xj + fst s)) by (lia || reflexivity).
  replace (S (((b * h + i) * h + j) * 2))
    with (((b * h + i) * h + j) * 2 + 1)%nat by lia.
  rewrite (Hat 1%nat (yi + snd s)) by (lia || reflexivity).
  reflexivity.
Qed.


Lemma draws_randint_in_range (low high : Z) (k : nat) (g : Generator)
  (ds : list Z) (g' : Generator) :
  (forall lo hi s, (lo < hi)%Z ->
     (lo <= fst (randint_next lo hi s) < hi)%Z) ->
  (low < high)%Z ->
  draws (randint low high) k g = (Returned ds, g') ->
  Forall (fun v => (low <= v < high)%Z) ds.
Proof.
  intros Hr Hlh. revert g ds g'.
  induction k as [| k IH]; intros g ds g' E; simpl in E.
  - injection E as <- _. constructor.
  - unfold bind, randint at 1 in E.
    pose proof (Hr low high g Hlh) as Hv.
    destruct (randint_next low high g) as [v g1]. simpl in Hv.
    destruct (draws (randint low high) k g1) as [[l | e] g2] eqn:El;
      [ | discriminate ].
    injection E as <- _. constructor; [ exact Hv | ].
    eapply IH. exact El.
Qed.

(** What [RandomShiftsAug.forward] does with the generator and the batch:
    it draws [2 * n] numbers, puts them in the grid and samples the padded
    batch on it. *)
Lemma RandomShiftsAug_forward_grid (self : RandomShiftsAug) (x xp : Tensor)
  (g : Generator) (n c h : nat) :
  size x = [n; c; h; h] ->
  (h + 2 * pad self <> 0)%nat ->
  F_pad_replicate x (pad self) = Returned xp ->
  exists ds g',
    draws (randint 0 (2 * Z.of_nat (pad self) + 1)) (2 * n) g
    = (Returned ds, g')
    /\ length ds = (2 * n)%nat
    /\ RandomShiftsAug_forward self x g
       = (F_grid_sample xp (grid_for self n h ds), g').
Proof.
  intros Hs Hh Hpad.
  destruct (draws_randint_returns 0 (2 * Z.of_nat (pad self) + 1) (2 * n) g)
    as (ds & g' & E & Hlen).
  exists ds, g'. split; [ exact E | ]. split; [ exact Hlen | ].
  unfold RandomShiftsAug_forward. rewrite Hs.
  unfold bind at 1. unfold assert. rewrite Nat.eqb_refl.
  unfold ret at 1. unfold bind at 1. unfold lift at 1. rewrite Hpad.
  unfold bind at 1.
  apply Nat.eqb_neq in Hh. rewrite Hh.
  unfold ret at 1. unfold bind at 1.
  unfold random_shift, bind. rewrite E. reflexivity.
Qed.

(** The entries of the grid, in exact arithmetic: for image [b], with
    [(sx, sy)] the two numbers drawn for it, the entry for row [i] and
    column [j] is [sx] and [sy] steps of [2 / (h + 2 * pad)] away from the
    entry of the unshifted grid. *)
Lemma grid_for_at (self : RandomShiftsAug) (n h : nat) (ds : list Z)
  (b i j : nat) :
  (h + 2 * pad self <> 0)%nat -> length ds = (2 * n)%nat ->
  (b < n)%nat -> (i < h)%nat -> (j < h)%nat ->
  exists gx gy sx sy,
    grid_at (grid_for self n h ds) h b i j = Some (gx, gy)
    /\ nth_error ds (2 * b) = Some sx
    /\ nth_error ds (2 * b + 1) = Some sy
    /\ unnormalize (h + 2 * pad self) gx == inject_Z (Z.of_nat j + sx)
    /\ unnormalize (h + 2 * pad self) gy == inject_Z (Z.of_nat i + sy).
Proof.
  intros Hh Hlen Hb Hi Hj.
  unfold grid_for.
  set (N := (h + 2 * pad self)%nat) in *.
  set (arange :=
         firstn h (linspace (-1 + 1 / padded self h) (1 - 1 / padded self h)
                     N)).
  set (shift :=
         map (fun p =>
                match p with
                | [sx; sy] => (inject_Z sx * (2 / padded self h),
                               inject_Z sy * (2 / padded self h))
                | _ => (0, 0)
                end) (chunks 2 ds)).
  assert (Hla : length arange = h).
  { unfold arange. rewrite length_firstn, length_linspace. lia. }
  destruct (nth_error ds (2 * b)) as [sx |] eqn:Esx;
    [ | apply nth_error_None in Esx; lia ].
  destruct (nth_error ds (2 * b + 1)) as [sy |] eqn:Esy;
    [ | apply nth_error_None in Esy; lia ].
  destruct (nth_error arange i) as [yi |] eqn:Ei;
    [ | apply nth_error_None in Ei; lia ].
  destruct (nth_error arange j) as [xj |] eqn:Ej;
    [ | apply nth_error_None in Ej; lia ].
  assert (Hshift : nth_error shift b
                   = Some (inject_Z sx * (2 / padded self h),
                           inject_Z sy * (2 / padded self h))).
  { unfold shift. rewrite nth_error_map, (chunks_two n ds Hlen).
    rewrite (chunks_fuel_two_nth n ds b sx sy Hb Esx Esy). reflexivity. }
  exists (xj + inject_Z sx * (2 / padded self h)),
         (yi + inject_Z sy * (2 / padded self h)), sx, sy.
  split.
  { rewrite (grid_of_at n h arange shift b i j xj yi _ Hla Hshift Ei Ej).
    reflexivity. }
  split; [ reflexivity | ]. split; [ reflexivity | ].
  unfold arange in Ei, Ej.
  rewrite nth_error_firstn in Ei, Ej.
  destruct (Nat.ltb_spec i h); [ | lia ].
  destruct (Nat.ltb_spec j h); [ | lia ].
  unfold padded in *. fold N in Ei, Ej |- *.
  split; apply arange_is_on_pixels; (lia || assumption).
Qed.


Lemma unnormalize_margin (N : nat) (a : Q) (k : Z) :
  (0 <= k < Z.of_nat N)%Z ->
  unnormalize N a == inject_Z k ->
  -1 + 1 / inject_Z (Z.of_nat N) <= a
  /\ a <= 1 - 1 / inject_Z (Z.of_nat N).
Proof.
  intros Hk H. unfold unnormalize in H.
  assert (HX : 0 < inject_Z (Z.of_nat N)).
  { unfold Qlt. simpl. lia. }
  assert (Hk0 : 0 <= inject_Z k).
  { unfold Qle. simpl. lia. }
  assert (Hk1 : inject_Z k + 1 <= inject_Z (Z.of_nat N)).
  { unfold Qle, Qplus, inject_Z. cbn [Qnum Qden]. lia. }
  generalize dependent (inject_Z (Z.of_nat N)). intros X H HX Hk1.
  generalize dependent (inject_Z k). intros K H Hk0 Hk1.
  assert (H1 : (a + 1) * X == 2 * K + 1).
  { unfold Qdiv in *. change (/ 2) with (1 # 2) in *.
    set (P := (a + 1) * X) in *. lra. }
  assert (L : 1 / X <= a + 1).
  { apply Qle_shift_div_r; [ exact HX | ]. lra. }
  assert (U : 1 / X <= 1 - a).
  { apply Qle_shift_div_r; [ exact HX | ].
    assert (E : (1 - a) * X == 2 * X - (a + 1) * X) by ring.
    rewrite E, H1. lra. }
  split; lra.
Qed.


(** The grid that [RandomShiftsAug.forward] hands to [F.grid_sample] stays
    inside the padded image: with draws in [0, 2 * pad], as
    [torch.randint] gives them, every coordinate of every entry lies
    between [-1 + eps] and [1 - eps], where [eps = 1 / (h + 2 * pad)] is
    half a pixel: strictly inside the borders -1 and 1 of the image. *)
Theorem random_shift_grid_stays_inside (self : RandomShiftsAug)
  (x xp : Tensor) (g : Generator) (n c h : nat) :
  (forall lo hi s, (lo < hi)%Z ->
     (lo <= fst (randint_next lo hi s) < hi)%Z) ->
  size x = [n; c; h; h] ->
  (h + 2 * pad self <> 0)%nat ->
  F_pad_replicate x (pad self) = Returned xp ->
  exists ds g' grid,
    draws (randint 0 (2 * Z.of_nat (pad self) + 1)) (2 * n) g
    = (Returned ds, g')
    /\ Forall (fun d => (0 <= d <= 2 * Z.of_nat (pad self))%Z) ds
    /\ RandomShiftsAug_forward self x g = (F_grid_sample xp grid, g')
    /\ size grid = [n; h; h; 2%nat]
    /\ 0 < 1 / padded self h
    /\ forall b i j,
        (b < n)%nat -> (i < h)%nat -> (j < h)%nat ->
        exists gx gy,
          grid_at grid h b i j = Some (gx, gy)
          /\ -1 + 1 / padded self h <= gx <= 1 - 1 / padded self h
          /\ -1 + 1 / padded self h <= gy <= 1 - 1 / padded self h.
Proof.
  intros Hrange Hs Hh Hpad.
  destruct (RandomShiftsAug_forward_grid self x xp g n c h Hs Hh Hpad)
    as (ds & g' & E & Hlen & F).
  assert (Hlh : (0 < 2 * Z.of_nat (pad self) + 1)%Z) by lia.
  pose proof (draws_randint_in_range _ _ _ _ _ _ Hrange Hlh E) as Hin.
  exists ds, g', (grid_for self n h ds).
  split; [ exact E | ]. split.
  { eapply Forall_impl; [ | exact Hin ]. simpl. intros d Hd. lia. }
  split; [ exact F | ]. split; [ reflexivity | ].
  split.
  { apply Qlt_shift_div_l; unfold padded, Qlt; simpl; lia. }
  intros b i j Hb Hi Hj.
  destruct (grid_for_at self n h ds b i j Hh Hlen Hb Hi Hj)
    as (gx & gy & sx & sy & G & X & Y & Ux & Uy).
  exists gx, gy. split; [ exact G | ].
  assert (Hsx : (0 <= sx < 2 * Z.of_nat (pad self) + 1)%Z).
  { eapply (proj1 (Forall_forall _ ds) Hin).
    eapply nth_error_In. exact X. }
  assert (Hsy : (0 <= sy < 2 * Z.of_nat (pad self) + 1)%Z).
  { eapply (proj1 (Forall_forall _ ds) Hin).
    eapply nth_error_In. exact Y. }
  destruct (unnormalize_margin (h + 2 * pad self) gx (Z.of_nat j + sx))
    as [A1 A2]; [ lia | exact Ux | ].
  destruct (unnormalize_margin (h + 2 * pad self) gy (Z.of_nat i + sy))
    as [B1 B2]; [ lia | exact Uy | ].
  unfold padded. repeat split; assumption.
Qed.

End Augmentation.

Section ShapeChecks.

Context {I : Imports}.

Open Scope py_scope.

Lemma RandomShiftsAug_forward_asserts_square (self : RandomShiftsAug)
  (x : Tensor) (g : Generator) (n c h w : nat) :
  size x = [n; c; h; w] -> h <> w ->
  RandomShiftsAug_forward self x g = (Raised AssertionError, g).
Proof.
  intros Hs Hhw. unfold RandomShiftsAug_forward. rewrite Hs.
  apply Nat.eqb_neq in Hhw. unfold bind, assert. rewrite Hhw. reflexivity.
Qed.

Lemma update_on_frequency_unfolds (train_data : TensorDict) (env_step : Z)
  (w : World) :
  update_every_steps (self w) <> 0%Z ->
  (env_step mod update_every_steps (self w))%Z = 0%Z ->
  mod_ env_step (update_every_steps (self w)) = Returned 0%Z.
Proof.
  intros Hne Hmod. unfold mod_. apply Z.eqb_neq in Hne.
  rewrite Hne, Hmod. reflexivity.
Qed.

(** C8, as the code has it.  Shape mismatches are fatal where the code
    checks them: when it is constructed, [Encoder] asserts that the
    declared [obs_shape] has three dimensions, and [ResEncoder] fails with
    whatever [forward_conv] raises on a random batch of the declared shape;
    when it is called, [RandomShiftsAug.forward] asserts that the images
    are square (its constructor only stores the pad) and
    [ResEncoder.forward] raises when the features of the batch do not have
    the length [out_dim] that [fc] was built for.  Nothing catches them:
    [update] raises the assertion failure of the augmentation, no parameter
    modified. *)
Theorem shape_mismatches_are_fatal_where_checked :
  (forall obs_shape g,
      length obs_shape <> 3%nat ->
      Encoder_init obs_shape g = (Raised AssertionError, g))
  /\ (forall obs_shape device g x g1 e s,
         draws randn (numel (32%nat :: obs_shape)) g = (Returned x, g1) ->
         forward_conv (mkTensor (32%nat :: obs_shape) x) true ResEncoder_blank
         = (Raised e, s) ->
         ResEncoder_init obs_shape device g = (Raised e, g1))
  /\ (forall pad x g n c h w,
         size x = [n; c; h; w] -> h <> w ->
         RandomShiftsAug_forward (RandomShiftsAug_init pad) x g
         = (Raised AssertionError, g))
  /\ (forall no_grad obs self conv self' d,
         forward_conv obs true self = (Returned conv, self') ->
         index (size conv) 1 = Returned d ->
         d <> out_dim self' ->
         ResEncoder_forward no_grad obs self = (Raised RuntimeError, self'))
  /\ (forall train_data env_step w n c h wd,
         update_every_steps (self w) <> 0%Z ->
         (env_step mod update_every_steps (self w))%Z = 0%Z ->
         size (pixels_transformed train_data) = [n; c; h; wd] ->
         h <> wd ->
         exists w',
           update train_data env_step w = (Raised AssertionError, w')
           /\ parameters (self w') = parameters (self w)).
Proof.
  split; [ | split; [ | split; [ | split ] ] ].
  - intros obs_shape g Hl. unfold Encoder_init, bind, assert.
    apply Nat.eqb_neq in Hl. rewrite Hl. reflexivity.
  - intros obs_shape device g x g1 e s Hx Hf.
    unfold ResEncoder_init, bind. rewrite Hx, Hf. reflexivity.
  - intros pad x g n c h w. apply RandomShiftsAug_forward_asserts_square.
  - intros no_grad obs self conv self' d Hf Hi Hd.
    unfold ResEncoder_forward, bind, get, lift. rewrite Hf, Hi.
    apply Nat.eqb_neq in Hd. rewrite Hd. reflexivity.
  - intros train_data env_step w n c h wd Hne Hmod Hs Hhw.
    pose proof (update_on_frequency_unfolds train_data env_step w Hne Hmod)
      as Hm.
    unfold update. unfold bind at 1 2 3. simpl. rewrite Hm. simpl.
    unfold bind at 1. unfold on_generator at 1.
    rewrite (RandomShiftsAug_forward_asserts_square _ _ _ n c h wd Hs Hhw).
    eexists. split; reflexivity.
Qed.

End ShapeChecks.

Section Corpus.

Context {I : Imports}.

Open Scope py_scope.

Lemma on_generator_keeps_disk {A} (c : M Generator A) :
  keeps disk (on_generator c).
Proof.
  intro w. unfold on_generator. destruct (c (generator w)). reflexivity.
Qed.

Lemma on_encoder_keeps_disk {A} (c : M ResEncoder A) :
  keeps disk (on_encoder c).
Proof.
  intro w. unfold on_encoder. destruct (c (encoder (self w))). reflexivity.
Qed.

Lemma random_overlay_needs_corpus (x : Tensor) (data_dir device : string)
  (w : World) :
  disk w data_dir = None ->
  random_overlay x data_dir device w = (Raised FileNotFoundError, w).
Proof.
  intro H. unfold random_overlay, bind, get. rewrite H. reflexivity.
Qed.

(** Without the corpus a call of [update] on the update frequency cannot
    return: it raises at [random_overlay] or before, where nothing has been
    learned yet. *)
Lemma update_needs_corpus (train_data : TensorDict) (env_step : Z)
  (w : World) :
  disk w (places365_data_dir_path (self w)) = None ->
  mod_ env_step (update_every_steps (self w)) = Returned 0%Z ->
  exists e w',
    update train_data env_step w = (Raised e, w')
    /\ learned (self w') = learned (self w).
Proof.
  intros Hd Hm.
  unfold update. unfold bind at 1 2 3. simpl. rewrite Hm. simpl.
  set (w0 := mkWorld _ (generator w) (disk w)).
  assert (H0 : disk w0 = disk w /\ learned (self w0) = learned (self w))
    by (split; reflexivity).
  clearbody w0. destruct H0 as [D0 L0].
  unfold bind at 1.
  pose proof (on_generator_keeps_disk
                (RandomShiftsAug_forward (aug (self w))
                   (pixels_transformed train_data)) w0) as K1.
  pose proof (keeps_on_generator learned
                (RandomShiftsAug_forward (aug (self w))
                   (pixels_transformed train_data)) w0) as J1.
  destruct (on_generator _ w0) as [[obs | e] w1]; simpl in K1, J1;
    [ | do 2 eexists; split; [ reflexivity | congruence ] ].
  unfold bind at 1.
  pose proof (on_generator_keeps_disk
                (RandomShiftsAug_forward (aug (self w))
                   (next_pixels_transformed train_data)) w1) as K2.
  pose proof (keeps_on_generator learned
                (RandomShiftsAug_forward (aug (self w))
                   (next_pixels_transformed train_data)) w1) as J2.
  destruct (on_generator _ w1) as [[next_obs | e] w2]; simpl in K2, J2;
    [ | do 2 eexists; split; [ reflexivity | congruence ] ].
  unfold bind at 1.
  pose proof (on_encoder_keeps_disk (ResEncoder_forward false obs) w2) as K3.
  pose proof (encoder_call_keeps_learned false obs w2) as J3.
  destruct (on_encoder _ w2) as [[enc | e] w3]; simpl in K3, J3;
    [ | do 2 eexists; split; [ reflexivity | congruence ] ].
  unfold bind at 1.
  rewrite random_overlay_needs_corpus by congruence.
  do 2 eexists. split; [ reflexivity | congruence ].
Qed.

(** C9, as the code has it.  Constructing the agent only stores the
    augmentation-data path: with another path the construction returns or
    raises alike, from the same draws and with the same parameters.  The
    path is read by [random_overlay], which raises when the corpus is
    missing; so with a missing corpus every call of [update] on the update
    frequency raises, no parameter modified. *)
Theorem corpus_is_read_by_update_only :
  (forall obs_shape action_dim device gamma lr feature_dim hidden_dim tau
          every schedule_string clip path path' g,
      match
        PIEGAgent_init obs_shape action_dim device gamma lr feature_dim
          hidden_dim tau every schedule_string clip path g,
        PIEGAgent_init obs_shape action_dim device gamma lr feature_dim
          hidden_dim tau every schedule_string clip path' g
      with
      | (Returned a, g1), (Returned a', g1') =>
          g1 = g1' /\ parameters a = parameters a'
          /\ places365_data_dir_path a = path
          /\ places365_data_dir_path a' = path'
      | (Raised e, g1), (Raised e', g1') => e = e' /\ g1 = g1'
      | _, _ => False
      end)
  /\ (forall x data_dir device w,
         disk w data_dir = None ->
         random_overlay x data_dir device w = (Raised FileNotFoundError, w))
  /\ (forall train_data env_step w,
         disk w (places365_data_dir_path (self w)) = None ->
         update_every_steps (self w) <> 0%Z ->
         (env_step mod update_every_steps (self w))%Z = 0%Z ->
         exists e w',
           update train_data env_step w = (Raised e, w')
           /\ parameters (self w') = parameters (self w)).
Proof.
  split; [ | split ].
  - intros obs_shape action_dim dev gamma rate feature_dim hidden_dim tau
      every schedule_string clip path path' g.
    unfold PIEGAgent_init, bind.
    destruct (ResEncoder_init obs_shape dev g) as [[enc | e] g1];
      [ | split; reflexivity ].
    destruct (Actor_init _ _ _ _ g1) as [[act | e] g2];
      [ | split; reflexivity ].
    destruct (Critic_init _ _ _ _ g2) as [[cr | e] g3];
      [ | split; reflexivity ].
    destruct (Critic_init _ _ _ _ g3) as [[ct | e] g4];
      [ | split; reflexivity ].
    simpl. repeat split; reflexivity.
  - intros x data_dir device w. apply random_overlay_needs_corpus.
  - intros train_data env_step w Hd Hne Hmod.
    destruct (update_needs_corpus train_data env_step w Hd
                (update_on_frequency_unfolds train_data env_step w Hne Hmod))
      as (e & w' & E & L).
    exists e, w'. split; [ exact E | ].
    destruct (learned_inv _ _ L) as (HP & _).
    exact HP.
Qed.

End Corpus.

(* ------------------------------------------------------------------ *)
(** * The model at work on the small implementation *)

Section Examples.

#[local] Existing Instance Tiny.imports.

Open Scope py_scope.

(** Construction of the small agent: what [PIEGAgent_init] returns, for
    any path. *)
Example new_agent_is_agent (path : string) :
  Tiny.new_agent path = (Returned (Tiny.agent path), 743483562%Z).
Proof. vm_compute. reflexivity. Qed.

(** A 2 x 2 image shifted with pad 1 is a 2 x 2 window of the padded
    image. *)
Example shift_of_a_small_image :
  fst (RandomShiftsAug_forward (RandomShiftsAug_init 1) (Tiny.image 0 2 2) 7%Z)
  = Returned
      (mkTensor [1; 3; 2; 2]%nat [2; 3; 2; 3; 6; 7; 6; 7; 10; 11; 10; 11]).
Proof. vm_compute. reflexivity. Qed.

(** [forward_conv] on stacks of two frames: per stack, the features of the
    current frame and their difference with those of the previous one. *)
Example frame_difference_of_two_frames :
  fst (forward_conv Tiny.two_frames true ResEncoder_blank)
  = Returned (mkTensor [2; 2]%nat [448; 396; 2536; 1260]).
Proof. vm_compute. reflexivity. Qed.

(** A declared shape with four channels fails when the agent is
    constructed, in the [view] of [forward_conv]. *)
Example four_channels_fail_at_construction :
  fst (PIEGAgent_init [4; 2; 2]%nat 1 "cpu" (99 # 100) (1 # 100) 50 1024
         (1 # 100) 2 "linear(1.0,0.1,100000)" (3 # 10) "places365" 42%Z)
  = Raised RuntimeError.
Proof. vm_compute. reflexivity. Qed.

(** The agent built for single frames fails on stacks of two frames when
    it is called, at [fc]. *)
Example two_frames_fail_at_call_time :
  fst (get_action Tiny.two_frames (Tiny.world "places365"))
  = Raised RuntimeError.
Proof. vm_compute. reflexivity. Qed.

(** Two seeds that draw different shifts, and the two outputs. *)
Example two_seeds_two_shifts :
  fst (draws (randint 0 9) 2 (manual_seed 28)) = Returned [3; 1]%Z
  /\ fst (draws (randint 0 9) 2 (manual_seed 29)) = Returned [3; 5]%Z
  /\ fst (RandomShiftsAug_forward (RandomShiftsAug_init 4)
            (Tiny.image 0 2 2) (manual_seed 28))
     <> fst (RandomShiftsAug_forward (RandomShiftsAug_init 4)
               (Tiny.image 0 2 2) (manual_seed 29)).
Proof.
  split; [ reflexivity | ]. split; [ reflexivity | ].
  intro H. vm_compute in H. discriminate H.
Qed.

(** Two seeds that draw the same shifts: the outputs are the same. *)
Example two_seeds_one_shift :
  fst (draws (randint 0 9) 2 (manual_seed 8)) = Returned [7; 8]%Z
  /\ fst (draws (randint 0 9) 2 (manual_seed 10)) = Returned [7; 8]%Z
  /\ fst (RandomShiftsAug_forward (RandomShiftsAug_init 4)
            (Tiny.image 0 2 2) (manual_seed 8))
     = fst (RandomShiftsAug_forward (RandomShiftsAug_init 4)
              (Tiny.image 0 2 2) (manual_seed 10)).
Proof. vm_compute. repeat split; reflexivity. Qed.

(** One update cycle changes the critic, the encoder and the target
    critic. *)
Example update_changes_the_parameters :
  let w' := snd (update (Tiny.batch 2 2) 0 (Tiny.world "places365")) in
  critic_params (critic (self w')) <> [1 # 6; 1 # 7]
  /\ fc_ln (encoder (self w')) <> [1 # 2; 1 # 3]
  /\ critic_params (critic_target (self w')) <> [1 # 6; 1 # 7].
Proof.
  repeat split; intro H; vm_compute in H; discriminate H.
Qed.

(** An agent put together by hand, its critic built for actions of
    another width than its actor's, is not [matched]: on it [update]
    raises in the actor update, after the critic has been stepped. *)
Example unmatched_agent_updates_in_part :
  ~ matched (self Tiny.unmatched_world)
  /\ exists w',
       update Tiny.wide_batch 0 Tiny.unmatched_world
       = (Raised RuntimeError, w')
       /\ critic_params (critic (self w'))
          <> critic_params (critic (self Tiny.unmatched_world)).
Proof.
  split.
  - intros [_ H]. discriminate H.
  - eexists. split; [ vm_compute; reflexivity | ].
    intro H. vm_compute in H. discriminate H.
Qed.

(** A batch of mean squared error over no element is NaN. *)
Example mean_of_nothing : mse_loss [] [] = Returned NaN.
Proof. reflexivity. Qed.


Lemma target_critic_tracks_critic_witness :
  let w := Tiny.world "places365" in
  let w' := snd (update (Tiny.batch 2 2) 0 w) in
  critic_params (critic_target (self w'))
  = blend (1 # 100) (critic_params (critic (self w'))) [1 # 6; 1 # 7].
Proof.
  intros w w'.
  destruct (update (Tiny.batch 2 2) 0 w) as [[logs | e] w1] eqn:E;
    [ | vm_compute in E; discriminate E ].
  refine (proj1 (proj2 (proj1 target_critic_tracks_critic (Tiny.batch 2 2)
                          0%Z w logs w1 _ _ E))).
  - vm_compute. discriminate.
  - reflexivity.
Defined.

Lemma update_skips_off_frequency_witness :
  exists w',
    update (Tiny.batch 2 2) 1 (Tiny.world "places365") = (Returned [], w')
    /\ parameters (self w') = parameters (self (Tiny.world "places365"))
    /\ optimization_state (self w')
       = optimization_state (self (Tiny.world "places365"))
    /\ generator w' = generator (Tiny.world "places365").
Proof.
  apply update_skips_off_frequency.
  - vm_compute. discriminate.
  - vm_compute. discriminate.
Defined.

Lemma clipped_sample_within_bounds_witness :
  exists action g',
    TruncatedNormal_sample
      (Actor_forward (mkActor 2 1 [1 # 4; 1 # 5] None true) [[1; 2]] (1 # 5))
      (Some (3 # 10)) 7%Z = (Returned action, g')
    /\ Forall2 (Forall2 (within (3 # 10) (-1) 1))
         (TruncatedNormal_mean
            (Actor_forward (mkActor 2 1 [1 # 4; 1 # 5] None true) [[1; 2]]
               (1 # 5))) action.
Proof.
  refine (proj2 (clipped_sample_within_bounds
                   (mkActor 2 1 [1 # 4; 1 # 5] None true) [[1; 2]] (1 # 5)
                   (3 # 10) _ _ _ _) 7%Z);
    unfold Qle; simpl; lia.
Defined.



Lemma get_action_counts_random_steps_witness :
  actor_repr_dim (actor (Tiny.agent "places365"))
  = repr_dim (encoder (Tiny.agent "places365")).
Proof.
  eapply (proj1 (proj2 get_action_counts_random_steps)).
  exact (new_agent_is_agent "places365").
Defined.

Lemma shape_mismatches_are_fatal_where_checked_witness :
  exists w',
    update (Tiny.batch 2 3) 0 (Tiny.world "places365")
    = (Raised AssertionError, w')
    /\ parameters (self w') = parameters (self (Tiny.world "places365")).
Proof.
  apply (proj2 (proj2 (proj2 (proj2 shape_mismatches_are_fatal_where_checked)))
           (Tiny.batch 2 3) 0%Z (Tiny.world "places365") 1%nat 3%nat 2%nat
           3%nat).
  - vm_compute. discriminate.
  - reflexivity.
  - reflexivity.
  - discriminate.
Defined.

Lemma corpus_is_read_by_update_only_witness :
  exists e w',
    update (Tiny.batch 2 2) 0 (Tiny.world "nowhere") = (Raised e, w')
    /\ parameters (self w') = parameters (self (Tiny.world "nowhere")).
Proof.
  apply (proj2 (proj2 corpus_is_read_by_update_only)).
  - reflexivity.
  - vm_compute. discriminate.
  - reflexivity.
Defined.

(** Against C8 as stated: the agent for 2 x 2 images is constructed
    without any failure, and a batch of 2 x 3 images fails the assertion
    of the augmentation when [update] is called. *)
Lemma shape_mismatch_surfaces_at_call_time :
  fst (Tiny.new_agent "places365") = Returned (Tiny.agent "places365")
  /\ fst (RandomShiftsAug_forward (aug (Tiny.agent "places365"))
            (Tiny.image 0 2 3) 7%Z) = Raised AssertionError
  /\ fst (update (Tiny.batch 2 3) 0 (Tiny.world "places365"))
     = Raised AssertionError.
Proof. vm_compute. repeat split; reflexivity. Qed.

(** Against C9 as stated: with no corpus at the path, the agent is
    constructed without any failure, and the missing corpus surfaces when
    [update] is called. *)
Lemma missing_corpus_surfaces_in_update :
  Tiny.disk "nowhere" = None
  /\ fst (Tiny.new_agent "nowhere") = Returned (Tiny.agent "nowhere")
  /\ fst (update (Tiny.batch 2 2) 0 (Tiny.world "nowhere"))
     = Raised FileNotFoundError.
Proof. vm_compute. repeat split; reflexivity. Qed.

End Examples.

(* ------------------------------------------------------------------ *)
(** * Further properties of the code *)

Section Gradients.

Context {I : Imports}.

Open Scope py_scope.

(** The critic loss depends on the critic through the sizes it was built
    for and the parameters handed over. *)
Lemma critic_loss_of_sizes (c c' : Critic) obs aug_obs action target_Q
  theta :
  critic_repr_dim c = critic_repr_dim c' ->
  critic_action_shape c = critic_action_shape c' ->
  critic_loss_of c obs aug_obs action target_Q theta
  = critic_loss_of c' obs aug_obs action target_Q theta.
Proof.
  unfold critic_loss_of, Critic_call_with. intros -> ->. reflexivity.
Qed.

(** Gradients left on the encoder and the critic, for instance by the
    actor update of the cycle before, do not reach the critic update: the
    call raises or returns as it does without them, and when it returns,
    [zero_grad] has cleared them before [backward] and the call has done in
    all respects what it does without them.  (A call that raises leaves
    them in place.) *)
Theorem update_critic_ignores_stale_gradients obs action reward discount
  not_done next_obs n aug_obs (w : World) (g_e g_c : option (list Q)) :
  fst (update_critic obs action reward discount not_done next_obs n
         aug_obs (leaving_gradients w g_e (actor_grad (actor (self w))) g_c))
  = fst (update_critic obs action reward discount not_done next_obs n
           aug_obs w)
  /\ (returned
        (fst (update_critic obs action reward discount not_done next_obs
                n aug_obs w)) = true ->
      update_critic obs action reward discount not_done next_obs n aug_obs
        (leaving_gradients w g_e (actor_grad (actor (self w))) g_c)
      = update_critic obs action reward discount not_done next_obs n
          aug_obs w).
Proof.
  destruct w as [a gen dsk].
  destruct a as [ss dv tau ues sch clip dis es path enc act cr ct eo ao co
                   au tr].
  destruct enc, act, cr, ct.
  unfold update_critic, bootstrapped_target.
  unfold bind, get, on_self, modify, on_generator, lift. simpl.
  unfold Actor_call, Actor_call_with. simpl.
  match goal with
  | |- context [Nat.eqb ?a ?b] => destruct (Nat.eqb a b)
  end; simpl; [ | split; [ reflexivity | discriminate ] ].
  match goal with
  | |- context [TruncatedNormal_sample ?d ?c gen] =>
      destruct (TruncatedNormal_sample_returns d c gen)
        as (noise & g' & E & _)
  end.
  rewrite E. simpl.
  unfold Critic_call, Critic_call_with, action_of. simpl.
  repeat match goal with
         | |- context [if ?b then Returned _ else Raised _] =>
             destruct b; simpl; [ | split; [ reflexivity | discriminate ] ]
         | |- context [target_Q_of ?a ?b ?c ?d ?e] =>
             destruct (target_Q_of a b c d e); simpl;
             [ | split; [ reflexivity | discriminate ] ]
         | |- context [critic_loss_of ?c1 ?b ?c ?d ?e ?f] =>
             match goal with
             | |- context [critic_loss_of ?c2 b c d e f] =>
                 tryif constr_eq c1 c2 then fail
                 else rewrite (critic_loss_of_sizes c1 c2 b c d e f
                                 eq_refl eq_refl)
             end
         | |- context [critic_loss_of ?a ?b ?c ?d ?e ?f] =>
             destruct (critic_loss_of a b c d e f); simpl;
             [ | split; [ reflexivity | discriminate ] ]
         end.
  unfold encoder_opt_step, critic_opt_step, critic_backward. unfold step.
  unfold Critic_zero_grad, Critic_train, Critic_set, ResEncoder_zero_grad,
    set_fc_ln.
  simpl.
  destruct (graph obs), (graph aug_obs);
    repeat (simpl;
            match goal with
            | |- context [Adam_step ?a ?b ?c ?d] =>
                destruct (Adam_step a b c d)
            end);
    split; reflexivity.
Qed.
(** The same for the actor and its update; gradients left on the critic
    and the encoder stay where they are and change no parameter. *)
Theorem update_actor_ignores_stale_gradients obs n (w : World)
  (g_e g_a g_c : option (list Q)) :
  (returned (fst (update_actor obs n w)) = true ->
   update_actor obs n
     (leaving_gradients w (fc_ln_grad (encoder (self w))) g_a
        (critic_grad (critic (self w))))
   = update_actor obs n w)
  /\ parameters
       (self (snd (update_actor obs n (leaving_gradients w g_e g_a g_c))))
     = parameters (self (snd (update_actor obs n w)))
  /\ fst (update_actor obs n (leaving_gradients w g_e g_a g_c))
     = fst (update_actor obs n w).
Proof.
  destruct w as [a gen dsk].
  destruct a as [ss dv tau ues sch clip dis es path enc act cr ct eo ao co
                   au tr].
  destruct enc, act, cr.
  unfold update_actor.
  unfold bind, get, on_self, modify, on_generator, lift. simpl.
  unfold Actor_call, Actor_call_with. simpl.
  match goal with
  | |- context [Nat.eqb ?a ?b] => destruct (Nat.eqb a b)
  end; simpl; [ | split; [ discriminate | split; reflexivity ] ].
  match goal with
  | |- context [randn_like ?r gen] =>
      destruct (randn_like_returns r gen) as (noise & g' & E & _)
  end.
  rewrite E. simpl.
  unfold Critic_call, Critic_call_with, action_of. simpl.
  match goal with
  | |- context [if ?b then Returned _ else Raised _] =>
      destruct b; simpl; [ | split; [ discriminate | split; reflexivity ] ]
  end.
  unfold actor_opt_step, actor_backward. unfold step.
  unfold Actor_zero_grad, Actor_train, Actor_set, Critic_train, Critic_set.
  simpl.
  destruct (graph obs); simpl;
    destruct (Adam_step _ _ _ _); repeat split; reflexivity.
Qed.

(** The actor update on a detached encoding gives the encoder no gradient
    and steps neither the encoder nor the critic; when it returns it has
    left a gradient on the actor and on the critic.  On an encoding that
    carries its graph it would leave one on the encoder too. *)
Theorem update_actor_detached_spares_encoder :
  (forall obs n w,
      let r := update_actor (detach obs) n w in
      let a' := self (snd r) in
      fc_ln_grad (encoder a') = fc_ln_grad (encoder (self w))
      /\ encoder_opt a' = encoder_opt (self w)
      /\ critic_opt a' = critic_opt (self w)
      /\ (returned (fst r) = true ->
          actor_grad (actor a') <> None /\ critic_grad (critic a') <> None))
  /\ (forall obs n w rows,
         graph obs = Some rows ->
         returned (fst (update_actor obs n w)) = true ->
         fc_ln_grad (encoder (self (snd (update_actor obs n w)))) <> None).
Proof.
  split.
  - intros obs n w. cbv zeta.
    unfold update_actor.
    unfold bind, get, on_self, modify, on_generator, lift. simpl.
    unfold Actor_call, Actor_call_with. simpl.
    match goal with
    | |- context [Nat.eqb ?a ?b] => destruct (Nat.eqb a b)
    end; simpl; [ | repeat split; discriminate ].
    match goal with
    | |- context [randn_like ?r (generator w)] =>
        destruct (randn_like_returns r (generator w)) as (noise & g' & E & _)
    end.
    rewrite E. simpl.
    unfold Critic_call, Critic_call_with, action_of. simpl.
    match goal with
    | |- context [if ?b then Returned _ else Raised _] =>
        destruct b; simpl; [ | repeat split; discriminate ]
    end.
    unfold actor_opt_step, actor_backward, step. simpl.
    destruct (Adam_step _ _ _ _). simpl.
    repeat split; try reflexivity.
    + discriminate.
    + unfold accumulate. destruct (critic_grad (critic (self w)));
        discriminate.
  - intros obs n w rows Hg.
    unfold update_actor.
    unfold bind, get, on_self, modify, on_generator, lift. simpl.
    unfold Actor_call, Actor_call_with. simpl.
    match goal with
    | |- context [Nat.eqb ?a ?b] => destruct (Nat.eqb a b)
    end; simpl; [ | discriminate ].
    match goal with
    | |- context [randn_like ?r (generator w)] =>
        destruct (randn_like_returns r (generator w)) as (noise & g' & E & _)
    end.
    rewrite E. simpl.
    unfold Critic_call, Critic_call_with, action_of. simpl.
    match goal with
    | |- context [if ?b then Returned _ else Raised _] =>
        destruct b; simpl; [ | discriminate ]
    end.
    intros _.
    unfold actor_opt_step, actor_backward, step. simpl.
    rewrite Hg. simpl.
    destruct (Adam_step _ _ _ _). simpl.
    unfold accumulate. destruct (fc_ln_grad (encoder (self w))); discriminate.
Qed.

End Gradients.

Section Modes.

Context {I : Imports}.

Open Scope py_scope.

Lemma forward_conv_keeps_training (x : Tensor) (flatten : bool) :
  keeps encoder_training (forward_conv x flatten).
Proof.
  unfold forward_conv.
  repeat first [ keeps_step
               | intro e; unfold run_model;
                 destruct (resnet_to_layer2 _ _ _ _); reflexivity ].
Qed.

Lemma ResEncoder_forward_keeps_training (no_grad : bool) (x : Tensor) :
  keeps encoder_training (ResEncoder_forward no_grad x).
Proof.
  unfold ResEncoder_forward.
  repeat first [ apply forward_conv_keeps_training | keeps_step ].
Qed.

Lemma encoder_call_keeps_modes (no_grad : bool) (x : Tensor) :
  keeps (fun w => modes (self w)) (on_encoder (ResEncoder_forward no_grad x)).
Proof.
  intro w. unfold on_encoder.
  pose proof (ResEncoder_forward_keeps_training no_grad x (encoder (self w)))
    as K.
  destruct (ResEncoder_forward no_grad x (encoder (self w))) as [o e].
  simpl in K. unfold modes. simpl. rewrite K. reflexivity.
Qed.

Lemma random_overlay_keeps_modes (x : Tensor) (data_dir device : string) :
  keeps (fun w => modes (self w)) (random_overlay x data_dir device).
Proof.
  unfold random_overlay. apply keeps_bind; [ apply keeps_get | intro w ].
  destruct (disk w data_dir);
    [ apply keeps_on_generator | apply keeps_raise ].
Qed.

(** The modes [update_critic] leaves: actor and target critic evaluating,
    critic training. *)
Lemma update_critic_modes obs action reward discount not_done next_obs n
  aug_obs w :
  modes (self (snd (update_critic obs action reward discount not_done
                      next_obs n aug_obs w)))
  = (training (self w), encoder_training (encoder (self w)), false, true,
     false).
Proof.
  unfold update_critic, bootstrapped_target.
  unfold bind, get, on_self, modify, on_generator, lift. simpl.
  unfold Actor_call, Actor_call_with. simpl.
  match goal with
  | |- context [Nat.eqb ?a ?b] => destruct (Nat.eqb a b)
  end; simpl; [ | reflexivity ].
  match goal with
  | |- context [TruncatedNormal_sample ?d ?c (generator w)] =>
      destruct (TruncatedNormal_sample_returns d c (generator w))
        as (noise & g' & E & _)
  end.
  rewrite E. simpl.
  unfold Critic_call, Critic_call_with, action_of. simpl.
  repeat match goal with
         | |- context [if ?b then Returned _ else Raised _] =>
             destruct b; simpl; [ | reflexivity ]
         | |- context [target_Q_of ?a ?b ?c ?d ?e] =>
             destruct (target_Q_of a b c d e); simpl; [ | reflexivity ]
         | |- context [critic_loss_of ?a ?b ?c ?d ?e ?f] =>
             destruct (critic_loss_of a b c d e f); simpl; [ | reflexivity ]
         end.
  unfold encoder_opt_step, critic_opt_step, critic_backward. unfold step.
  simpl.
  destruct (graph obs), (graph aug_obs);
    repeat (simpl;
            match goal with
            | |- context [Adam_step ?a ?b ?c ?d] =>
                destruct (Adam_step a b c d)
            end);
    reflexivity.
Qed.

(** The modes [update_actor] leaves: critic evaluating, actor training. *)
Lemma update_actor_modes obs n w :
  modes (self (snd (update_actor obs n w)))
  = (training (self w), encoder_training (encoder (self w)), true, false,
     critic_training (critic_target (self w))).
Proof.
  unfold update_actor.
  unfold bind, get, on_self, modify, on_generator, lift. simpl.
  unfold Actor_call, Actor_call_with. simpl.
  match goal with
  | |- context [Nat.eqb ?a ?b] => destruct (Nat.eqb a b)
  end; simpl; [ | reflexivity ].
  match goal with
  | |- context [randn_like ?r (generator w)] =>
      destruct (randn_like_returns r (generator w)) as (noise & g' & E & _)
  end.
  rewrite E. simpl.
  unfold Critic_call, Critic_call_with, action_of. simpl.
  match goal with
  | |- context [if ?b then Returned _ else Raised _] =>
      destruct b; simpl; [ | reflexivity ]
  end.
  unfold actor_opt_step, actor_backward. unfold step. simpl.
  destruct (graph obs); simpl;
    destruct (Adam_step _ _ _ _); reflexivity.
Qed.

Lemma modes_inv (a : PIEGAgent) (t e x c ct : bool) :
  modes a = (t, e, x, c, ct) ->
  training a = t /\ encoder_training (encoder a) = e
  /\ actor_training (actor a) = x /\ critic_training (critic a) = c
  /\ critic_training (critic_target a) = ct.
Proof.
  intro H. repeat split.
  - exact (f_equal (fun m => let '(t, _, _, _, _) := m in t) H).
  - exact (f_equal (fun m => let '(_, e, _, _, _) := m in e) H).
  - exact (f_equal (fun m => let '(_, _, x, _, _) := m in x) H).
  - exact (f_equal (fun m => let '(_, _, _, c, _) := m in c) H).
  - exact (f_equal (fun m => let '(_, _, _, _, ct) := m in ct) H).
Qed.

Lemma updates_in_a_row_modes obs action reward discount not_done next_obs n
  aug_obs (logs : dict -> dict -> dict) :
  ensures
    (fun w w' =>
       modes (self w')
       = (training (self w), encoder_training (encoder (self w)), true,
          false, false))
    (l <- update_critic obs action reward discount not_done next_obs n
            aug_obs ;;
     l' <- update_actor (detach obs) n ;;
     update_critic_target ;;;
     ret (logs l l')).
Proof.
  intros w a w' E. unfold bind in E.
  pose proof (update_critic_modes obs action reward discount not_done
                next_obs n aug_obs w) as Mc.
  destruct (update_critic _ _ _ _ _ _ _ _ w) as [[l | e] w1];
    [ | discriminate ].
  cbn [snd] in Mc.
  pose proof (update_actor_modes (detach obs) n w1) as Ma.
  destruct (update_actor _ _ w1) as [[l' | e] w2]; [ | discriminate ].
  cbn [snd] in Ma. simpl in E. injection E as _ <-.
  destruct (modes_inv _ _ _ _ _ _ Mc) as (M1 & M2 & _ & _ & M5).
  destruct (modes_inv _ _ _ _ _ _ Ma) as (A1 & A2 & A3 & A4 & A5).
  unfold modes. simpl. congruence.
Qed.

(** After a call of [update] that returns on the update frequency, the
    agent, the encoder and the actor are in training mode and the critic
    and the target critic in evaluation mode, whatever the modes were
    before: [update_actor] calls [self.critic.eval()] and nothing puts the
    critic back before the call returns.  After a call that skips, the
    encoder, the actor and the critic are in training mode. *)
Theorem modes_after_update (train_data : TensorDict) (n : Z) (w : World)
  (logs : dict) (w' : World) :
  update_every_steps (self w) <> 0%Z ->
  update train_data n w = (Returned logs, w') ->
  ((n mod update_every_steps (self w))%Z = 0%Z ->
   modes (self w') = (true, true, true, false, false))
  /\ ((n mod update_every_steps (self w))%Z <> 0%Z ->
      modes (self w')
      = (true, true, true, true, critic_training (critic_target (self w)))).
Proof.
  intros Hne E. split.
  - intro Hmod.
    assert (Hm : mod_ n (update_every_steps (self w)) = Returned 0%Z).
    { unfold mod_. apply Z.eqb_neq in Hne. rewrite Hne, Hmod. reflexivity. }
    unfold update in E. unfold bind at 1 2 3 in E. simpl in E.
    rewrite Hm in E. simpl in E.
    revert E.
    match goal with
    | |- ?c ?w0 = _ -> _ =>
        cut (ensures
               (fun w w' =>
                  modes (self w')
                  = (training (self w), encoder_training (encoder (self w)),
                     true, false, false)) c)
    end.
    { intros H E. exact (H _ _ _ E). }
    repeat lazymatch goal with
           | |- ensures _ (bind (update_critic _ _ _ _ _ _ _ _) _) =>
               apply updates_in_a_row_modes
                 with (logs := fun l l' => Py.update (Py.update [] l) l')
           | |- ensures _ (bind _ _) =>
               apply (ensures_bind (fun w => modes (self w)));
               [ intros w1 w2 w3 H12 H;
                 destruct (modes_inv _ _ _ _ _ _ H12) as (T1 & T2 & _);
                 rewrite <- T1, <- T2; exact H
               | first [ apply encoder_call_keeps_modes
                       | apply random_overlay_keeps_modes
                       | keeps_step ]
               | intro ]
           end.
  - intro Hmod.
    rewrite (update_off_frequency _ _ _ Hne Hmod) in E.
    injection E as _ <-. reflexivity.
Qed.

End Modes.

Section Logs.

Context {I : Imports}.

Open Scope py_scope.

Lemma yields_bind {W A B} (P : B -> Prop) (c : M W A) (k : A -> M W B) :
  (forall a, yields P (k a)) -> yields P (bind c k).
Proof.
  intros Hk w b w' E. unfold bind in E.
  destruct (c w) as [[a | e] w1]; [ | discriminate ].
  exact (Hk a w1 b w' E).
Qed.

Lemma update_critic_logs obs action reward discount not_done next_obs n
  aug_obs w l w' :
  update_critic obs action reward discount not_done next_obs n aug_obs w
  = (Returned l, w') ->
  exists t q1 q2 loss,
    l = [("critic_target_q", t); ("critic_q1", q1);
         ("critic_q2", q2); ("critic_loss", loss)]%string
    /\ not_negative loss.
Proof.
  unfold update_critic, bootstrapped_target.
  unfold bind, get, on_self, modify, on_generator, lift. simpl.
  unfold Actor_call, Actor_call_with. simpl.
  match goal with
  | |- context [Nat.eqb ?a ?b] => destruct (Nat.eqb a b)
  end; simpl; [ | discriminate ].
  match goal with
  | |- context [TruncatedNormal_sample ?d ?c (generator w)] =>
      destruct (TruncatedNormal_sample_returns d c (generator w))
        as (noise & g' & E & _)
  end.
  rewrite E. simpl.
  unfold Critic_call, Critic_call_with, action_of. simpl.
  repeat match goal with
         | |- context [if ?b then Returned _ else Raised _] =>
             destruct b; simpl; [ | discriminate ]
         | |- context [target_Q_of ?a ?b ?c ?d ?e] =>
             destruct (target_Q_of a b c d e); simpl; [ | discriminate ]
         end.
  match goal with
  | |- context [critic_loss_of ?c1 ?c2 ?c3 ?c4 ?c5 ?c6] =>
      destruct (critic_loss_of c1 c2 c3 c4 c5 c6) as [loss | e] eqn:El;
      simpl; [ | discriminate ]
  end.
  unfold ret. intro H. injection H as <- _.
  do 4 eexists. split; [ reflexivity | ].
  exact (critic_loss_not_negative _ _ _ _ _ _ _ El).
Qed.

Lemma update_actor_logs obs n w l w' :
  update_actor obs n w = (Returned l, w') ->
  exists loss, l = [("actor_loss", loss)]%string.
Proof.
  unfold update_actor.
  unfold bind, get, on_self, modify, on_generator, lift. simpl.
  unfold Actor_call, Actor_call_with. simpl.
  match goal with
  | |- context [Nat.eqb ?a ?b] => destruct (Nat.eqb a b)
  end; simpl; [ | discriminate ].
  match goal with
  | |- context [randn_like ?r (generator w)] =>
      destruct (randn_like_returns r (generator w)) as (noise & g' & E & _)
  end.
  rewrite E. simpl.
  unfold Critic_call, Critic_call_with, action_of. simpl.
  match goal with
  | |- context [if ?b then Returned _ else Raised _] =>
      destruct b; simpl; [ | discriminate ]
  end.
  unfold ret. intro H. injection H as <- _.
  eexists. reflexivity.
Qed.

(** The log dictionary of a call of [update] that runs the cycle holds the
    four entries of the critic update and then the entry of the actor
    update, five distinct keys, with a critic loss that is not negative (a
    number not below zero, or the NaN of a batch without transitions); off
    the update frequency the dictionary is empty. *)
Theorem update_logs (train_data : TensorDict) (n : Z) (w : World)
  (logs : dict) (w' : World) :
  update_every_steps (self w) <> 0%Z ->
  update train_data n w = (Returned logs, w') ->
  ((n mod update_every_steps (self w))%Z = 0%Z ->
   exists t q1 q2 loss actor_loss,
     logs = [("critic_target_q", t); ("critic_q1", q1); ("critic_q2", q2);
             ("critic_loss", loss); ("actor_loss", actor_loss)]%string
     /\ not_negative loss)
  /\ ((n mod update_every_steps (self w))%Z <> 0%Z -> logs = []).
Proof.
  intros Hne E. split.
  - intro Hmod.
    assert (Hm : mod_ n (update_every_steps (self w)) = Returned 0%Z).
    { unfold mod_. apply Z.eqb_neq in Hne. rewrite Hne, Hmod. reflexivity. }
    unfold update in E. unfold bind at 1 2 3 in E. simpl in E.
    rewrite Hm in E. simpl in E.
    revert logs E.
    match goal with
    | |- forall logs, ?c ?w0 = _ -> @?G logs => cut (yields G c)
    end.
    { intros H logs E. exact (H _ _ _ E). }
    repeat lazymatch goal with
           | |- yields _ (bind (update_critic _ _ _ _ _ _ _ _) _) => idtac
           | |- yields _ (bind _ _) => apply yields_bind; intro
           end.
    intros w1 l3 w3 E. unfold bind in E.
    match type of E with
    | context [update_critic ?a ?b ?c ?d ?e ?f ?g ?h w1] =>
        destruct (update_critic a b c d e f g h w1) as [[l | e1] w2] eqn:Ec;
        [ | discriminate ]
    end.
    destruct (update_critic_logs _ _ _ _ _ _ _ _ _ _ _ Ec)
      as (t & q1 & q2 & loss & -> & Hloss).
    match type of E with
    | context [update_actor ?a ?b w2] =>
        destruct (update_actor a b w2) as [[l' | e1] w4] eqn:Ea;
        [ | discriminate ]
    end.
    destruct (update_actor_logs _ _ _ _ _ Ea) as (al & ->).
    simpl in E. injection E as <- _.
    exists t, q1, q2, loss, al. split; [ reflexivity | exact Hloss ].
  - intro Hmod.
    rewrite (update_off_frequency _ _ _ Hne Hmod) in E.
    injection E as <- _. reflexivity.
Qed.

End Logs.

Section DeterministicActions.

Context {I : Imports}.

Open Scope py_scope.

Lemma on_encoder_keeps_generator {A} (c : M ResEncoder A) :
  keeps generator (on_encoder c).
Proof.
  intro w. unfold on_encoder. destruct (c (encoder (self w))). reflexivity.
Qed.

(** Under a strategy other than [RANDOM], [get_action] draws nothing from
    the generator and changes nothing that training has learned or that is
    configured (the step counter included), and every component of the
    action it returns lies in [-1, 1], the range of [tanh]. *)
Theorem get_action_mean_is_bounded (observation : Tensor) (w : World) :
  sampling_strategy (self w) <> RANDOM ->
  let r := get_action observation w in
  generator (snd r) = generator w
  /\ learned (self (snd r)) = learned (self w)
  /\ forall action,
      fst r = Returned action ->
      Forall (Forall (fun m => -1 <= m <= 1)) action.
Proof.
  intros Hs r. subst r. unfold get_action, bind.
  pose proof (on_encoder_keeps_generator
                (ResEncoder_forward false observation) w) as Kg.
  pose proof (encoder_call_keeps_learned false observation w) as Kl.
  destruct (on_encoder (ResEncoder_forward false observation) w)
    as [[obs | e] w1]; simpl in Kg, Kl.
  - unfold get. cbv zeta.
    assert (Hd : SamplingStrategy_eqb (sampling_strategy (self w1)) RANDOM
                 = false).
    { destruct (learned_inv _ _ Kl) as (_ & _ & HC).
      assert (Hss : sampling_strategy (self w1) = sampling_strategy (self w))
        by exact (f_equal
                    (fun c => let '(s, _, _, _, _, _, _, _, _, _) := c in s)
                    HC).
      rewrite Hss. destruct (sampling_strategy (self w));
        [ contradiction | reflexivity ]. }
    unfold lift.
    destruct (Actor_call (actor (self w1)) (value obs)
                (schedule (stddev_schedule (self w1)) (env_step (self w1))))
      as [dist | e] eqn:Ed.
    + rewrite Hd. simpl. split; [ exact Kg | ]. split; [ exact Kl | ].
      intros action Ha. injection Ha as <-.
      unfold Actor_call, Actor_call_with in Ed.
      destruct (Nat.eqb _ _); [ | discriminate ].
      injection Ed as <-. apply Actor_mu_range.
    + simpl. split; [ exact Kg | ]. split; [ exact Kl | ].
      intros action Ha. discriminate.
  - simpl. split; [ exact Kg | ]. split; [ exact Kl | ].
    intros action Ha. discriminate.
Qed.

End DeterministicActions.

Section Construction.

Context {I : Imports}.

Open Scope py_scope.

(** An agent that [PIEGAgent.__init__] returns starts with the target critic
    a copy of the critic, the step counter at zero, no gradient anywhere,
    every module in training mode, three optimizers with the given learning
    rate and no state yet, a random shift of pad 4, an encoder of 1024
    features, and the configuration it was given. *)
Theorem new_agent_invariants obs_shape action_dim dev gamma rate feature_dim
  hidden_dim tau every schedule_string clip path g a g' :
  PIEGAgent_init obs_shape action_dim dev gamma rate feature_dim hidden_dim
    tau every schedule_string clip path g = (Returned a, g') ->
  critic_params (critic_target a) = critic_params (critic a)
  /\ env_step a = 0%Z
  /\ optimization_state a
     = (None, None, None, None, mkAdam rate [], mkAdam rate [],
        mkAdam rate [])
  /\ modes a = (true, true, true, true, true)
  /\ aug a = mkRandomShiftsAug 4
  /\ repr_dim (encoder a) = 1024%nat
  /\ configuration a
     = (initial_sampling_strategy, dev, tau, every, schedule_string, clip,
        gamma, 0%Z, path, mkRandomShiftsAug 4).
Proof.
  unfold PIEGAgent_init, bind. intro E.
  destruct (ResEncoder_init obs_shape dev g) as [[enc | e] g1] eqn:Eenc;
    [ | discriminate ].
  assert (Henc : fc_ln_grad enc = None /\ repr_dim enc = 1024%nat).
  { unfold ResEncoder_init, bind in Eenc.
    destruct (draws randn _ g) as [[x | e] g0]; [ | discriminate ].
    destruct (forward_conv _ true ResEncoder_blank) as [[out | e] s];
      [ | discriminate ].
    destruct (index (size out) 1) as [d | e]; [ | discriminate ].
    destruct (fc_ln_init d 1024 g0) as [[p | e] g2]; [ | discriminate ].
    injection Eenc as <- _. split; reflexivity. }
  destruct Henc as [Hgrad Hrepr].
  unfold Actor_init, Critic_init, bind, ret in E.
  destruct (actor_init _ _ _ _ g1) as [[pa | e] g2]; [ | discriminate ].
  simpl in E.
  destruct (critic_init _ _ _ _ g2) as [[pc | e] g3]; [ | discriminate ].
  simpl in E.
  destruct (critic_init _ _ _ _ g3) as [[pt | e] g4]; [ | discriminate ].
  simpl in E. injection E as <- _.
  unfold optimization_state, modes, configuration. simpl.
  rewrite Hgrad, Hrepr. repeat split; reflexivity.
Qed.

End Construction.

Section FrameStacks.

Context {I : Imports}.

Open Scope py_scope.

Lemma chunks_fuel_lengths {A} (fuel k : nat) (l : list A) :
  (fuel * k <= length l)%nat ->
  length (chunks_fuel fuel k l) = fuel
  /\ Forall (fun c => length c = k) (chunks_fuel fuel k l).
Proof.
  revert l. induction fuel as [| fuel IH]; intros l H; simpl.
  - split; [ reflexivity | constructor ].
  - assert (Hk : (k <= length l)%nat) by lia.
    destruct (IH (skipn k l)) as [IH1 IH2].
    { rewrite length_skipn. lia. }
    split; [ now rewrite IH1 | ].
    constructor; [ | exact IH2 ].
    rewrite length_firstn. lia.
Qed.

Lemma frame_difference_length (time_step f : nat) (frames : list Q) :
  (0 < time_step)%nat -> length frames = (time_step * f)%nat ->
  length (frame_difference time_step f frames)
  = (2 * (time_step - 1) * f)%nat.
Proof.
  intros Ht Hl. unfold frame_difference.
  rewrite length_app, length_map2, length_skipn, length_firstn, Hl.
  destruct time_step as [| t]; [ lia | ].
  simpl. rewrite Nat.sub_0_r. nia.
Qed.

Lemma index_size4 (b c h w : nat) :
  index [b; c; h; w] 0 = Returned b
  /\ index [b; c; h; w] 1 = Returned c
  /\ index [b; c; h; w] 2 = Returned h
  /\ index [b; c; h; w] 3 = Returned w
  /\ index [b; c; h; w] (-2) = Returned h
  /\ index [b; c; h; w] (-1) = Returned w.
Proof. repeat split; reflexivity. Qed.


(** A batch whose channels are not whole 3-channel frames is rejected by
    the first [view] of [forward_conv], before the resnet runs: the encoder
    is as it was, buffers included. *)
Theorem forward_conv_rejects_partial_frames (self : ResEncoder)
  (obs : Tensor) (flatten : bool) (b c h w : nat) :
  image_channel self = 3%nat ->
  size obs = [b; c; h; w] ->
  (c mod 3 <> 0)%nat -> (0 < b)%nat -> (0 < h)%nat -> (0 < w)%nat ->
  forward_conv obs flatten self = (Raised RuntimeError, self).
Proof.
  intros Hic Hs Hc Hb Hh Hw.
  unfold forward_conv. unfold bind at 1. unfold get at 1.
  unfold tmap. cbn [size]. rewrite Hs, Hic.
  destruct (index_size4 b c h w) as (I0 & I1 & _ & _ & Im2 & Im1).
  unfold bind at 1. unfold lift at 1. rewrite I1.
  unfold bind at 1. unfold lift at 1.
  change (floordiv c 3) with (Returned (Nat.div c 3)).
  unfold bind at 1. unfold lift at 1. rewrite I0.
  unfold bind at 1. unfold lift at 1. rewrite Im2.
  unfold bind at 1. unfold lift at 1. rewrite Im1.
  unfold bind at 1. unfold lift at 1. unfold view at 1. cbn [size].
  assert (Hn : Nat.eqb (numel [b; c; h; w])
                 (numel [b; Nat.div c 3; 3%nat; h; w]) = false).
  { apply Nat.eqb_neq.
    change (numel [b; c; h; w]) with (b * (c * (h * (w * 1))))%nat.
    change (numel [b; Nat.div c 3; 3%nat; h; w])
      with (b * (Nat.div c 3 * (3 * (h * (w * 1)))))%nat.
    pose proof (Nat.div_mod_eq c 3) as Hd.
    remember (Nat.div c 3) as q. remember (c mod 3)%nat as r.
    intro H. apply Nat.mul_cancel_l in H; [ | lia ].
    assert (Hx : (0 < h * (w * 1))%nat) by nia.
    remember (h * (w * 1))%nat as x.
    assert (H0 : (r * x = 0)%nat) by nia.
    apply Nat.eq_mul_0 in H0. lia. }
  rewrite Hn. reflexivity.
Qed.


Lemma chunks_fuel_nth {A} (fuel k : nat) (l : list A) (i : nat) :
  (i < fuel)%nat ->
  nth_error (chunks_fuel fuel k l) i = Some (firstn k (skipn (i * k) l)).
Proof.
  revert l i. induction fuel as [| fuel IH]; intros l i Hi; [ lia | ].
  destruct i as [| i]; simpl.
  - reflexivity.
  - rewrite IH by lia. rewrite skipn_skipn.
    replace (i * k + k)%nat with (k + i * k)%nat by lia. reflexivity.
Qed.

Lemma nth_error_in_range {A} (l : list A) (i : nat) :
  (i < length l)%nat -> exists x, nth_error l i = Some x.
Proof.
  intro H. destruct (nth_error l i) as [x |] eqn:E; [ now exists x | ].
  apply nth_error_None in E. lia.
Qed.

(** The block of one stack: the frames after the first, and then each of
    them minus the frame before it. *)
Lemma frame_difference_nth (time_step f : nat) (frames : list Q)
  (t k : nat) (cur prev : Q) :
  length frames = (time_step * f)%nat ->
  (t + 1 < time_step)%nat -> (k < f)%nat ->
  nth_error frames ((t + 1) * f + k) = Some cur ->
  nth_error frames (t * f + k) = Some prev ->
  nth_error (frame_difference time_step f frames) (t * f + k) = Some cur
  /\ nth_error (frame_difference time_step f frames)
       ((time_step - 1 + t) * f + k) = Some (cur - prev).
Proof.
  intros Hl Ht Hk Hc Hp. unfold frame_difference.
  destruct time_step as [| T]; [ lia | ].
  replace (S T - 1)%nat with T by lia.
  assert (Hls : length (skipn f frames) = (T * f)%nat).
  { rewrite length_skipn, Hl. simpl. lia. }
  assert (Hin : (t * f + k < T * f)%nat) by nia.
  assert (Hcur : nth_error (skipn f frames) (t * f + k) = Some cur).
  { rewrite nth_error_skipn.
    replace (f + (t * f + k))%nat with ((t + 1) * f + k)%nat by lia.
    exact Hc. }
  split.
  - rewrite nth_error_app1 by lia. exact Hcur.
  - rewrite nth_error_app2 by lia. rewrite Hls.
    replace ((T + t) * f + k - T * f)%nat with (t * f + k)%nat by lia.
    apply nth_error_map2; [ exact Hcur | ].
    rewrite nth_error_firstn.
    destruct (Nat.ltb_spec (t * f + k) (T * f)); [ exact Hp | lia ].
Qed.

Lemma forward_conv_on_stacks (self : ResEncoder) (obs : Tensor)
  (b time_step h w s1 s2 s3 : nat) (out : Tensor) (buffers : list Q) :
  image_channel self = 3%nat ->
  size obs = [b; (time_step * 3)%nat; h; w] ->
  (0 < b)%nat -> (0 < time_step)%nat ->
  resnet_to_layer2 (model self) (model_buffers self) (encoder_training self)
    (mkTensor [(b * time_step)%nat; 3%nat; h; w]
       (map (fun v => v / 255 - (1 # 2)) (data obs)))
  = (Returned out, buffers) ->
  size out = [(b * time_step)%nat; s1; s2; s3] ->
  well_formed out ->
  exists conv,
    forward_conv obs true self = (Returned conv, set_buffers self buffers)
    /\ size conv
       = [b; ((if Nat.ltb 1 time_step then 2 * (time_step - 1) else 1)
              * (s1 * s2 * s3))%nat]
    /\ well_formed conv
    /\ data conv
       = if Nat.ltb 1 time_step
         then flat_map (frame_difference time_step (s1 * s2 * s3))
                (chunks (time_step * (s1 * s2 * s3)) (data out))
         else data out.
Proof.
  intros Hic Hs Hb Ht Hres Hout Hwf.
  unfold forward_conv. unfold bind at 1. unfold get at 1.
  unfold tmap. cbn [size]. rewrite Hs, Hic.
  destruct (index_size4 b (time_step * 3) h w) as (I0 & I1 & _ & _ & Im2 & Im1).
  unfold bind at 1. unfold lift at 1. rewrite I1.
  unfold bind at 1. unfold lift at 1.
  change (floordiv (time_step * 3) 3)
    with (Returned (Nat.div (time_step * 3) 3)).
  rewrite Nat.div_mul by discriminate.
  unfold bind at 1. unfold lift at 1. rewrite I0.
  unfold bind at 1. unfold lift at 1. rewrite Im2.
  unfold bind at 1. unfold lift at 1. rewrite Im1.
  unfold bind at 1. unfold lift at 1. unfold view at 1. cbn [size data].
  assert (Hn1 : Nat.eqb (numel [b; (time_step * 3)%nat; h; w])
                  (numel [b; time_step; 3%nat; h; w]) = true).
  { apply Nat.eqb_eq. unfold numel. cbn [fold_right]. lia. }
  rewrite Hn1.
  unfold bind at 1. unfold lift at 1. unfold view at 1. cbn [size data].
  assert (Hn2 : Nat.eqb (numel [b; time_step; 3%nat; h; w])
                  (numel [(b * time_step)%nat; 3%nat; h; w]) = true).
  { apply Nat.eqb_eq. unfold numel. cbn [fold_right]. lia. }
  rewrite Hn2.
  unfold bind at 1. unfold run_model at 1. rewrite Hres.
  destruct (index_size4 (b * time_step) s1 s2 s3)
    as (J0 & J1 & J2 & J3 & _ & _).
  unfold bind at 1. unfold lift at 1. rewrite Hout, J0.
  unfold bind at 1. unfold lift at 1.
  assert (Hfd : floordiv (b * time_step) time_step = Returned b).
  { unfold floordiv. destruct time_step as [| t]; [ lia | ].
    rewrite Nat.div_mul by discriminate. reflexivity. }
  rewrite Hfd.
  unfold bind at 1. unfold lift at 1. rewrite J1.
  unfold bind at 1. unfold lift at 1. rewrite J2.
  unfold bind at 1. unfold lift at 1. rewrite J3.
  unfold bind at 1. unfold lift at 1. unfold view at 1. rewrite Hout.
  assert (Hn3 : Nat.eqb (numel [(b * time_step)%nat; s1; s2; s3])
                  (numel [b; time_step; s1; s2; s3]) = true).
  { apply Nat.eqb_eq. unfold numel. cbn [fold_right]. lia. }
  rewrite Hn3. cbn [data size].
  unfold well_formed in Hwf. rewrite Hout in Hwf.
  change (numel [(b * time_step)%nat; s1; s2; s3])
    with (b * time_step * (s1 * (s2 * (s3 * 1))))%nat in Hwf.
  destruct (Nat.ltb 1 time_step) eqn:Hlt.
  - apply Nat.ltb_lt in Hlt.
    unfold bind at 1. unfold lift at 1. cbn [size].
    change (index [b; (2 * (time_step - 1) * s1)%nat; s2; s3] 0)
      with (Returned (A := nat) b).
    destruct b as [| b']; [ lia | ].
    unfold lift, view. cbn [size data].
    set (f := (s1 * s2 * s3)%nat).
    set (d := flat_map (frame_difference time_step f)
                (chunks (time_step * f) (data out))).
    assert (Hnum : numel [S b'; (2 * (time_step - 1) * s1)%nat; s2; s3]
                   = (S b' * (2 * (time_step - 1) * f))%nat).
    { unfold numel, f. cbn [fold_right]. lia. }
    rewrite Hnum.
    replace (S b' * (2 * (time_step - 1) * f))%nat
      with ((2 * (time_step - 1) * f) * S b')%nat by lia.
    rewrite Nat.div_mul by discriminate.
    assert (Hn4 : Nat.eqb ((2 * (time_step - 1) * f) * S b')
                    (numel [S b'; (2 * (time_step - 1) * f)%nat]) = true).
    { apply Nat.eqb_eq. unfold numel. cbn [fold_right]. lia. }
    rewrite Hn4.
    eexists. split; [ reflexivity | ]. split; [ reflexivity | ].
    split; [ | reflexivity ].
    unfold well_formed. cbn [data size].
    change (numel [S b'; (2 * (time_step - 1) * f)%nat])
      with (S b' * (2 * (time_step - 1) * f * 1))%nat.
    subst d.
    destruct (Nat.eq_dec f 0) as [Hf0 | Hf0].
    + rewrite Hf0. unfold chunks. rewrite Nat.mul_0_r. simpl. lia.
    + assert (Hlen : length (data out) = (S b' * (time_step * f))%nat).
      { rewrite Hwf. unfold f. lia. }
      destruct (chunks_fuel_lengths (S b') (time_step * f) (data out))
        as [Hc1 Hc2]; [ lia | ].
      assert (Hch : chunks (time_step * f) (data out)
                    = chunks_fuel (S b') (time_step * f) (data out)).
      { unfold chunks. rewrite Hlen.
        rewrite Nat.div_mul by nia. reflexivity. }
      rewrite Hch.
      rewrite (length_flat_map_uniform _ (2 * (time_step - 1) * f)).
      * rewrite Hc1. lia.
      * eapply Forall_impl; [ | exact Hc2 ]. simpl. intros c Hc.
        apply frame_difference_length; assumption.
  - apply Nat.ltb_ge in Hlt.
    assert (time_step = 1)%nat by lia. subst time_step.
    unfold bind at 1. unfold lift at 1. cbn [size].
    change (index [b; 1%nat; s1; s2; s3] 0) with (Returned (A := nat) b).
    destruct b as [| b']; [ lia | ].
    unfold lift, view. cbn [size data].
    set (f := (s1 * s2 * s3)%nat).
    assert (Hnum : numel [S b'; 1%nat; s1; s2; s3] = (f * S b')%nat).
    { unfold numel, f. cbn [fold_right]. lia. }
    rewrite Hnum. rewrite Nat.div_mul by discriminate.
    assert (Hn4 : Nat.eqb (f * S b') (numel [S b'; f]) = true).
    { apply Nat.eqb_eq. unfold numel. cbn [fold_right]. lia. }
    rewrite Hn4.
    eexists. split; [ reflexivity | ].
    split; [ cbn [size]; f_equal; f_equal; lia | ].
    split; [ | reflexivity ].
    unfold well_formed. cbn [data size]. rewrite Hwf.
    unfold numel, f. cbn [fold_right]. lia.
Qed.

(** On a batch of [b] stacks of [time_step] whole frames, contiguous as
    every tensor of the embedding, when the resnet gives [s1 * s2 * s3]
    features per frame, [forward_conv] returns a
    matrix of [b] rows that holds as many numbers as its size says when
    the output of the resnet does.  For single frames the rows are the
    features of the frames, as the resnet gave them.  For longer stacks
    row [i] holds [2 * (time_step - 1)] frames' worth: first the features
    of every frame of stack [i] but the first, then, for each of these
    frames, its features minus those of the frame before it. *)
Theorem forward_conv_of_frame_stacks (self : ResEncoder) (obs : Tensor)
  (b time_step h w s1 s2 s3 : nat) (out : Tensor) (buffers : list Q) :
  image_channel self = 3%nat ->
  size obs = [b; (time_step * 3)%nat; h; w] ->
  (0 < b)%nat -> (0 < time_step)%nat ->
  resnet_to_layer2 (model self) (model_buffers self) (encoder_training self)
    (mkTensor [(b * time_step)%nat; 3%nat; h; w]
       (map (fun v => v / 255 - (1 # 2)) (data obs)))
  = (Returned out, buffers) ->
  size out = [(b * time_step)%nat; s1; s2; s3] ->
  well_formed out ->
  let f := (s1 * s2 * s3)%nat in
  exists conv,
    forward_conv obs true self = (Returned conv, set_buffers self buffers)
    /\ size conv
       = [b; ((if Nat.ltb 1 time_step then 2 * (time_step - 1) else 1)
              * f)%nat]
    /\ well_formed conv
    /\ (time_step = 1%nat -> data conv = data out)
    /\ forall i t k,
        (i < b)%nat -> (t + 1 < time_step)%nat -> (k < f)%nat ->
        exists cur prev,
          nth_error (data out) ((i * time_step + t + 1) * f + k) = Some cur
          /\ nth_error (data out) ((i * time_step + t) * f + k) = Some prev
          /\ nth_error (data conv)
               ((i * (2 * (time_step - 1)) + t) * f + k) = Some cur
          /\ nth_error (data conv)
               ((i * (2 * (time_step - 1)) + (time_step - 1) + t) * f + k)
             = Some (cur - prev).
Proof.
  intros Hic Hs Hb Ht Hres Hout Hwf f.
  destruct (forward_conv_on_stacks self obs b time_step h w s1 s2 s3 out
              buffers Hic Hs Hb Ht Hres Hout Hwf)
    as (conv & Hconv & Hsize & Hwfc & Hdata).
  exists conv. split; [ exact Hconv | ]. split; [ exact Hsize | ].
  split; [ exact Hwfc | ]. split.
  { intros ->. exact Hdata. }
  intros i t k Hi Htt Hk.
  assert (Hlt : Nat.ltb 1 time_step = true) by (apply Nat.ltb_lt; lia).
  rewrite Hlt in Hdata. fold f in Hdata.
  assert (Hlen : length (data out) = (b * (time_step * f))%nat).
  { unfold well_formed in Hwf. rewrite Hwf, Hout. unfold numel, f.
    cbn [fold_right]. lia. }
  assert (Hch : chunks (time_step * f) (data out)
                = chunks_fuel b (time_step * f) (data out)).
  { unfold chunks. rewrite Hlen. rewrite Nat.div_mul by nia. reflexivity. }
  destruct (chunks_fuel_lengths b (time_step * f) (data out))
    as [Hc1 Hc2]; [ lia | ].
  set (frames := firstn (time_step * f)
                   (skipn (i * (time_step * f)) (data out))).
  assert (Hfr : length frames = (time_step * f)%nat).
  { unfold frames. rewrite length_firstn, length_skipn, Hlen. nia. }
  assert (Hnth : forall j, (j < time_step * f)%nat ->
                   nth_error frames j
                   = nth_error (data out) (i * (time_step * f) + j)).
  { intros j Hj. unfold frames. rewrite nth_error_firstn.
    destruct (Nat.ltb_spec j (time_step * f)); [ | lia ].
    apply nth_error_skipn. }
  destruct (nth_error_in_range frames ((t + 1) * f + k)) as [cur Hcur];
    [ rewrite Hfr; nia | ].
  destruct (nth_error_in_range frames (t * f + k)) as [prev Hprev];
    [ rewrite Hfr; nia | ].
  exists cur, prev.
  split.
  { rewrite <- Hcur, Hnth by nia. f_equal. lia. }
  split.
  { rewrite <- Hprev, Hnth by nia. f_equal. lia. }
  destruct (frame_difference_nth time_step f frames t k cur prev Hfr Htt Hk
              Hcur Hprev) as [D1 D2].
  assert (Hrow : nth_error (chunks (time_step * f) (data out)) i
                 = Some frames).
  { rewrite Hch. apply chunks_fuel_nth. exact Hi. }
  assert (Hall : Forall
                   (fun c => length (frame_difference time_step f c)
                             = (2 * (time_step - 1) * f)%nat)
                   (chunks (time_step * f) (data out))).
  { rewrite Hch. eapply Forall_impl; [ | exact Hc2 ]. simpl. intros c Hc.
    apply frame_difference_length; assumption. }
  rewrite Hdata. split.
  - replace ((i * (2 * (time_step - 1)) + t) * f + k)%nat
      with (i * (2 * (time_step - 1) * f) + (t * f + k))%nat by lia.
    rewrite (nth_error_flat_map_uniform _ _ _ _ _ frames Hall Hrow)
      by (destruct time_step; [ lia | simpl; nia ]).
    exact D1.
  - replace ((i * (2 * (time_step - 1)) + (time_step - 1) + t) * f + k)%nat
      with (i * (2 * (time_step - 1) * f)
            + ((time_step - 1 + t) * f + k))%nat by lia.
    rewrite (nth_error_flat_map_uniform _ _ _ _ _ frames Hall Hrow)
      by (destruct time_step; [ lia | simpl; nia ]).
    exact D2.
Qed.

End FrameStacks.

Section DeclaredShape.

Context {I : Imports}.

Open Scope py_scope.

(** [ResEncoder.forward] is [fc] and [ln] on the rows of what
    [forward_conv] returns.  When [forward_conv] returns a matrix of [b]
    rows of the width [out_dim] that [fc] was built for, [forward] returns
    [b] rows, row [i] being [fc] and [ln] applied to row [i] of that
    matrix; the rows of the matrix are recorded as the graph unless the
    call is made under [torch.no_grad()].  On a matrix of another width
    [fc] raises, and what [forward_conv] raises [forward] raises.  The
    encoder is left as [forward_conv] left it. *)
Theorem ResEncoder_forward_applies_fc_to_rows (self : ResEncoder)
  (obs : Tensor) (no_grad : bool) :
  (forall conv self' b d,
      forward_conv obs true self = (Returned conv, self') ->
      size conv = [b; d] -> well_formed conv -> (0 < d)%nat ->
      (d = out_dim self ->
       exists rows,
         ResEncoder_forward no_grad obs self
         = (Returned
              (mkFeatures
                 (mkMatrix (repr_dim self)
                    (map (fc_ln_forward (fc_ln self)) rows))
                 (if no_grad then None else Some rows)),
            self')
         /\ length rows = b
         /\ forall i,
             (i < b)%nat ->
             nth_error rows i = Some (firstn d (skipn (i * d) (data conv))))
      /\ (d <> out_dim self ->
          ResEncoder_forward no_grad obs self = (Raised RuntimeError, self')))
  /\ (forall e self',
         forward_conv obs true self = (Raised e, self') ->
         ResEncoder_forward no_grad obs self = (Raised e, self')).
Proof.
  split.
  - intros conv self' b d Hconv Hsize Hwfc Hd.
    pose proof (forward_conv_keeps obs true self) as K.
    rewrite Hconv in K. simpl in K. injection K as K1 K2 K3 K4.
    pose proof (forward_conv_keeps_repr_dim obs true self) as Kr.
    rewrite Hconv in Kr. simpl in Kr.
    assert (Hfwd : ResEncoder_forward no_grad obs self
                   = if Nat.eqb d (out_dim self')
                     then (Returned
                             (mkFeatures
                                (mkMatrix (repr_dim self')
                                   (map (fc_ln_forward (fc_ln self'))
                                      (chunks d (data conv))))
                                (if no_grad then None
                                 else Some (chunks d (data conv)))),
                           self')
                     else (Raised RuntimeError, self')).
    { unfold ResEncoder_forward. unfold bind at 1. rewrite Hconv.
      unfold bind at 1. unfold get at 1.
      unfold bind at 1. unfold lift at 1. rewrite Hsize.
      change (index [b; d] 1) with (Returned (A := nat) d).
      cbv beta iota. destruct (Nat.eqb d (out_dim self')); reflexivity. }
    rewrite Hfwd, K2, K4, Kr.
    unfold well_formed in Hwfc. rewrite Hsize in Hwfc.
    change (numel [b; d]) with (b * (d * 1))%nat in Hwfc.
    split.
    + intros ->. rewrite Nat.eqb_refl.
      set (d := out_dim self) in *.
      assert (Hch : chunks d (data conv) = chunks_fuel b d (data conv)).
      { unfold chunks. rewrite Hwfc.
        replace (b * (d * 1))%nat with (b * d)%nat by lia.
        rewrite Nat.div_mul by lia. reflexivity. }
      destruct (chunks_fuel_lengths b d (data conv)) as [Hc1 _]; [ lia | ].
      exists (chunks d (data conv)).
      split; [ reflexivity | ].
      rewrite Hch. split; [ exact Hc1 | ].
      intros i Hi. apply chunks_fuel_nth. exact Hi.
    + intro Hod. apply Nat.eqb_neq in Hod. rewrite Hod. reflexivity.
  - intros e self' Hconv.
    unfold ResEncoder_forward. unfold bind at 1. rewrite Hconv. reflexivity.
Qed.

(** [ResEncoder.__init__] measures [out_dim] on a random batch of 32
    observations of the declared shape: for a declared shape of whole
    frames it is the width [forward_conv] gives to such a batch, and [fc]
    is built from that width to 1024 features; the buffers of the resnet
    are those the measuring call left. *)
Theorem ResEncoder_init_measures_out_dim (time_step h w s1 s2 s3 : nat)
  (device : string) (g g0 : Generator) (x : list Q) (out : Tensor)
  (buffers : list Q) :
  (0 < time_step)%nat ->
  draws randn (numel [32%nat; (time_step * 3)%nat; h; w]) g
  = (Returned x, g0) ->
  resnet_to_layer2 (fst resnet18) (snd resnet18) true
    (mkTensor [(32 * time_step)%nat; 3%nat; h; w]
       (map (fun v => v / 255 - (1 # 2)) x))
  = (Returned out, buffers) ->
  size out = [(32 * time_step)%nat; s1; s2; s3] ->
  well_formed out ->
  let width :=
    ((if Nat.ltb 1 time_step then 2 * (time_step - 1) else 1)
     * (s1 * s2 * s3))%nat in
  ResEncoder_init [(time_step * 3)%nat; h; w] device g
  = match fc_ln_init width 1024 g0 with
    | (Returned p, g1) =>
        (Returned
           (mkResEncoder (fst resnet18) buffers 512 1024 3 width p None true),
         g1)
    | (Raised e, g1) => (Raised e, g1)
    end.
Proof.
  intros Ht Hx Hres Hout Hwf width.
  destruct (forward_conv_on_stacks ResEncoder_blank
              (mkTensor [32%nat; (time_step * 3)%nat; h; w] x) 32 time_step
              h w s1 s2 s3 out buffers eq_refl eq_refl ltac:(lia) Ht Hres
              Hout Hwf)
    as (conv & Hconv & Hsize & _).
  unfold ResEncoder_init. unfold bind at 1. rewrite Hx. rewrite Hconv.
  rewrite Hsize.
  match goal with
  | |- context [index [32%nat; ?d] 1] =>
      change (index [32%nat; d] 1) with (Returned (A := nat) d)
  end.
  fold width. unfold bind, ret.
  destruct (fc_ln_init width 1024 g0) as [[p | e] g1]; reflexivity.
Qed.

End DeclaredShape.

(* ------------------------------------------------------------------ *)
(** * The further properties at work on the small implementation *)

Section ZeroFrequency.

Context {I : Imports}.

Open Scope py_scope.

(** An agent configured with [update_every_steps=0] cannot be updated:
    on every step and every batch [update] raises [ZeroDivisionError] at
    the modulus.  By then [self.train()] has run, so the agent, the
    encoder, the actor and the critic are in training mode; nothing that
    was learned or configured has changed and nothing was drawn or read. *)
Theorem update_raises_on_zero_frequency (train_data : TensorDict) (n : Z)
  (w : World) :
  update_every_steps (self w) = 0%Z ->
  exists w',
    update train_data n w = (Raised ZeroDivisionError, w')
    /\ learned (self w') = learned (self w)
    /\ generator w' = generator w
    /\ disk w' = disk w
    /\ modes (self w')
       = (true, true, true, true, critic_training (critic_target (self w))).
Proof.
  intro H0. exists (snd (train true w)).
  split; [ | split; [ | repeat split ] ].
  - unfold update. unfold bind at 1 2 3. simpl. unfold mod_.
    rewrite H0. reflexivity.
  - exact (train_keeps_learned true w).
Qed.

End ZeroFrequency.

Section PlainEncoder.

Context {I : Imports}.

Open Scope py_scope.

(** [Encoder.__init__] declares [32 * 35 * 35] features whatever the
    observation shape is, and draws nothing beyond the initialisation of
    the convnet.  [Encoder.forward] flattens what the convnet returns for a
    batch that is not empty to one row per image, of the width that the
    convnet gives, declared or not; an empty batch that the convnet
    accepts is rejected at the [view]. *)
Theorem Encoder_forward_flattens (obs_shape : list nat) (g g' : Generator)
  (self : Encoder) (obs h : Tensor) (b : nat) (rest : list nat) :
  Encoder_init obs_shape g = (Returned self, g') ->
  convnet_forward (convnet self) (tmap (fun v => v / 255 - (1 # 2)) obs)
  = Returned h ->
  size h = b :: rest ->
  Encoder_repr_dim self = (32 * 35 * 35)%nat
  /\ length obs_shape = 3%nat
  /\ (b = 0%nat -> Encoder_forward self obs = Raised RuntimeError)
  /\ ((0 < b)%nat ->
      Encoder_forward self obs = Returned (mkTensor [b; numel rest] (data h))
      /\ (well_formed h -> length (data h) = (b * numel rest)%nat)).
Proof.
  intros Einit Hconv Hsize.
  assert (Hinit : Encoder_repr_dim self = (32 * 35 * 35)%nat
                  /\ length obs_shape = 3%nat).
  { unfold Encoder_init, bind, assert, lift, ret, raise in Einit.
    set (d := (32 * 35 * 35)%nat) in *. clearbody d.
    destruct (Nat.eqb (length obs_shape) 3) eqn:El;
      cbv beta iota in Einit; [ | discriminate ].
    apply Nat.eqb_eq in El.
    destruct (index obs_shape 0) as [c | e];
      cbv beta iota in Einit; [ | discriminate ].
    destruct (convnet_init c g) as [[p | e] g1];
      cbv beta iota in Einit; [ | discriminate ].
    injection Einit as <- _.
    split; [ reflexivity | exact El ]. }
  destruct Hinit as [Hr Hl].
  split; [ exact Hr | ]. split; [ exact Hl | ].
  unfold Encoder_forward. cbv zeta. rewrite Hconv, Hsize.
  change (index (b :: rest) 0) with (Returned b).
  split.
  - intros ->. reflexivity.
  - intro Hb. destruct b as [| b']; [ lia | ].
    change (numel (S b' :: rest)) with (S b' * numel rest)%nat.
    assert (Hdiv : Nat.div (S b' * numel rest) (S b') = numel rest).
    { rewrite Nat.mul_comm. apply Nat.div_mul. discriminate. }
    rewrite Hdiv. unfold view. rewrite Hsize.
    change (numel (S b' :: rest)) with (S b' * numel rest)%nat.
    change (numel [S b'; numel rest])
      with (S b' * (numel rest * 1))%nat.
    rewrite Nat.mul_1_r, Nat.eqb_refl.
    split; [ reflexivity | ].
    unfold well_formed. rewrite Hsize. intro Hw. exact Hw.
Qed.

End PlainEncoder.

Section FurtherExamples.

#[local] Existing Instance Tiny.imports.

Open Scope py_scope.

Lemma lcg_randint_in_range (lo hi s : Z) :
  (lo < hi)%Z -> (lo <= fst (randint_next lo hi s) < hi)%Z.
Proof.
  intro H.
  change (fst (randint_next lo hi s))
    with (lo + (Tiny.lcg s / 65536) mod (Z.max 1 (hi - lo)))%Z.
  rewrite Z.max_r by lia.
  assert (Hp : (0 < hi - lo)%Z) by lia.
  pose proof (Z.mod_pos_bound (Tiny.lcg s / 65536) (hi - lo) Hp) as Hb.
  generalize dependent ((Tiny.lcg s / 65536) mod (hi - lo))%Z.
  intros m Hb. lia.
Qed.

Lemma random_shift_grid_stays_inside_witness :
  let self := RandomShiftsAug_init 1 in
  let xp := match Tiny.pad_replicate (Tiny.image 0 2 2) 1 with
            | Returned xp => xp
            | Raised _ => Tiny.image 0 2 2
            end in
  exists ds g' grid,
    draws (randint 0 (2 * Z.of_nat (pad self) + 1)) (2 * 1) 7%Z
    = (Returned ds, g')
    /\ Forall (fun d => (0 <= d <= 2 * Z.of_nat (pad self))%Z) ds
    /\ RandomShiftsAug_forward self (Tiny.image 0 2 2) 7%Z
       = (F_grid_sample xp grid, g')
    /\ size grid = [1; 2; 2; 2]%nat
    /\ 0 < 1 / padded self 2
    /\ forall b i j,
        (b < 1)%nat -> (i < 2)%nat -> (j < 2)%nat ->
        exists gx gy,
          grid_at grid 2 b i j = Some (gx, gy)
          /\ -1 + 1 / padded self 2 <= gx <= 1 - 1 / padded self 2
          /\ -1 + 1 / padded self 2 <= gy <= 1 - 1 / padded self 2.
Proof.
  exact (random_shift_grid_stays_inside (RandomShiftsAug_init 1)
           (Tiny.image 0 2 2)
           (match Tiny.pad_replicate (Tiny.image 0 2 2) 1 with
            | Returned xp => xp
            | Raised _ => Tiny.image 0 2 2
            end)
           7%Z 1 3 2 lcg_randint_in_range eq_refl
           ltac:(discriminate) eq_refl).
Defined.

Lemma forward_conv_of_frame_stacks_witness :
  let out := mkTensor [4; 1; 1; 1]%nat [52; 448; 1276; 2536] in
  exists conv,
    forward_conv Tiny.two_frames true ResEncoder_blank
    = (Returned conv, set_buffers ResEncoder_blank [1])
    /\ size conv = [2; 2]%nat
    /\ well_formed conv
    /\ (2 = 1 -> data conv = data out)%nat
    /\ forall i t k,
        (i < 2)%nat -> (t + 1 < 2)%nat -> (k < 1 * 1 * 1)%nat ->
        exists cur prev,
          nth_error (data out) ((i * 2 + t + 1) * (1 * 1 * 1) + k) = Some cur
          /\ nth_error (data out) ((i * 2 + t) * (1 * 1 * 1) + k) = Some prev
          /\ nth_error (data conv)
               ((i * (2 * (2 - 1)) + t) * (1 * 1 * 1) + k) = Some cur
          /\ nth_error (data conv)
               ((i * (2 * (2 - 1)) + (2 - 1) + t) * (1 * 1 * 1) + k)
             = Some (cur - prev).
Proof.
  exact (forward_conv_of_frame_stacks ResEncoder_blank Tiny.two_frames
           2 2 1 2 1 1 1
           (mkTensor [4; 1; 1; 1]%nat [52; 448; 1276; 2536]) [1]
           eq_refl eq_refl ltac:(lia) ltac:(lia)
           ltac:(vm_compute; reflexivity) eq_refl eq_refl).
Defined.

Lemma forward_conv_rejects_partial_frames_witness :
  forward_conv Tiny.four_channels true ResEncoder_blank
  = (Raised RuntimeError, ResEncoder_blank).
Proof.
  apply (forward_conv_rejects_partial_frames ResEncoder_blank
           Tiny.four_channels true 1 4 1 1).
  - reflexivity.
  - reflexivity.
  - discriminate.
  - lia.
  - lia.
  - lia.
Defined.

Lemma update_critic_ignores_stale_gradients_witness :
  let w := Tiny.world "places365" in
  update_critic Tiny.encoding (mkMatrix 1 [[0]]) [1] (99 # 100) [1]
    Tiny.encoding 0 Tiny.encoding
    (leaving_gradients w (Some [5; 5]) (actor_grad (actor (self w)))
       (Some [7; 7]))
  = update_critic Tiny.encoding (mkMatrix 1 [[0]]) [1] (99 # 100) [1]
      Tiny.encoding 0 Tiny.encoding w.
Proof.
  intro w.
  apply (proj2 (update_critic_ignores_stale_gradients Tiny.encoding
                  (mkMatrix 1 [[0]]) [1] (99 # 100) [1] Tiny.encoding 0%Z
                  Tiny.encoding w (Some [5; 5]) (Some [7; 7]))).
  vm_compute. reflexivity.
Defined.

Lemma update_actor_ignores_stale_gradients_witness :
  let w := Tiny.world "places365" in
  update_actor Tiny.encoding 0
    (leaving_gradients w (fc_ln_grad (encoder (self w))) (Some [5; 5])
       (critic_grad (critic (self w))))
  = update_actor Tiny.encoding 0 w.
Proof.
  intro w.
  apply (proj1 (update_actor_ignores_stale_gradients Tiny.encoding 0%Z w
                  None (Some [5; 5]) None)).
  vm_compute. reflexivity.
Defined.

Lemma update_actor_detached_spares_encoder_witness :
  fc_ln_grad
    (encoder
       (self (snd (update_actor Tiny.encoding 0 (Tiny.world "places365")))))
  <> None.
Proof.
  apply (proj2 update_actor_detached_spares_encoder Tiny.encoding 0%Z
           (Tiny.world "places365") [[3]]).
  - reflexivity.
  - vm_compute. reflexivity.
Defined.

Lemma modes_after_update_witness :
  modes (self (snd (update (Tiny.batch 2 2) 0 (Tiny.world "places365"))))
  = (true, true, true, false, false).
Proof.
  destruct (update (Tiny.batch 2 2) 0 (Tiny.world "places365"))
    as [[logs | e] w1] eqn:E;
    [ | vm_compute in E; discriminate E ].
  refine (proj1 (modes_after_update (Tiny.batch 2 2) 0%Z
                   (Tiny.world "places365") logs w1 _ E) _).
  - vm_compute. discriminate.
  - reflexivity.
Defined.

Lemma update_logs_witness :
  exists t q1 q2 loss actor_loss,
    fst (update (Tiny.batch 2 2) 0 (Tiny.world "places365"))
    = Returned
        [("critic_target_q", t); ("critic_q1", q1); ("critic_q2", q2);
         ("critic_loss", loss); ("actor_loss", actor_loss)]%string
    /\ not_negative loss.
Proof.
  destruct (update (Tiny.batch 2 2) 0 (Tiny.world "places365"))
    as [[logs | e] w1] eqn:E;
    [ | vm_compute in E; discriminate E ].
  destruct (proj1 (update_logs (Tiny.batch 2 2) 0%Z
                     (Tiny.world "places365") logs w1
                     ltac:(vm_compute; discriminate) E) eq_refl)
    as (t & q1 & q2 & loss & al & -> & Hl).
  exists t, q1, q2, loss, al. split; [ reflexivity | exact Hl ].
Defined.

Lemma get_action_mean_is_bounded_witness :
  generator (snd (get_action (Tiny.image 0 2 2) Tiny.deterministic_world))
  = 7%Z
  /\ Forall (Forall (fun m => -1 <= m <= 1)) [[-1]].
Proof.
  destruct (get_action_mean_is_bounded (Tiny.image 0 2 2)
              Tiny.deterministic_world ltac:(discriminate))
    as (Hg & _ & Ha).
  split; [ exact Hg | ].
  apply Ha. vm_compute. reflexivity.
Defined.

Lemma new_agent_invariants_witness :
  critic_params (critic_target (Tiny.agent "places365"))
  = critic_params (critic (Tiny.agent "places365"))
  /\ env_step (Tiny.agent "places365") = 0%Z.
Proof.
  destruct (new_agent_invariants [3; 2; 2]%nat 1 "cpu" (99 # 100) (1 # 100)
              50 1024 (1 # 100) 2 "linear(1.0,0.1,100000)" (3 # 10)
              "places365" 42%Z (Tiny.agent "places365") 743483562%Z
              (new_agent_is_agent "places365"))
    as (H1 & H2 & _).
  split; assumption.
Defined.

Lemma ResEncoder_forward_applies_fc_to_rows_witness :
  let conv := mkTensor [2; 2]%nat [448; 396; 2536; 1260] in
  exists rows,
    ResEncoder_forward false Tiny.two_frames Tiny.stack_encoder
    = (Returned
         (mkFeatures
            (mkMatrix (repr_dim Tiny.stack_encoder)
               (map (fc_ln_forward (fc_ln Tiny.stack_encoder)) rows))
            (Some rows)),
       set_buffers Tiny.stack_encoder [2])
    /\ length rows = 2%nat
    /\ forall i,
        (i < 2)%nat ->
        nth_error rows i = Some (firstn 2 (skipn (i * 2) (data conv))).
Proof.
  intro conv.
  refine (proj1 (proj1 (ResEncoder_forward_applies_fc_to_rows
                          Tiny.stack_encoder Tiny.two_frames false)
                   conv (set_buffers Tiny.stack_encoder [2]) 2%nat 2%nat
                   _ _ _ _) _).
  - vm_compute. reflexivity.
  - reflexivity.
  - reflexivity.
  - lia.
  - reflexivity.
Defined.

Lemma ResEncoder_init_measures_out_dim_witness :
  fst (ResEncoder_init [3; 2; 2]%nat "cpu" 42%Z)
  = Returned (mkResEncoder [1] [1] 512 1024 3 1 [1 # 2; 1 # 3] None true).
Proof.
  pose (D := draws randn (numel [32; 3; 2; 2]%nat) 42%Z).
  pose (x := match fst D with Returned x => x | Raised _ => [] end).
  pose (R := resnet_to_layer2 (fst resnet18) (snd resnet18) true
               (mkTensor [32; 3; 2; 2]%nat
                  (map (fun v => v / 255 - (1 # 2)) x))).
  pose (out := match fst R with
               | Returned o => o
               | Raised _ => mkTensor [] []
               end).
  assert (HD : D = (Returned x, snd D)) by (vm_compute; reflexivity).
  assert (HR : R = (Returned out, [1])) by (vm_compute; reflexivity).
  assert (Hs : size out = [32; 1; 1; 1]%nat) by (vm_compute; reflexivity).
  assert (Hw : well_formed out) by (vm_compute; reflexivity).
  pose proof (ResEncoder_init_measures_out_dim 1 2 2 1 1 1 "cpu" 42%Z
                (snd D) x out [1] ltac:(lia) HD HR Hs Hw) as H.
  cbv zeta in H.
  etransitivity; [ exact (f_equal fst H) | ].
  vm_compute. reflexivity.
Defined.

Lemma update_raises_on_zero_frequency_witness :
  fst (update (Tiny.batch 2 2) 5 Tiny.never_updating)
  = Raised ZeroDivisionError
  /\ modes (self (snd (update (Tiny.batch 2 2) 5 Tiny.never_updating)))
     = (true, true, true, true, false).
Proof.
  destruct (update_raises_on_zero_frequency (Tiny.batch 2 2) 5
              Tiny.never_updating eq_refl)
    as (w' & E & _ & _ & _ & Hm).
  rewrite E. split; [ reflexivity | exact Hm ].
Defined.

Lemma Encoder_forward_flattens_witness :
  Encoder_forward (mkEncoder (32 * 35 * 35) [1]) (Tiny.image 0 2 2)
  = Returned
      (mkTensor [1; 12]%nat
         (map (fun v => v / 255 - (1 # 2)) (data (Tiny.image 0 2 2)))).
Proof.
  assert (Hi : Encoder_init [3; 2; 2]%nat 42%Z
               = (Returned (mkEncoder (32 * 35 * 35) [1]), 42%Z))
    by reflexivity.
  destruct (Encoder_forward_flattens [3; 2; 2]%nat 42%Z 42%Z
              (mkEncoder (32 * 35 * 35) [1]) (Tiny.image 0 2 2)
              (tmap (fun v => v / 255 - (1 # 2)) (Tiny.image 0 2 2))
              1 [3; 2; 2]%nat Hi eq_refl eq_refl)
    as (_ & _ & _ & H).
  destruct (H ltac:(lia)) as [E _]. exact E.
Defined.

End FurtherExamples.
